(** * SonicWall to Meraki MX: the object-and-rule compilation pipeline

    A shallow embedding of [sonicwall_to_mx.py] and the properties of its
    specification.  Python strings are [string], dictionaries used as symbol
    tables are [gmap string _], integers are [Z], and code that can raise
    returns an [outcome].  Console output (the [rich] progress feed) is not
    modelled; the two journal files are. *)

From Stdlib Require Import ZArith String Ascii List Lia DecimalString.
From stdpp Require Import base option gmap strings list.

Open Scope string_scope.
Open Scope list_scope.
Open Scope Z_scope.

(** ** Outcomes of running a piece of the program *)

Inductive exn : Type :=
| KeyError (key : string)
| IndexError
| TypeError
| ValueError
| AddressValueError
| NetmaskValueError.

(** [OutOfFuel] is the only outcome that is not a Python behaviour: it marks a
    [while] loop cut by the bound of its model. *)
Inductive outcome (A : Type) : Type :=
| Return (a : A)
| Raise (e : exn)
| OutOfFuel.
Arguments Return {A} a.
Arguments Raise {A} e.
Arguments OutOfFuel {A}.

#[global] Instance outcome_ret : MRet outcome := fun A a => Return a.

#[global] Instance outcome_bind : MBind outcome := fun A B k m =>
  match m with
  | Return a => k a
  | Raise e => Raise e
  | OutOfFuel => OutOfFuel
  end.

#[global] Instance outcome_fmap : FMap outcome := fun A B f m =>
  match m with
  | Return a => Return (f a)
  | Raise e => Raise e
  | OutOfFuel => OutOfFuel
  end.

(** ** Python string methods used by the program *)

Module PyStr.

(** [s.startswith(p)] *)
Fixpoint startswith (p s : string) : bool :=
  match p, s with
  | EmptyString, _ => true
  | String a p', String b s' => if Ascii.eqb a b then startswith p' s' else false
  | String _ _, EmptyString => false
  end.

(** [sub in s] *)
Fixpoint contains (sub s : string) : bool :=
  startswith sub s ||
  match s with
  | EmptyString => false
  | String _ s' => contains sub s'
  end.

(** [s.replace(old, new)] for a non-empty [old] (every call of the program):
    occurrences are replaced from the left and do not overlap.  [skip] counts
    the characters of [s] still covered by the occurrence just replaced. *)
Fixpoint replace_from (old new : string) (skip : nat) (s : string) : string :=
  match s with
  | EmptyString => EmptyString
  | String c s' =>
      match skip with
      | S k => replace_from old new k s'
      | O =>
          if startswith old s
          then new +:+ replace_from old new (Nat.pred (String.length old)) s'
          else String c (replace_from old new O s')
      end
  end.

Definition replace (old new s : string) : string := replace_from old new O s.

(** The characters [str.split()] and [str.strip()] treat as white space. *)
Definition isspace (c : ascii) : bool :=
  let n := nat_of_ascii c in
  ((9 <=? n)%nat && (n <=? 13)%nat) || ((28 <=? n)%nat && (n <=? 32)%nat).

Fixpoint lstrip (s : string) : string :=
  match s with
  | EmptyString => EmptyString
  | String c s' => if isspace c then lstrip s' else s
  end.

Fixpoint rstrip (s : string) : string :=
  match s with
  | EmptyString => EmptyString
  | String c s' =>
      match rstrip s' with
      | EmptyString => if isspace c then EmptyString else String c EmptyString
      | r => String c r
      end
  end.

(** [s.strip()] *)
Definition strip (s : string) : string := rstrip (lstrip s).

(** [s.split()]: the maximal runs of characters that are not white space. *)
Fixpoint split_from (cur : string) (s : string) : list string :=
  match s with
  | EmptyString => match cur with EmptyString => [] | _ => [cur] end
  | String c s' =>
      if isspace c
      then match cur with
           | EmptyString => split_from EmptyString s'
           | _ => cur :: split_from EmptyString s'
           end
      else split_from (cur +:+ String c EmptyString) s'
  end.

Definition split (s : string) : list string := split_from EmptyString s.

(** [s.split(sep)] for a one-character separator: empty fields are kept. *)
Fixpoint split_on_from (sep : ascii) (cur : string) (s : string) : list string :=
  match s with
  | EmptyString => [cur]
  | String c s' =>
      if Ascii.eqb c sep
      then cur :: split_on_from sep EmptyString s'
      else split_on_from sep (cur +:+ String c EmptyString) s'
  end.

Definition split_on (sep : ascii) (s : string) : list string :=
  split_on_from sep EmptyString s.

(** [sep.join(l)] *)
Fixpoint join (sep : string) (l : list string) : string :=
  match l with
  | [] => EmptyString
  | [x] => x
  | x :: r => x +:+ sep +:+ join sep r
  end.

(** [str(n)] for an integer. *)
Definition of_int (n : Z) : string := NilZero.string_of_int (Z.to_int n).

(** [l[i]] on a list: [IndexError] out of range (indices here are never
    negative). *)
Definition index {A} (l : list A) (i : nat) : outcome A :=
  match l !! i with
  | Some x => Return x
  | None => Raise IndexError
  end.

(** [d[k]] on a dictionary: [KeyError] when absent. *)
Definition getitem {V} (d : gmap string V) (k : string) : outcome V :=
  match d !! k with
  | Some v => Return v
  | None => Raise (KeyError k)
  end.

(** [k in d] *)
Definition haskey {V} (d : gmap string V) (k : string) : bool :=
  match d !! k with
  | Some _ => true
  | None => false
  end.

End PyStr.


(** ** The standard [ipaddress] module, as far as the program uses it

    [build_mx_object] calls [ipaddress.IPv4Address] on the two ends of a
    [range] line and [ipaddress.summarize_address_range] on the result.  The
    definitions below follow CPython's [Lib/ipaddress.py]. *)

Module Ipaddress.

Definition IPV4LENGTH : Z := 32.
Definition ALL_ONES : Z := 2 ^ IPV4LENGTH - 1.

(** [int.bit_length()] *)
Definition bit_length (x : Z) : Z :=
  if x =? 0 then 0 else Z.log2 (Z.abs x) + 1.

(** [_count_righthand_zero_bits(number, bits)] *)
Definition count_righthand_zero_bits (number bits : Z) : Z :=
  if number =? 0 then bits
  else Z.min bits (bit_length (Z.land (Z.lnot number) (number - 1))).

(** An [IPv4Network]: the integer of its network address and its prefix
    length. *)
Record IPv4Network : Type := mkNet { network_address : Z; prefixlen : Z }.

(** [_ip_int_from_prefix(prefixlen)]: the netmask as an integer. *)
Definition ip_int_from_prefix (p : Z) : Z :=
  Z.lxor ALL_ONES (Z.shiftr ALL_ONES p).

(** [IPv4Network((addr, prefixlen))] with the default [strict=True]:
    the address and the prefix length are range-checked, and host bits must
    be zero. *)
Definition make_network (addr p : Z) : outcome IPv4Network :=
  if (addr <? 0) || (ALL_ONES <? addr) then Raise AddressValueError
  else if negb ((0 <=? p) && (p <=? IPV4LENGTH)) then Raise NetmaskValueError
  else if negb (Z.land addr (ip_int_from_prefix p) =? addr) then Raise ValueError
  else Return (mkNet addr p).

(** The [while] loop of [summarize_address_range]; one unit of fuel per
    iteration. *)
Fixpoint summarize_loop (fuel : nat) (first_int last_int : Z)
  : outcome (list IPv4Network) :=
  match fuel with
  | O => OutOfFuel
  | S fuel' =>
      if first_int <=? last_int then
        let nbits := Z.min (count_righthand_zero_bits first_int IPV4LENGTH)
                           (bit_length (last_int - first_int + 1) - 1) in
        net ← make_network first_int (IPV4LENGTH - nbits);
        let first_int' := first_int + Z.shiftl 1 nbits in
        if first_int' - 1 =? ALL_ONES then Return [net]
        else rest ← summarize_loop fuel' first_int' last_int;
             Return (net :: rest)
      else Return []
  end.

(** The bound given to the loop: it runs at most twice per bit of an address
    (see [summarize_loop_terminates]). *)
Definition summarize_fuel : nat := 67.

(** [list(summarize_address_range(first, last))] on two IPv4 addresses given
    by their integers. *)
Definition summarize_address_range (first last : Z) : outcome (list IPv4Network) :=
  if last <? first then Raise ValueError
  else summarize_loop summarize_fuel first last.

(** [_parse_octet(octet_str)] *)
Definition isdigit (c : ascii) : bool :=
  let n := nat_of_ascii c in (48 <=? n)%nat && (n <=? 57)%nat.

Fixpoint all_digits (s : string) : bool :=
  match s with
  | EmptyString => true
  | String c s' => isdigit c && all_digits s'
  end.

Fixpoint int_of_digits (acc : Z) (s : string) : Z :=
  match s with
  | EmptyString => acc
  | String c s' => int_of_digits (10 * acc + (Z.of_nat (nat_of_ascii c) - 48)) s'
  end.

Definition parse_octet (octet_str : string) : outcome Z :=
  match octet_str with
  | EmptyString => Raise ValueError
  | String c0 _ =>
      if negb (all_digits octet_str) then Raise ValueError
      else if (3 <? String.length octet_str)%nat then Raise ValueError
      else if negb (String.eqb octet_str "0") && Ascii.eqb c0 "0" then Raise ValueError
      else
        let octet_int := int_of_digits 0 octet_str in
        if 255 <? octet_int then Raise ValueError else Return octet_int
  end.

(** [IPv4Address(addr_str)._ip]: every failure surfaces as
    [AddressValueError]. *)
Definition IPv4Address (addr_str : string) : outcome Z :=
  if PyStr.contains "/" addr_str then Raise AddressValueError
  else
    match addr_str with
    | EmptyString => Raise AddressValueError
    | _ =>
        match PyStr.split_on "." addr_str with
        | [o1; o2; o3; o4] =>
            match parse_octet o1, parse_octet o2, parse_octet o3, parse_octet o4 with
            | Return a, Return b, Return c, Return d =>
                Return (((a * 256 + b) * 256 + c) * 256 + d)
            | _, _, _, _ => Raise AddressValueError
            end
        | _ => Raise AddressValueError
        end
    end.

(** [str(IPv4Address(ip_int))]: dotted decimal notation. *)
Definition string_from_ip_int (ip_int : Z) : string :=
  PyStr.join "."
    (map PyStr.of_int
       [ (ip_int / 16777216) mod 256; (ip_int / 65536) mod 256;
         (ip_int / 256) mod 256; ip_int mod 256 ]).

(** [str(net)] is ['%s/%d' % (net.network_address, net.prefixlen)]. *)
Definition str_network (net : IPv4Network) : string :=
  string_from_ip_int (network_address net) +:+ "/" +:+ PyStr.of_int (prefixlen net).

(** What a CIDR block denotes: the addresses from its network address up to
    the end of its [2 ^ (32 - prefixlen)] block. *)
Definition block_size (net : IPv4Network) : Z := 2 ^ (IPV4LENGTH - prefixlen net).




End Ipaddress.

(** ** The configuration tree and the symbol tables *)

(** A line of the parsed show-run file, as the tokenizer hands it over: its
    [text] and its [children]. *)
#[warnings="-register-all"]
Inductive IOSCfgLine : Type := CfgLine { text : string; children : list IOSCfgLine }.

(** A service primitive is the two-element list [[protocol, port]]. *)
Definition service : Type := (string * string)%type.

(** The module-level dictionaries of the program. *)
Record tables : Type := mkTables {
  objects : gmap string string;
  fqdn_objects : gmap string string;
  range_objects : gmap string string;
  object_groups : gmap string string;
  range_object_groups : gmap string (list string * list string);
  fqdn_object_groups : gmap string string;
  group_of_groups : gmap string (list string * list string);
  service_objects : gmap string service;
  service_object_groups : gmap string (list service);
  service_group_of_groups : gmap string (list service)
}.

Definition empty_tables : tables :=
  mkTables ∅ ∅ ∅ ∅ ∅ ∅ ∅ ∅ ∅ ∅.

Definition nl : string := String "010"%char EmptyString.
Definition tab : string := String "009"%char EmptyString.
Definition dquote_char : ascii := "034"%char.
Definition dquote : string := String dquote_char EmptyString.

(** [SUBNET_MASKS], entry by entry. *)
Definition SUBNET_MASKS : gmap string string :=
  list_to_map [
    ("128.0.0.0", "1"); ("127.255.255.255", "1");
    ("192.0.0.0", "2"); ("63.255.255.255", "2");
    ("224.0.0.0", "3"); ("31.255.255.255", "3");
    ("240.0.0.0", "4"); ("15.255.255.255", "4");
    ("248.0.0.0", "5"); ("7.255.255.255", "5");
    ("252.0.0.0", "6"); ("3.255.255.255", "6");
    ("254.0.0.0", "7"); ("1.255.255.255", "7");
    ("255.0.0.0", "8"); ("0.255.255.255", "8");
    ("255.128.0.0", "9"); ("0.127.255.255", "9");
    ("255.192.0.0", "10"); ("0.63.255.255", "10");
    ("255.224.0.0", "11"); ("0.31.255.255", "11");
    ("255.240.0.0", "12"); ("0.15.255.255", "12");
    ("255.248.0.0", "13"); ("0.7.255.255", "13");
    ("255.252.0.0", "14"); ("0.3.255.255", "14");
    ("255.254.0.0", "15"); ("0.1.255.255", "15");
    ("255.255.0.0", "16"); ("0.0.255.255", "16");
    ("255.255.128.0", "17"); ("0.0.0.127.255", "17");
    ("255.255.192.0", "18"); ("0.0.63.255", "18");
    ("255.255.224.0", "19"); ("0.0.31.255", "19");
    ("255.255.240.0", "20"); ("0.0.15.255", "20");
    ("255.255.248.0", "21"); ("0.0.7.255", "21");
    ("255.255.252.0", "22"); ("0.0.3.255", "22");
    ("255.255.254.0", "23"); ("0.0.1.255", "23");
    ("255.255.255.0", "24"); ("0.0.0.255", "24");
    ("255.255.255.128", "25"); ("0.0.0.127", "25");
    ("255.255.255.192", "26"); ("0.0.0.63", "26");
    ("255.255.255.224", "27"); ("0.0.0.31", "27");
    ("255.255.255.240", "28"); ("0.0.0.15", "28");
    ("255.255.255.248", "29"); ("0.0.0.7", "29");
    ("255.255.255.252", "30"); ("0.0.0.3", "30");
    ("255.255.255.254", "31"); ("0.0.0.1", "31");
    ("255.255.255.255", "32"); ("0.0.0.0", "32")
  ].

(** ** [build_mx_object] *)

(** The [object_type] argument; the program passes the six literals
    ['object'], ['fqdn'], ['group'], ['group-ipv6'], ['service'] and
    ['service-group']. *)
Inductive object_type : Type :=
| OT_object | OT_fqdn | OT_group | OT_group_ipv6 | OT_service | OT_service_group.

(** The dictionary [mx_object].  A key that a branch may leave unset is an
    [option]; the list-valued keys start empty in the branches that use
    them.  The key ['group_of_groups'] holds group ids in an address group
    ([mx_group_of_groups]) and service primitives in a service group
    ([mx_nested_services]). *)
Record mx_object : Type := mkMx {
  mx_name : string;
  mx_category : option string;
  mx_type : option string;
  mx_cidr : option string;
  mx_range : option (list string);
  mx_zone : option string;
  mx_fqdn : option string;
  mx_objectIds : list string;
  mx_rangeIds : list string;
  mx_group_of_groups : list string;
  mx_objectFQDNs : list string;
  mx_protocol : option string;
  mx_port : option string;
  mx_service_objects : list service;
  mx_nested_services : list service
}.

Definition mx_new (name : string) (category : option string) : mx_object :=
  mkMx name category None None None None None [] [] [] [] None None [] [].

Definition set_type (v : string) (m : mx_object) : mx_object :=
  mkMx (mx_name m) (mx_category m) (Some v) (mx_cidr m) (mx_range m) (mx_zone m)
       (mx_fqdn m) (mx_objectIds m) (mx_rangeIds m) (mx_group_of_groups m)
       (mx_objectFQDNs m) (mx_protocol m) (mx_port m) (mx_service_objects m)
       (mx_nested_services m).
Definition set_cidr (v : string) (m : mx_object) : mx_object :=
  mkMx (mx_name m) (mx_category m) (mx_type m) (Some v) (mx_range m) (mx_zone m)
       (mx_fqdn m) (mx_objectIds m) (mx_rangeIds m) (mx_group_of_groups m)
       (mx_objectFQDNs m) (mx_protocol m) (mx_port m) (mx_service_objects m)
       (mx_nested_services m).
Definition set_range (v : list string) (m : mx_object) : mx_object :=
  mkMx (mx_name m) (mx_category m) (mx_type m) (mx_cidr m) (Some v) (mx_zone m)
       (mx_fqdn m) (mx_objectIds m) (mx_rangeIds m) (mx_group_of_groups m)
       (mx_objectFQDNs m) (mx_protocol m) (mx_port m) (mx_service_objects m)
       (mx_nested_services m).
Definition set_zone (v : string) (m : mx_object) : mx_object :=
  mkMx (mx_name m) (mx_category m) (mx_type m) (mx_cidr m) (mx_range m) (Some v)
       (mx_fqdn m) (mx_objectIds m) (mx_rangeIds m) (mx_group_of_groups m)
       (mx_objectFQDNs m) (mx_protocol m) (mx_port m) (mx_service_objects m)
       (mx_nested_services m).
Definition set_fqdn (v : string) (m : mx_object) : mx_object :=
  mkMx (mx_name m) (mx_category m) (mx_type m) (mx_cidr m) (mx_range m) (mx_zone m)
       (Some v) (mx_objectIds m) (mx_rangeIds m) (mx_group_of_groups m)
       (mx_objectFQDNs m) (mx_protocol m) (mx_port m) (mx_service_objects m)
       (mx_nested_services m).
Definition add_objectId (v : string) (m : mx_object) : mx_object :=
  mkMx (mx_name m) (mx_category m) (mx_type m) (mx_cidr m) (mx_range m) (mx_zone m)
       (mx_fqdn m) (mx_objectIds m ++ [v]) (mx_rangeIds m) (mx_group_of_groups m)
       (mx_objectFQDNs m) (mx_protocol m) (mx_port m) (mx_service_objects m)
       (mx_nested_services m).
Definition add_rangeId (v : string) (m : mx_object) : mx_object :=
  mkMx (mx_name m) (mx_category m) (mx_type m) (mx_cidr m) (mx_range m) (mx_zone m)
       (mx_fqdn m) (mx_objectIds m) (mx_rangeIds m ++ [v]) (mx_group_of_groups m)
       (mx_objectFQDNs m) (mx_protocol m) (mx_port m) (mx_service_objects m)
       (mx_nested_services m).
Definition add_group_of_groups (v : string) (m : mx_object) : mx_object :=
  mkMx (mx_name m) (mx_category m) (mx_type m) (mx_cidr m) (mx_range m) (mx_zone m)
       (mx_fqdn m) (mx_objectIds m) (mx_rangeIds m) (mx_group_of_groups m ++ [v])
       (mx_objectFQDNs m) (mx_protocol m) (mx_port m) (mx_service_objects m)
       (mx_nested_services m).
Definition add_objectFQDN (v : string) (m : mx_object) : mx_object :=
  mkMx (mx_name m) (mx_category m) (mx_type m) (mx_cidr m) (mx_range m) (mx_zone m)
       (mx_fqdn m) (mx_objectIds m) (mx_rangeIds m) (mx_group_of_groups m)
       (mx_objectFQDNs m ++ [v]) (mx_protocol m) (mx_port m) (mx_service_objects m)
       (mx_nested_services m).
Definition set_protocol (v : string) (m : mx_object) : mx_object :=
  mkMx (mx_name m) (mx_category m) (mx_type m) (mx_cidr m) (mx_range m) (mx_zone m)
       (mx_fqdn m) (mx_objectIds m) (mx_rangeIds m) (mx_group_of_groups m)
       (mx_objectFQDNs m) (Some v) (mx_port m) (mx_service_objects m)
       (mx_nested_services m).
Definition set_port (v : string) (m : mx_object) : mx_object :=
  mkMx (mx_name m) (mx_category m) (mx_type m) (mx_cidr m) (mx_range m) (mx_zone m)
       (mx_fqdn m) (mx_objectIds m) (mx_rangeIds m) (mx_group_of_groups m)
       (mx_objectFQDNs m) (mx_protocol m) (Some v) (mx_service_objects m)
       (mx_nested_services m).
Definition add_service_object (v : service) (m : mx_object) : mx_object :=
  mkMx (mx_name m) (mx_category m) (mx_type m) (mx_cidr m) (mx_range m) (mx_zone m)
       (mx_fqdn m) (mx_objectIds m) (mx_rangeIds m) (mx_group_of_groups m)
       (mx_objectFQDNs m) (mx_protocol m) (mx_port m) (mx_service_objects m ++ [v])
       (mx_nested_services m).
Definition add_nested_services (v : list service) (m : mx_object) : mx_object :=
  mkMx (mx_name m) (mx_category m) (mx_type m) (mx_cidr m) (mx_range m) (mx_zone m)
       (mx_fqdn m) (mx_objectIds m) (mx_rangeIds m) (mx_group_of_groups m)
       (mx_objectFQDNs m) (mx_protocol m) (mx_port m) (mx_service_objects m)
       (mx_nested_services m ++ v).

(** A [for] loop whose body may raise. *)
Fixpoint foldM {A S : Type} (f : S -> A -> outcome S) (l : list A) (s : S) : outcome S :=
  match l with
  | [] => Return s
  | x :: r => s' ← f s x; foldM f r s'
  end.

(** [broken_fp.write(header + '\n\t' + f'- Reason: {reason}\n')] *)
Definition journal_record (header reason : string) : string :=
  header +:+ nl +:+ tab +:+ "- Reason: " +:+ reason +:+ nl.

(** The sanitizing chains, as they are spelled at each site. *)
Definition sanitize_quote_dot_colon (s : string) : string :=
  PyStr.replace ":" "_" (PyStr.replace "." "_" (PyStr.replace dquote EmptyString s)).

Definition sanitize_quote_dot_colon_star (s : string) : string :=
  PyStr.replace "*" "_" (sanitize_quote_dot_colon s).

(** The body of the loop over the children of an [address-object ipv4]
    stanza. *)
Definition object_line (m : mx_object) (line : IOSCfgLine) : outcome mx_object :=
  let content := PyStr.split (text line) in
  c0 ← PyStr.index content 0;
  if String.eqb c0 "host" then
    c1 ← PyStr.index content 1;
    Return (set_cidr (c1 +:+ "/32") (set_type "cidr" m))
  else if String.eqb c0 "network" then
    c1 ← PyStr.index content 1;
    c2 ← PyStr.index content 2;
    plen ← PyStr.getitem SUBNET_MASKS c2;
    Return (set_cidr (c1 +:+ "/" +:+ plen) (set_type "cidr" m))
  else if String.eqb c0 "range" then
    c1 ← PyStr.index content 1;
    startip ← Ipaddress.IPv4Address c1;
    c2 ← PyStr.index content 2;
    endip ← Ipaddress.IPv4Address c2;
    nets ← Ipaddress.summarize_address_range startip endip;
    Return (set_range (map Ipaddress.str_network nets) (set_type "cidr" m))
  else if String.eqb c0 "zone" then
    c1 ← PyStr.index content 1;
    Return (set_zone c1 m)
  else Return m.

(** The body of the loop over the children of an [address-object fqdn]
    stanza. *)
Definition fqdn_line (m : mx_object) (line : IOSCfgLine) : outcome mx_object :=
  let content := PyStr.split (text line) in
  c0 ← PyStr.index content 0;
  if String.eqb c0 "domain" then
    c1 ← PyStr.index content 1;
    Return (set_fqdn c1 (set_type "fqdn" m))
  else Return m.

(** The message of a member that is not in the tables. *)
Definition invalid_object (content header : string) : string :=
  "Invalid object " +:+ dquote +:+ content +:+ dquote +:+ " in group "
    +:+ dquote +:+ header +:+ dquote.

Definition invalid_service_object (content header : string) : string :=
  "Invalid service object " +:+ dquote +:+ content +:+ dquote +:+ " in group "
    +:+ dquote +:+ header +:+ dquote.

(** The body of the loop over the children of an [address-group ipv4]
    stanza; the state is [mx_object] and the journal written so far. *)
Definition group_line (t : tables) (header : string)
    (st : mx_object * string) (line : IOSCfgLine) : outcome (mx_object * string) :=
  let '(m, fp) := st in
  let content := PyStr.strip (text line) in
  if PyStr.startswith "address-object ipv4" content then
    let content := PyStr.strip (PyStr.replace "address-object ipv4" EmptyString content) in
    let content := sanitize_quote_dot_colon content in
    if negb (PyStr.haskey (objects t) content)
       && negb (PyStr.haskey (range_objects t) (content +:+ "__range__"))
    then Return (m, fp +:+ journal_record header (invalid_object content header))
    else if PyStr.haskey (objects t) content then
      object_id ← PyStr.getitem (objects t) content;
      Return (add_objectId object_id m, fp)
    else if PyStr.haskey (range_objects t) (content +:+ "__range__") then
      range_id ← PyStr.getitem (range_objects t) (content +:+ "__range__");
      Return (add_rangeId range_id m, fp)
    else
      group_id ← PyStr.getitem (object_groups t) content;
      Return (add_group_of_groups group_id m, fp)
  else if PyStr.startswith "address-group ipv4" content then
    let content := PyStr.strip (PyStr.replace "address-group ipv4" EmptyString content) in
    let content := sanitize_quote_dot_colon content in
    if negb (PyStr.haskey (object_groups t) content)
    then Return (m, fp +:+ journal_record header (invalid_object content header))
    else
      group_id ← PyStr.getitem (object_groups t) content;
      Return (add_group_of_groups group_id m, fp)
  else Return (m, fp).

(** The body of the loop over the children of an [address-group ipv6]
    stanza. *)
Definition group_ipv6_line (t : tables) (header : string)
    (st : mx_object * string) (line : IOSCfgLine) : outcome (mx_object * string) :=
  let '(m, fp) := st in
  let content := PyStr.strip (text line) in
  if PyStr.startswith "address-object fqdn" content then
    let content := PyStr.strip (PyStr.replace "address-object fqdn" EmptyString content) in
    let content := sanitize_quote_dot_colon_star content in
    if negb (PyStr.haskey (fqdn_objects t) content)
    then Return (m, fp +:+ journal_record header (invalid_object content header))
    else
      object_id ← PyStr.getitem (fqdn_objects t) content;
      Return (add_objectFQDN object_id m, fp)
  else if PyStr.startswith "address-object ipv4" content then
    let content := PyStr.strip (PyStr.replace "address-object ipv4" EmptyString content) in
    let content := sanitize_quote_dot_colon content in
    if negb (PyStr.haskey (objects t) content)
    then Return (m, fp +:+ journal_record header (invalid_object content header))
    else
      object_id ← PyStr.getitem (objects t) content;
      Return (add_objectId object_id m, fp)
  else Return (m, fp).

(** The body of the loop over the children of a [service-group] stanza. *)
Definition service_group_line (t : tables) (header : string)
    (st : mx_object * string) (line : IOSCfgLine) : outcome (mx_object * string) :=
  let '(m, fp) := st in
  let content := PyStr.strip (text line) in
  if PyStr.startswith "service-object" content then
    let content := PyStr.strip (PyStr.replace "service-object" EmptyString content) in
    let content := PyStr.replace dquote EmptyString content in
    if negb (PyStr.haskey (service_objects t) content)
    then Return (m, fp +:+ journal_record header (invalid_service_object content header))
    else
      s ← PyStr.getitem (service_objects t) content;
      Return (add_service_object (s.1, s.2) m, fp)
  else if PyStr.startswith "service-group" content then
    let content := PyStr.strip (PyStr.replace "service-group" EmptyString content) in
    let content := PyStr.replace dquote EmptyString content in
    if negb (PyStr.haskey (service_object_groups t) content)
    then Return (m, fp +:+ journal_record header (invalid_service_object content header))
    else
      services ← PyStr.getitem (service_object_groups t) content;
      Return (add_nested_services services m, fp)
  else Return (m, fp).

(** The protocol and ports of a [service-object] line, after its name:
    [element[i]], [element[i+1]], [element[i+2]]. *)
Definition service_fields (m : mx_object) (element : list string) (i : nat)
  : outcome (option mx_object) :=
  proto ← PyStr.index element i;
  if String.eqb proto "TCP" || String.eqb proto "UDP" then
    p1 ← PyStr.index element (i + 1);
    p2 ← PyStr.index element (i + 2);
    if String.eqb p1 p2
    then Return (Some (set_port p1 (set_protocol proto m)))
    else Return (Some (set_port (p1 +:+ "-" +:+ p2) (set_protocol proto m)))
  else if String.eqb proto "ICMP" || String.eqb proto "ICMPV6" then
    Return (Some (set_protocol proto m))
  else Return None.

Definition invalid_service : string :=
  "Invalid Service Object (service not supported, missing ports, etc.)".

(** [build_mx_object(print_console, object_type, element, broken_fp)]: the
    tables are read, the journal [broken_fp] is appended to, and the result
    is [None] or the dictionary built. *)
Definition build_mx_object (t : tables) (ot : object_type) (element : IOSCfgLine)
    (broken_fp : string) : outcome (option mx_object * string) :=
  match ot with
  | OT_object =>
      let name := PyStr.replace "address-object ipv4 " EmptyString (text element) in
      let name := sanitize_quote_dot_colon name in
      if negb (PyStr.haskey (objects t) name)
         && negb (PyStr.haskey (range_objects t) (name +:+ "__range__"))
      then
        let m := mx_new name (Some "network") in
        match children element with
        | [] => Return (None, broken_fp)
        | lines =>
            m ← foldM object_line lines m;
            match mx_type m with
            | None =>
                Return (None, broken_fp +:+
                  journal_record (text element) "No valid host or network line")
            | Some _ => Return (Some m, broken_fp)
            end
        end
      else Return (None, broken_fp)
  | OT_fqdn =>
      let name := PyStr.replace "address-object fqdn " EmptyString (text element) in
      let name := sanitize_quote_dot_colon_star name in
      if negb (PyStr.haskey (fqdn_objects t) name) then
        let m := mx_new name (Some "network") in
        match children element with
        | [] => Return (None, broken_fp)
        | lines =>
            m ← foldM fqdn_line lines m;
            match mx_type m with
            | None =>
                Return (None, broken_fp +:+ journal_record (text element) "No domain line")
            | Some _ => Return (Some m, broken_fp)
            end
        end
      else Return (None, broken_fp)
  | OT_group =>
      let name := PyStr.replace "address-group ipv4 " EmptyString (text element) in
      let name := sanitize_quote_dot_colon name in
      if negb (PyStr.haskey (object_groups t) name) then
        let m := mx_new name (Some "NetworkObjectGroup") in
        match children element with
        | [] => Return (None, broken_fp)
        | lines =>
            '(m, fp) ← foldM (group_line t (text element)) lines (m, broken_fp);
            Return (Some m, fp)
        end
      else Return (None, broken_fp)
  | OT_group_ipv6 =>
      let name := PyStr.replace "address-group ipv6 " EmptyString (text element) in
      let name := PyStr.replace dquote EmptyString name in
      if negb (PyStr.haskey (object_groups t) name)
         && negb (PyStr.haskey (fqdn_object_groups t) name)
      then
        let m := mx_new name (Some "NetworkObjectGroup") in
        match children element with
        | [] => Return (None, broken_fp)
        | lines =>
            '(m, fp) ← foldM (group_ipv6_line t (text element)) lines (m, broken_fp);
            Return (Some m, fp)
        end
      else Return (None, broken_fp)
  | OT_service =>
      let element := PyStr.replace "service-object " EmptyString (text element) in
      match element with
      | EmptyString => Raise IndexError
      | String c0 _ =>
          if Ascii.eqb c0 dquote_char then
            let element := PyStr.split_on dquote_char element in
            name ← PyStr.index element 1;
            let m := mx_new name None in
            rest ← PyStr.index element 2;
            let element := PyStr.split (PyStr.strip rest) in
            r ← service_fields m element 0;
            match r with
            | Some m => Return (Some m, broken_fp)
            | None =>
                Return (None, broken_fp +:+
                  journal_record ("service object " +:+ name) invalid_service)
            end
          else
            let element := PyStr.split element in
            name ← PyStr.index element 0;
            let m := mx_new name None in
            r ← service_fields m element 1;
            match r with
            | Some m => Return (Some m, broken_fp)
            | None => Return (None, broken_fp)
            end
      end
  | OT_service_group =>
      let name := PyStr.replace dquote EmptyString (PyStr.replace "service-group " EmptyString (text element)) in
      let m := mx_new name None in
      if negb (PyStr.haskey (service_object_groups t) name) then
        match children element with
        | [] => Return (None, broken_fp)
        | lines =>
            '(m, fp) ← foldM (service_group_line t (text element)) lines (m, broken_fp);
            match mx_service_objects m with
            | [] =>
                Return (None, fp +:+ journal_record (text element)
                                       "No valid service object line... skipping.")
            | _ => Return (Some m, fp)
            end
        end
      else Return (None, broken_fp)
  end.

(** ** [duplicate_splitter] *)

(** Its [object_type] argument: ['ipv4'], ['ipv4-group'], ['ipv6-group'],
    ['ipv6'], ['fqdn'] or ['rule']. *)
Inductive splitter_type : Type :=
| ST_ipv4 | ST_ipv4_group | ST_ipv6_group | ST_ipv6 | ST_fqdn | ST_rule.

(** [[idx + 1 for idx, val in enumerate(children) if 'exit' in val.text]] *)
Definition exit_indexes (lines : list IOSCfgLine) : list nat :=
  omap (fun p : nat * IOSCfgLine =>
          if PyStr.contains "exit" (text p.2) then Some (S p.1) else None)
       (imap pair lines).

(** [l[i:j]] *)
Definition slice {A} (i j : nat) (l : list A) : list A := take (j - i) (drop i l).

(** [[children[i:j] for i, j in zip([0] + idx_list,
      idx_list + ([size] if idx_list[-1] != size else []))]] *)
Definition partitions (lines : list IOSCfgLine) (idx_list : list nat)
  : list (list IOSCfgLine) :=
  let size := length lines in
  let ends := (idx_list ++ (if bool_decide (last idx_list = Some size) then [] else [size]))%list in
  (fun p : nat * nat => slice p.1 p.2 lines) <$> zip (0%nat :: idx_list) ends.

(** The header given to the clone. *)
Definition clone_text (ty : splitter_type) (element first : IOSCfgLine) : string :=
  let ident := PyStr.replace "name " EmptyString (PyStr.strip (text first)) in
  match ty with
  | ST_ipv4 => "address-object ipv4 " +:+ ident
  | ST_ipv4_group => "address-group ipv4 " +:+ ident
  | ST_ipv6_group => "address-group ipv6 " +:+ ident
  | ST_ipv6 => "address-object ipv6 " +:+ ident
  | ST_fqdn => "address-object fqdn " +:+ ident
  | ST_rule => text element +:+ " (Sub Rule)"
  end.

(** One turn of the loop of [duplicate_splitter]: the element as the loop
    leaves it, and the clone appended to [new_entries], if any. *)
Definition split_element (ty : splitter_type) (element : IOSCfgLine)
  : outcome (IOSCfgLine * option IOSCfgLine) :=
  let idx_list := exit_indexes (children element) in
  match idx_list with
  | [] => Return (element, None)
  | _ =>
      match partitions (children element) idx_list with
      | res0 :: res1 :: _ =>
          first ← PyStr.index res1 0;
          let clone := CfgLine (clone_text ty element first) res1 in
          Return (CfgLine (text element) res0, Some clone)
      | _ => Return (element, None)
      end
  end.

(** [duplicate_splitter(object_list, object_type)]: the elements of
    [object_list] are updated in place and [new_entries] is returned, so the
    model returns both. *)
Fixpoint duplicate_splitter (object_list : list IOSCfgLine) (ty : splitter_type)
  : outcome (list IOSCfgLine * list IOSCfgLine) :=
  match object_list with
  | [] => Return ([], [])
  | element :: rest =>
      '(element', clone) ← split_element ty element;
      '(rest', new_entries) ← duplicate_splitter rest ty;
      Return (element' :: rest', (from_option (fun c => [c]) [] clone ++ new_entries)%list)
  end.

(** ** The tokenizer's queries

    [CiscoConfParse] is an external collaborator.  The configuration is the
    list of its top-level lines; a pattern anchored with [^] selects
    top-level lines by prefix, and a child pattern is searched in the text of
    the direct children. *)

Module CiscoConfParse.

Definition find_objects (config : list IOSCfgLine) (linespec : string) : list IOSCfgLine :=
  List.filter (fun l => PyStr.startswith linespec (text l)) config.

Definition has_child (childspec : string) (l : IOSCfgLine) : bool :=
  existsb (fun c => PyStr.contains childspec (text c)) (children l).

Definition find_objects_wo_child (config : list IOSCfgLine) (parentspec childspec : string)
  : list IOSCfgLine :=
  List.filter (fun l => negb (has_child childspec l)) (find_objects config parentspec).

Definition find_objects_w_child (config : list IOSCfgLine) (parentspec childspec : string)
  : list IOSCfgLine :=
  List.filter (has_child childspec) (find_objects config parentspec).

End CiscoConfParse.

(** ** The Dashboard

    The Meraki Dashboard is an external collaborator too.  The model keeps
    what was created, hands out fresh ids and answers a creation call with
    the id and the name it was given. *)

Record policy_object : Type := mkPolicyObject {
  po_id : string; po_name : string; po_category : string;
  po_type : string; po_value : string
}.

Record policy_object_group : Type := mkPolicyGroup {
  pg_id : string; pg_name : string; pg_objectIds : list string
}.

Record dashboard : Type := mkDashboard {
  next_id : Z;
  policy_objects : list policy_object;
  policy_object_groups : list policy_object_group
}.

Definition empty_dashboard : dashboard := mkDashboard 1 [] [].

(** [createOrganizationPolicyObject]: the answer is [(id, name)]. *)
Definition createOrganizationPolicyObject (d : dashboard)
    (name category type value : string) : (string * string) * dashboard :=
  let id := PyStr.of_int (next_id d) in
  ((id, name),
   mkDashboard (next_id d + 1)
     (policy_objects d ++ [mkPolicyObject id name category type value])
     (policy_object_groups d)).

(** [createOrganizationPolicyObjectsGroup]: the answer is [(id, name)]. *)
Definition createOrganizationPolicyObjectsGroup (d : dashboard)
    (name : string) (objectIds : list string) : (string * string) * dashboard :=
  let id := PyStr.of_int (next_id d) in
  ((id, name),
   mkDashboard (next_id d + 1) (policy_objects d)
     (policy_object_groups d ++ [mkPolicyGroup id name objectIds])).

(** ** [create_objects] *)

(** What [create_objects] works on: the tables, the Dashboard and the
    contents of [unprocessed_objects.txt]. *)
Record world : Type := mkWorld {
  tbl : tables;
  dash : dashboard;
  unprocessed_objects : string
}.

Definition set_objects (f : gmap string string -> gmap string string) (t : tables) : tables :=
  mkTables (f (objects t)) (fqdn_objects t) (range_objects t) (object_groups t)
    (range_object_groups t) (fqdn_object_groups t) (group_of_groups t)
    (service_objects t) (service_object_groups t) (service_group_of_groups t).
Definition set_fqdn_objects (f : gmap string string -> gmap string string) (t : tables) : tables :=
  mkTables (objects t) (f (fqdn_objects t)) (range_objects t) (object_groups t)
    (range_object_groups t) (fqdn_object_groups t) (group_of_groups t)
    (service_objects t) (service_object_groups t) (service_group_of_groups t).
Definition set_range_objects (f : gmap string string -> gmap string string) (t : tables) : tables :=
  mkTables (objects t) (fqdn_objects t) (f (range_objects t)) (object_groups t)
    (range_object_groups t) (fqdn_object_groups t) (group_of_groups t)
    (service_objects t) (service_object_groups t) (service_group_of_groups t).
Definition set_object_groups (f : gmap string string -> gmap string string) (t : tables) : tables :=
  mkTables (objects t) (fqdn_objects t) (range_objects t) (f (object_groups t))
    (range_object_groups t) (fqdn_object_groups t) (group_of_groups t)
    (service_objects t) (service_object_groups t) (service_group_of_groups t).
Definition set_range_object_groups
    (f : gmap string (list string * list string) -> gmap string (list string * list string))
    (t : tables) : tables :=
  mkTables (objects t) (fqdn_objects t) (range_objects t) (object_groups t)
    (f (range_object_groups t)) (fqdn_object_groups t) (group_of_groups t)
    (service_objects t) (service_object_groups t) (service_group_of_groups t).
Definition set_fqdn_object_groups (f : gmap string string -> gmap string string) (t : tables) : tables :=
  mkTables (objects t) (fqdn_objects t) (range_objects t) (object_groups t)
    (range_object_groups t) (f (fqdn_object_groups t)) (group_of_groups t)
    (service_objects t) (service_object_groups t) (service_group_of_groups t).
Definition set_group_of_groups
    (f : gmap string (list string * list string) -> gmap string (list string * list string))
    (t : tables) : tables :=
  mkTables (objects t) (fqdn_objects t) (range_objects t) (object_groups t)
    (range_object_groups t) (fqdn_object_groups t) (f (group_of_groups t))
    (service_objects t) (service_object_groups t) (service_group_of_groups t).
Definition set_service_objects (f : gmap string service -> gmap string service) (t : tables) : tables :=
  mkTables (objects t) (fqdn_objects t) (range_objects t) (object_groups t)
    (range_object_groups t) (fqdn_object_groups t) (group_of_groups t)
    (f (service_objects t)) (service_object_groups t) (service_group_of_groups t).
Definition set_service_object_groups
    (f : gmap string (list service) -> gmap string (list service)) (t : tables) : tables :=
  mkTables (objects t) (fqdn_objects t) (range_objects t) (object_groups t)
    (range_object_groups t) (fqdn_object_groups t) (group_of_groups t)
    (service_objects t) (f (service_object_groups t)) (service_group_of_groups t).
Definition set_service_group_of_groups
    (f : gmap string (list service) -> gmap string (list service)) (t : tables) : tables :=
  mkTables (objects t) (fqdn_objects t) (range_objects t) (object_groups t)
    (range_object_groups t) (fqdn_object_groups t) (group_of_groups t)
    (service_objects t) (service_object_groups t) (f (service_group_of_groups t)).

(** [d[k]] on a key of [mx_object] that may be unset. *)
Definition getkey {A} (k : string) (o : option A) : outcome A :=
  match o with
  | Some v => Return v
  | None => Raise (KeyError k)
  end.

(** The start of [create_objects]: the tables adopt what the organization
    already holds. *)
Definition adopt_policy_object (t : tables) (obj : policy_object) : tables :=
  if String.eqb (po_type obj) "cidr" then set_objects <[po_name obj := po_id obj]> t
  else if String.eqb (po_type obj) "fqdn" then set_fqdn_objects <[po_name obj := po_id obj]> t
  else t.

Definition dict_values {V} (d : gmap string V) : list V := (map_to_list d).*2.

Definition adopt_policy_object_group (t : tables) (obj : policy_object_group) : tables :=
  if PyStr.contains "__range__" (pg_name obj)
  then set_range_objects <[pg_name obj := pg_id obj]> t
  else if forallb (fun ele => bool_decide (ele ∈ dict_values (objects t))) (pg_objectIds obj)
  then set_object_groups <[pg_name obj := pg_id obj]> t
  else set_fqdn_object_groups <[pg_name obj := pg_id obj]> t.

Definition bootstrap (t : tables) (d : dashboard) : tables :=
  foldl adopt_policy_object_group
    (foldl adopt_policy_object t (policy_objects d)) (policy_object_groups d).

(** The creation calls for the CIDRs of a range: object [idx] is named
    [name__range__idx]. *)
Fixpoint create_range_objects (d : dashboard) (name category type : string)
    (idx : Z) (ranges : list string) : list string * dashboard :=
  match ranges with
  | [] => ([], d)
  | ip :: rest =>
      let '((id, _), d1) :=
        createOrganizationPolicyObject d (name +:+ "__range__" +:+ PyStr.of_int idx)
          category type ip in
      let '(ids, d2) := create_range_objects d1 name category type (idx + 1) rest in
      (id :: ids, d2)
  end.

(** Pass 1, one [address-object ipv4] stanza. *)
Definition ipv4_object_step (w : world) (element : IOSCfgLine) : outcome world :=
  '(r, fp) ← build_mx_object (tbl w) OT_object element (unprocessed_objects w);
  match r with
  | None => Return (mkWorld (tbl w) (dash w) fp)
  | Some m =>
      match mx_range m with
      | Some ranges =>
          category ← getkey "category" (mx_category m);
          type ← getkey "type" (mx_type m);
          let '(object_ids, d) :=
            create_range_objects (dash w) (mx_name m) category type 0 ranges in
          match object_ids with
          | [] => Return (mkWorld (tbl w) d fp)
          | _ =>
              let '((id, name), d') :=
                createOrganizationPolicyObjectsGroup d (mx_name m +:+ "__range__") object_ids in
              Return (mkWorld (set_range_objects <[name := id]> (tbl w)) d' fp)
          end
      | None =>
          category ← getkey "category" (mx_category m);
          type ← getkey "type" (mx_type m);
          cidr ← getkey "cidr" (mx_cidr m);
          let '((id, name), d) :=
            createOrganizationPolicyObject (dash w) (mx_name m) category type cidr in
          Return (mkWorld (set_objects <[name := id]> (tbl w)) d fp)
      end
  end.

(** Pass 2, one [address-object fqdn] stanza.  [build_mx_object] returns a
    dictionary of type ['fqdn'] or nothing, so the creation call is always
    made. *)
Definition fqdn_object_step (w : world) (element : IOSCfgLine) : outcome world :=
  '(r, fp) ← build_mx_object (tbl w) OT_fqdn element (unprocessed_objects w);
  match r with
  | None => Return (mkWorld (tbl w) (dash w) fp)
  | Some m =>
      category ← getkey "category" (mx_category m);
      type ← getkey "type" (mx_type m);
      fqdn ← getkey "fqdn" (mx_fqdn m);
      let '((id, name), d) :=
        createOrganizationPolicyObject (dash w) (mx_name m) category type fqdn in
      Return (mkWorld (set_fqdn_objects <[name := id]> (tbl w)) d fp)
  end.

Definition no_valid_entries (name : string) : string :=
  dquote +:+ name +:+ dquote +:+ " contains no valid entries".

(** Pass 3, one [address-group ipv4] stanza without nested group. *)
Definition ipv4_group_step (w : world) (element : IOSCfgLine) : outcome world :=
  '(r, fp) ← build_mx_object (tbl w) OT_group element (unprocessed_objects w);
  match r with
  | None => Return (mkWorld (tbl w) (dash w) fp)
  | Some m =>
      match mx_rangeIds m with
      | _ :: _ =>
          Return (mkWorld
            (set_range_object_groups
               <[mx_name m +:+ "__range__" := (mx_objectIds m, mx_rangeIds m)]> (tbl w))
            (dash w) fp)
      | [] =>
          match mx_objectIds m with
          | _ :: _ =>
              let '((id, name), d) :=
                createOrganizationPolicyObjectsGroup (dash w) (mx_name m) (mx_objectIds m) in
              Return (mkWorld (set_object_groups <[name := id]> (tbl w)) d fp)
          | [] =>
              Return (mkWorld (tbl w) (dash w)
                (fp +:+ journal_record ("address-group ipv4 " +:+ mx_name m)
                          (no_valid_entries (mx_name m))))
          end
      end
  end.

(** Pass 4, one [address-group ipv6] stanza. *)
Definition ipv6_group_step (w : world) (element : IOSCfgLine) : outcome world :=
  '(r, fp) ← build_mx_object (tbl w) OT_group_ipv6 element (unprocessed_objects w);
  match r with
  | None => Return (mkWorld (tbl w) (dash w) fp)
  | Some m =>
      match mx_objectFQDNs m with
      | [] => Return (mkWorld (tbl w) (dash w) fp)
      | _ :: _ =>
          match mx_objectIds m with
          | _ :: _ =>
              let '(t1, d1) :=
                if negb (PyStr.haskey (fqdn_object_groups (tbl w))
                           (mx_name m +:+ "__fqdn__split"))
                then
                  let '((id, name), d) :=
                    createOrganizationPolicyObjectsGroup (dash w)
                      (mx_name m +:+ "__fqdn__split") (mx_objectFQDNs m) in
                  (set_fqdn_object_groups <[name := id]> (tbl w), d)
                else (tbl w, dash w) in
              let '(t2, d2) :=
                if negb (PyStr.haskey (object_groups t1) (mx_name m +:+ "__ipv4__split"))
                then
                  let '((id, name), d) :=
                    createOrganizationPolicyObjectsGroup d1
                      (mx_name m +:+ "__ipv4__split") (mx_objectIds m) in
                  (set_object_groups <[name := id]> t1, d)
                else (t1, d1) in
              Return (mkWorld t2 d2 fp)
          | [] =>
              match (mx_objectIds m ++ mx_objectFQDNs m)%list with
              | _ :: _ =>
                  let '((id, name), d) :=
                    createOrganizationPolicyObjectsGroup (dash w) (mx_name m)
                      (mx_objectIds m ++ mx_objectFQDNs m) in
                  Return (mkWorld (set_fqdn_object_groups <[name := id]> (tbl w)) d fp)
              | [] =>
                  Return (mkWorld (tbl w) (dash w)
                    (fp +:+ journal_record ("address-group ipv6 " +:+ mx_name m)
                              (no_valid_entries (mx_name m))))
              end
          end
      end
  end.

(** Pass 5, one [address-group ipv4] stanza with a nested group. *)
Definition nested_group_step (w : world) (element : IOSCfgLine) : outcome world :=
  '(r, fp) ← build_mx_object (tbl w) OT_group element (unprocessed_objects w);
  match r with
  | None => Return (mkWorld (tbl w) (dash w) fp)
  | Some m =>
      match mx_group_of_groups m with
      | _ :: _ =>
          if negb (PyStr.haskey (group_of_groups (tbl w)) (mx_name m))
          then Return (mkWorld
                 (set_group_of_groups
                    <[mx_name m := (mx_objectIds m, mx_group_of_groups m)]> (tbl w))
                 (dash w) fp)
          else Return (mkWorld (tbl w) (dash w) fp)
      | [] => Return (mkWorld (tbl w) (dash w) fp)
      end
  end.

(** Pass 6, one [service-object] line. *)
Definition service_object_step (w : world) (element : IOSCfgLine) : outcome world :=
  '(r, fp) ← build_mx_object (tbl w) OT_service element (unprocessed_objects w);
  match r with
  | None => Return (mkWorld (tbl w) (dash w) fp)
  | Some m =>
      protocol ← getkey "protocol" (mx_protocol m);
      let port := default "N/A" (mx_port m) in
      Return (mkWorld (set_service_objects <[mx_name m := (protocol, port)]> (tbl w))
                (dash w) fp)
  end.

(** Pass 6, one [service-group] stanza without nested group. *)
Definition service_group_step (w : world) (element : IOSCfgLine) : outcome world :=
  '(r, fp) ← build_mx_object (tbl w) OT_service_group element (unprocessed_objects w);
  match r with
  | None => Return (mkWorld (tbl w) (dash w) fp)
  | Some m =>
      Return (mkWorld
        (set_service_object_groups <[mx_name m := mx_service_objects m]> (tbl w))
        (dash w) fp)
  end.

(** Pass 6, one [service-group] stanza with a nested group. *)
Definition nested_service_group_step (w : world) (element : IOSCfgLine) : outcome world :=
  '(r, fp) ← build_mx_object (tbl w) OT_service_group element (unprocessed_objects w);
  match r with
  | None => Return (mkWorld (tbl w) (dash w) fp)
  | Some m =>
      match mx_nested_services m with
      | _ :: _ =>
          if negb (PyStr.haskey (service_group_of_groups (tbl w)) (mx_name m))
          then Return (mkWorld
                 (set_service_group_of_groups
                    <[mx_name m := (mx_service_objects m ++ mx_nested_services m)%list]> (tbl w))
                 (dash w) fp)
          else Return (mkWorld (tbl w) (dash w) fp)
      | [] => Return (mkWorld (tbl w) (dash w) fp)
      end
  end.

(** A pass over a category that goes through the splitter first. *)
Definition split_pass (ty : splitter_type) (step : world -> IOSCfgLine -> outcome world)
    (selected : list IOSCfgLine) (w : world) : outcome world :=
  '(selected', new_entries) ← duplicate_splitter selected ty;
  foldM step (selected' ++ new_entries)%list w.

(** [create_objects(org_id, parse)]: the bootstrap, then the passes in their
    order.  The journal is opened for writing, so it starts empty. *)
Definition create_objects (t : tables) (d : dashboard) (config : list IOSCfgLine)
  : outcome world :=
  let w := mkWorld (bootstrap t d) d EmptyString in
  w ← split_pass ST_ipv4 ipv4_object_step
        (CiscoConfParse.find_objects config "address-object ipv4") w;
  w ← split_pass ST_fqdn fqdn_object_step
        (CiscoConfParse.find_objects config "address-object fqdn") w;
  w ← split_pass ST_ipv4_group ipv4_group_step
        (CiscoConfParse.find_objects_wo_child config "address-group ipv4" "address-group ipv4") w;
  w ← split_pass ST_ipv6_group ipv6_group_step
        (CiscoConfParse.find_objects_wo_child config "address-group ipv6" "address-group ipv6") w;
  w ← foldM nested_group_step
        (CiscoConfParse.find_objects_w_child config "address-group ipv4" "address-group ipv4") w;
  w ← foldM service_object_step (CiscoConfParse.find_objects config "service-object") w;
  w ← foldM service_group_step
        (CiscoConfParse.find_objects_wo_child config "service-group" "service-group") w;
  foldM nested_service_group_step
    (CiscoConfParse.find_objects_w_child config "service-group" "service-group") w.

(** ** The rule parser *)

(** A value of the [src] or [dst] key: a string or a list of strings. *)
Inductive pyval : Type :=
| Str (s : string)
| StrList (l : list string).

(** The dictionary [acl]; an unset key is [None]. *)
Record acl : Type := mkAcl {
  acl_src_zone : option string;
  acl_dst_zone : option string;
  acl_action : option string;
  acl_comment : option string;
  acl_src : option pyval;
  acl_src_port : option string;
  acl_dst : option pyval;
  acl_services : option (list service)
}.

(** [k in acl] for an optional key. *)
Definition isset {A} (o : option A) : bool :=
  match o with
  | Some _ => true
  | None => false
  end.

Definition empty_acl : acl := mkAcl None None None None None None None None.

Definition set_src_zone (v : string) (a : acl) : acl :=
  mkAcl (Some v) (acl_dst_zone a) (acl_action a) (acl_comment a) (acl_src a)
        (acl_src_port a) (acl_dst a) (acl_services a).
Definition set_dst_zone (v : string) (a : acl) : acl :=
  mkAcl (acl_src_zone a) (Some v) (acl_action a) (acl_comment a) (acl_src a)
        (acl_src_port a) (acl_dst a) (acl_services a).
Definition set_action (v : string) (a : acl) : acl :=
  mkAcl (acl_src_zone a) (acl_dst_zone a) (Some v) (acl_comment a) (acl_src a)
        (acl_src_port a) (acl_dst a) (acl_services a).
Definition set_comment (v : string) (a : acl) : acl :=
  mkAcl (acl_src_zone a) (acl_dst_zone a) (acl_action a) (Some v) (acl_src a)
        (acl_src_port a) (acl_dst a) (acl_services a).
Definition set_src (v : pyval) (a : acl) : acl :=
  mkAcl (acl_src_zone a) (acl_dst_zone a) (acl_action a) (acl_comment a) (Some v)
        (acl_src_port a) (acl_dst a) (acl_services a).
Definition set_src_port (v : string) (a : acl) : acl :=
  mkAcl (acl_src_zone a) (acl_dst_zone a) (acl_action a) (acl_comment a) (acl_src a)
        (Some v) (acl_dst a) (acl_services a).
Definition set_dst (v : pyval) (a : acl) : acl :=
  mkAcl (acl_src_zone a) (acl_dst_zone a) (acl_action a) (acl_comment a) (acl_src a)
        (acl_src_port a) (Some v) (acl_services a).
Definition set_services (v : list service) (a : acl) : acl :=
  mkAcl (acl_src_zone a) (acl_dst_zone a) (acl_action a) (acl_comment a) (acl_src a)
        (acl_src_port a) (acl_dst a) (Some v).

(** [f"OBJ[{id}]"] and [f"GRP[{id}]"] *)
Definition OBJ (id : string) : string := "OBJ[" +:+ id +:+ "]".
Definition GRP (id : string) : string := "GRP[" +:+ id +:+ "]".

(** [combine_like_services(service_objs)]: the loop keeps [result],
    [tcp_list], [udp_list] and [icmp_list]. *)
Record combine_state : Type := mkCombine {
  cs_result : list service;
  cs_tcp_list : list string;
  cs_udp_list : list string;
  cs_icmp_list : option service
}.

Definition combine_step (st : combine_state) (s : service) : combine_state :=
  if PyStr.contains "-" s.2 then
    mkCombine (cs_result st ++ [s]) (cs_tcp_list st) (cs_udp_list st) (cs_icmp_list st)
  else if String.eqb s.1 "TCP" then
    if bool_decide (s.2 ∈ cs_tcp_list st) then st
    else mkCombine (cs_result st) (cs_tcp_list st ++ [s.2]) (cs_udp_list st) (cs_icmp_list st)
  else if String.eqb s.1 "UDP" then
    if bool_decide (s.2 ∈ cs_udp_list st) then st
    else mkCombine (cs_result st) (cs_tcp_list st) (cs_udp_list st ++ [s.2]) (cs_icmp_list st)
  else if String.eqb s.1 "ICMP" || String.eqb s.1 "ICMPV6" then
    mkCombine (cs_result st) (cs_tcp_list st) (cs_udp_list st) (Some (s.1, "N/A"))
  else st.

Definition combine_like_services (service_objs : list service) : list service :=
  let st := foldl combine_step (mkCombine [] [] [] None) service_objs in
  let result := cs_result st in
  let result :=
    match cs_tcp_list st with
    | [] => result
    | l => (result ++ [("TCP", PyStr.join "," l)])%list
    end in
  let result :=
    match cs_udp_list st with
    | [] => result
    | l => (result ++ [("UDP", PyStr.join "," l)])%list
    end in
  match cs_icmp_list st with
  | None => result
  | Some icmp => (result ++ [icmp])%list
  end.

(** [source_parser(src_address, acl)]: the message returned and [acl] as the
    call leaves it. *)
Definition source_parser (t : tables) (src_address : string) (a : acl)
  : outcome (string * acl) :=
  if PyStr.contains "any" src_address then
    Return ("Success", set_src (Str "any") a)
  else if PyStr.contains "name" src_address then
    let src_obj := PyStr.strip (PyStr.replace "name" EmptyString src_address) in
    let src_obj := sanitize_quote_dot_colon_star src_obj in
    if PyStr.haskey (objects t) src_obj then
      obj_id ← PyStr.getitem (objects t) src_obj;
      Return ("Success", set_src (Str (OBJ obj_id)) a)
    else if PyStr.haskey (range_objects t) (src_obj +:+ "__range__") then
      obj_id ← PyStr.getitem (range_objects t) (src_obj +:+ "__range__");
      Return ("Success", set_src (Str (GRP obj_id)) a)
    else if PyStr.haskey (fqdn_objects t) src_obj then
      Return ("FQDN Source Address not supported in Meraki", a)
    else Return ("No valid Source Object exists", a)
  else if PyStr.contains "group" src_address then
    let src_obj_group := PyStr.strip (PyStr.replace "group" EmptyString src_address) in
    let src_obj_group := sanitize_quote_dot_colon_star src_obj_group in
    if PyStr.haskey (object_groups t) src_obj_group then
      obj_id ← PyStr.getitem (object_groups t) src_obj_group;
      Return ("Success", set_src (Str (GRP obj_id)) a)
    else if PyStr.haskey (range_object_groups t) (src_obj_group +:+ "__range__") then
      obj_list ← PyStr.getitem (range_object_groups t) (src_obj_group +:+ "__range__");
      Return ("Success", set_src (StrList (map OBJ obj_list.1 ++ map GRP obj_list.2)) a)
    else if PyStr.haskey (fqdn_object_groups t) (src_obj_group +:+ "__fqdn__split") then
      g1 ← PyStr.getitem (fqdn_object_groups t) (src_obj_group +:+ "__fqdn__split");
      g2 ← PyStr.getitem (object_groups t) (src_obj_group +:+ "__ipv4__split");
      Return ("Success", set_src (StrList (map GRP [g1; g2])) a)
    else if PyStr.haskey (group_of_groups t) src_obj_group then
      obj_list ← PyStr.getitem (group_of_groups t) src_obj_group;
      Return ("Success", set_src (StrList (map OBJ obj_list.1 ++ map GRP obj_list.2)) a)
    else if PyStr.haskey (fqdn_object_groups t) src_obj_group then
      Return ("FQDN Source Address Group not supported in Meraki", a)
    else
      Return ("No valid Source Object Group exists (group contains no valid objects)", a)
  else Return ("Success", a).

(** [destination_parser(dst_address, acl)].  In the range case the program
    indexes the string [dst_obj_group] with a string, which raises
    [TypeError]. *)
Definition destination_parser (t : tables) (dst_address : string) (a : acl)
  : outcome (string * acl) :=
  if PyStr.contains "any" dst_address then
    Return ("Success", set_dst (Str "any") a)
  else if PyStr.contains "name" dst_address then
    let dst_obj := PyStr.strip (PyStr.replace "name" EmptyString dst_address) in
    let dst_obj := sanitize_quote_dot_colon_star dst_obj in
    if PyStr.haskey (objects t) dst_obj then
      obj_id ← PyStr.getitem (objects t) dst_obj;
      Return ("Success", set_dst (Str (OBJ obj_id)) a)
    else if PyStr.haskey (fqdn_objects t) dst_obj then
      obj_id ← PyStr.getitem (fqdn_objects t) dst_obj;
      Return ("Success", set_dst (Str (OBJ obj_id)) a)
    else if PyStr.haskey (range_objects t) (dst_obj +:+ "__range__") then
      obj_id ← PyStr.getitem (range_objects t) (dst_obj +:+ "__range__");
      Return ("Success", set_dst (Str (GRP obj_id)) a)
    else Return ("No valid Destination Object exists", a)
  else if PyStr.contains "group" dst_address then
    let dst_obj_group := PyStr.strip (PyStr.replace "group" EmptyString dst_address) in
    let dst_obj_group := sanitize_quote_dot_colon_star dst_obj_group in
    if PyStr.haskey (object_groups t) dst_obj_group then
      obj_id ← PyStr.getitem (object_groups t) dst_obj_group;
      Return ("Success", set_dst (Str (GRP obj_id)) a)
    else if PyStr.haskey (fqdn_object_groups t) dst_obj_group then
      obj_id ← PyStr.getitem (fqdn_object_groups t) dst_obj_group;
      Return ("Success", set_dst (Str (GRP obj_id)) a)
    else if PyStr.haskey (range_objects t) (dst_obj_group +:+ "__range__") then
      Raise TypeError
    else if PyStr.haskey (fqdn_object_groups t) (dst_obj_group +:+ "__fqdn__split") then
      g1 ← PyStr.getitem (fqdn_object_groups t) (dst_obj_group +:+ "__fqdn__split");
      g2 ← PyStr.getitem (object_groups t) (dst_obj_group +:+ "__ipv4__split");
      Return ("Success", set_dst (StrList (map GRP [g1; g2])) a)
    else if PyStr.haskey (group_of_groups t) dst_obj_group then
      obj_list ← PyStr.getitem (group_of_groups t) dst_obj_group;
      Return ("Success", set_dst (StrList (map OBJ obj_list.1 ++ map GRP obj_list.2)) a)
    else
      Return ("No valid Destination Object Group exists (group contains no valid objects)", a)
  else Return ("Success", a).

Definition no_service_object : string :=
  "No valid Service Object found in local list (unsupported protocol, no port numbers, etc.)".
Definition no_service_group : string :=
  "No valid Service Object Group found in local list (no valid service objects present)".

(** [service_parser(service, acl)]: the any case is an [if] of its own, so
    the name and group cases are tried after it. *)
Definition service_parser (t : tables) (service : string) (a : acl)
  : outcome (string * acl) :=
  let services : list (string * string) :=
    if PyStr.contains "any" service then [("any", "any")] else [] in
  if PyStr.contains "name" service then
    let service_obj := PyStr.strip (PyStr.replace "name" EmptyString service) in
    let service_obj := PyStr.replace dquote EmptyString service_obj in
    if PyStr.haskey (service_objects t) service_obj then
      s ← PyStr.getitem (service_objects t) service_obj;
      Return ("Success", set_services (services ++ [s]) a)
    else Return (no_service_object, set_services services a)
  else if PyStr.contains "group" service then
    let service_obj_group := PyStr.strip (PyStr.replace "group" EmptyString service) in
    let service_obj_group := PyStr.replace dquote EmptyString service_obj_group in
    if PyStr.haskey (service_object_groups t) service_obj_group then
      service_objs ← PyStr.getitem (service_object_groups t) service_obj_group;
      Return ("Success", set_services (services ++ combine_like_services service_objs) a)
    else if PyStr.haskey (service_group_of_groups t) service_obj_group then
      service_groups ← PyStr.getitem (service_group_of_groups t) service_obj_group;
      Return ("Success", set_services (services ++ combine_like_services service_groups) a)
    else Return (no_service_group, set_services services a)
  else Return ("Success", set_services services a).

(** *** [re.match(ACL_RULE_REGEX, line)]

    The pattern is a fixed prefix with two words, followed by four optional
    groups that can only be taken in their order; nothing after an optional
    group is mandatory, so the greedy choice of the engine is never undone
    and the match is the deterministic scan below.  [\w] is taken on ASCII
    text: letters, digits and the underscore. *)

Module Regex.

Definition is_word (c : ascii) : bool :=
  let n := nat_of_ascii c in
  ((48 <=? n)%nat && (n <=? 57)%nat) || ((65 <=? n)%nat && (n <=? 90)%nat)
  || ((97 <=? n)%nat && (n <=? 122)%nat) || (n =? 95)%nat.

(** The class [[\w|\-|\.]]: a word character, [|], [-] or [.]. *)
Definition is_ref_char (c : ascii) : bool :=
  is_word c || Ascii.eqb c "|" || Ascii.eqb c "-" || Ascii.eqb c ".".

Definition is_not_quote (c : ascii) : bool := negb (Ascii.eqb c dquote_char).

(** The longest prefix of characters satisfying [p], and what follows it. *)
Fixpoint span (p : ascii -> bool) (s : string) : string * string :=
  match s with
  | EmptyString => (EmptyString, EmptyString)
  | String c s' =>
      if p c then let '(w, r) := span p s' in (String c w, r)
      else (EmptyString, s)
  end.

(** [s] without the literal prefix [p], if it starts with it. *)
Fixpoint literal (p s : string) : option string :=
  match p, s with
  | EmptyString, _ => Some s
  | String a p', String b s' => if Ascii.eqb a b then literal p' s' else None
  | String _ _, EmptyString => None
  end.

(** One or more characters of the class [p]: the run and the rest. *)
Definition plus (p : ascii -> bool) (s : string) : option (string * string) :=
  match span p s with
  | (EmptyString, _) => None
  | (w, r) => Some (w, r)
  end.

(** The alternative of a quoted reference: the keyword, a space, and between
    two double quotes one or more characters other than a double quote. *)
Definition quoted_ref (kw s : string) : option (string * string) :=
  r ← literal (kw +:+ " " +:+ dquote) s;
  '(w, r) ← plus is_not_quote r;
  r ← literal dquote r;
  Some (kw +:+ " " +:+ dquote +:+ w +:+ dquote, r).

(** The alternative of a bare reference: the keyword, a space, and one or
    more characters of the class. *)
Definition bare_ref (kw s : string) : option (string * string) :=
  r ← literal (kw +:+ " ") s;
  '(w, r) ← plus is_ref_char r;
  Some (kw +:+ " " +:+ w, r).

(** The four alternatives of a reference, in their order. *)
Definition ref (s : string) : option (string * string) :=
  match quoted_ref "name" s with
  | Some x => Some x
  | None =>
      match bare_ref "name" s with
      | Some x => Some x
      | None =>
          match quoted_ref "group" s with
          | Some x => Some x
          | None => bare_ref "group" s
          end
      end
  end.

(** An optional group [(?:lit(body))?]: its capture, if it matches, and the
    text left. *)
Definition optional (lit : string) (body : string -> option (string * string))
    (s : string) : option string * string :=
  match literal lit s ≫= body with
  | Some (w, r) => (Some w, r)
  | None => (None, s)
  end.

(** The six groups of a match of [ACL_RULE_REGEX]. *)
Record groups : Type := mkGroups {
  g_src_zone : string;
  g_dst_zone : string;
  g_action : option string;
  g_source_address : option string;
  g_service : option string;
  g_destination_address : option string
}.

Definition match_acl_rule (line : string) : option groups :=
  r ← literal "access-rule ipv4 from " line;
  '(src_zone, r) ← plus is_word r;
  r ← literal " to " r;
  '(dst_zone, r) ← plus is_word r;
  let '(action, r) := optional " action " (plus is_word) r in
  let '(source_address, r) := optional " source address " ref r in
  let '(service, r) := optional " service " ref r in
  let '(destination_address, _) := optional " destination address " ref r in
  Some (mkGroups src_zone dst_zone action source_address service destination_address).

End Regex.

(** A step of the parser either goes on with [acl] or leaves with a
    message. *)
Inductive step_result : Type :=
| Continue (a : acl)
| Leave (msg : string).

(** The parsers are called, and a result other than ['Success'] is returned
    at once. *)
Definition call_parser (r : outcome (string * acl)) : outcome step_result :=
  '(msg, a) ← r;
  if String.eqb msg "Success" then Return (Continue a) else Return (Leave msg).

Definition and_then (r : outcome step_result) (k : acl -> outcome step_result)
  : outcome step_result :=
  x ← r;
  match x with
  | Continue a => k a
  | Leave msg => Return (Leave msg)
  end.

(** [regex_match(line, acl)].  A captured zone or action is never empty. *)
Definition regex_match (t : tables) (line : string) (a : acl) : outcome step_result :=
  match Regex.match_acl_rule line with
  | None => Return (Continue a)
  | Some g =>
      let a := set_src_zone (Regex.g_src_zone g) a in
      let a := set_dst_zone (Regex.g_dst_zone g) a in
      let a := match Regex.g_action g with Some v => set_action v a | None => a end in
      and_then
        (match Regex.g_source_address g with
         | Some v => call_parser (source_parser t v a)
         | None => Return (Continue a)
         end)
        (fun a =>
      and_then
        (match Regex.g_destination_address g with
         | Some v => call_parser (destination_parser t v a)
         | None => Return (Continue a)
         end)
        (fun a =>
        match Regex.g_service g with
        | Some v => call_parser (service_parser t v a)
        | None => Return (Continue a)
        end))
  end.

(** The body of the loop of [parse_line] over the children of a rule. *)
Definition parse_child (t : tables) (a : acl) (child : IOSCfgLine) : outcome step_result :=
  let content := PyStr.strip (text child) in
  if PyStr.startswith "no enable" content then
    Return (Leave "Inactive rules not allowed in Meraki")
  else
    let a :=
      if negb (isset (acl_src_zone a)) && PyStr.startswith "from" content
      then set_src_zone (PyStr.strip (PyStr.replace "from" EmptyString content)) a else a in
    let a :=
      if negb (isset (acl_dst_zone a)) && PyStr.startswith "to" content
      then set_dst_zone (PyStr.strip (PyStr.replace "to" EmptyString content)) a else a in
    let a :=
      if negb (isset (acl_action a)) && PyStr.startswith "action" content
      then set_action (PyStr.strip (PyStr.replace "action" EmptyString content)) a else a in
    let a :=
      if PyStr.startswith "comment" content
      then set_comment
             (PyStr.replace dquote EmptyString (PyStr.strip (PyStr.replace "comment" EmptyString content))) a
      else a in
    and_then
      (if negb (isset (acl_src a)) && PyStr.startswith "source address" content
       then call_parser
              (source_parser t (PyStr.strip (PyStr.replace "source address" EmptyString content)) a)
       else Return (Continue a))
      (fun a =>
    let a :=
      if PyStr.startswith "source port" content
      then if String.eqb (PyStr.strip (PyStr.replace "source port" EmptyString content)) "any"
           then set_src_port "any" a else a
      else a in
    and_then
      (if negb (isset (acl_dst a)) && PyStr.startswith "destination address" content
       then call_parser
              (destination_parser t
                 (PyStr.strip (PyStr.replace "destination address" EmptyString content)) a)
       else Return (Continue a))
      (fun a =>
      if negb (isset (acl_services a)) && PyStr.startswith "service" content
      then call_parser
             (service_parser t (PyStr.strip (PyStr.replace "service" EmptyString content)) a)
      else Return (Continue a))).

Fixpoint parse_children (t : tables) (a : acl) (l : list IOSCfgLine) : outcome step_result :=
  match l with
  | [] => Return (Continue a)
  | child :: rest => and_then (parse_child t a child) (fun a => parse_children t a rest)
  end.

(** [parse_line] up to the comment "Make sure all components are present":
    the header, then the children. *)
Definition parse_fields (t : tables) (line : IOSCfgLine) : outcome step_result :=
  and_then (regex_match t (text line) empty_acl)
    (fun a =>
       match children line with
       | [] => Return (Leave "No valid line entries in rule, skipping...")
       | l => parse_children t a l
       end).

(** What [parse_line] returns: the dictionary or a message. *)
Inductive line_result : Type :=
| Dict (a : acl)
| Msg (s : string).

Definition any_any_any_any : string :=
  "Any Any Any Any Rule placed in mapping file. Skipping".

(** The end of [parse_line]: the check of the keys, and the rule that is any
    in its three slots, which goes to [default_zone_map]. *)
Definition finish_line (default_zone_map : gmap string (gmap string string)) (a : acl)
  : outcome (line_result * gmap string (gmap string string)) :=
  match acl_action a, acl_src a, acl_dst a, acl_services a, acl_src_zone a, acl_dst_zone a with
  | Some action, Some src, Some dst, Some services, Some src_zone, Some dst_zone =>
      let is_any (v : pyval) :=
        match v with Str s => String.eqb s "any" | StrList _ => false end in
      any3 ←
        (if is_any src && is_any dst then
           s0 ← PyStr.index services 0;
           Return (String.eqb s0.1 "any" && String.eqb s0.2 "any")
         else Return false);
      if (any3 : bool) then
        match default_zone_map !! src_zone with
        | Some row =>
            if PyStr.haskey default_zone_map dst_zone then
              let v := if String.eqb action "allow" then "allow" else "deny" in
              Return (Msg any_any_any_any, <[src_zone := <[dst_zone := v]> row]> default_zone_map)
            else Return (Msg any_any_any_any, default_zone_map)
        | None => Return (Msg any_any_any_any, default_zone_map)
        end
      else Return (Dict a, default_zone_map)
  | _, _, _, _, _, _ => Return (Msg "Invalid line", default_zone_map)
  end.

(** [parse_line(line)] *)
Definition parse_line (t : tables) (default_zone_map : gmap string (gmap string string))
    (line : IOSCfgLine) : outcome (line_result * gmap string (gmap string string)) :=
  r ← parse_fields t line;
  match r with
  | Leave msg => Return (Msg msg, default_zone_map)
  | Continue a => finish_line default_zone_map a
  end.

(** What [parse_rules] works on: [acl_list], [default_zone_map] and the
    contents of [unprocessed_rules.txt]. *)
Record rules_state : Type := mkRules {
  acl_list : list acl;
  zone_map : gmap string (gmap string string);
  unprocessed_rules : string
}.

(** The body of the loop of [parse_rules]. *)
Definition parse_rule_step (t : tables) (st : rules_state) (rule : IOSCfgLine)
  : outcome rules_state :=
  '(acl_line, dzm) ← parse_line t (zone_map st) rule;
  match acl_line with
  | Msg s =>
      if String.eqb s any_any_any_any then Return (mkRules (acl_list st) dzm (unprocessed_rules st))
      else Return (mkRules (acl_list st) dzm
                     (unprocessed_rules st +:+ text rule +:+ " -> " +:+ s +:+ " " +:+ nl))
  | Dict a => Return (mkRules (acl_list st ++ [a]) dzm (unprocessed_rules st))
  end.

(** [parse_rules(parse)] *)
Definition parse_rules (t : tables) (default_zone_map : gmap string (gmap string string))
    (config : list IOSCfgLine) : outcome rules_state :=
  let ipv4_rules := CiscoConfParse.find_objects config "access-rule ipv4" in
  '(ipv4_rules, new_entries) ← duplicate_splitter ipv4_rules ST_rule;
  foldM (parse_rule_step t) (ipv4_rules ++ new_entries)%list (mkRules [] default_zone_map EmptyString).

(** ** The rule flattener *)

(** A record of the list handed to the Dashboard. *)
Record firewall_rule : Type := mkRule {
  fr_comment : string;
  fr_policy : string;
  fr_protocol : string;
  fr_srcPort : string;
  fr_srcCidr : string;
  fr_destCidr : string;
  fr_destPort : string;
  fr_zones : option (string * string)
}.

(** The list a [src] or [dst] value contributes to [combos]. *)
Definition combo (v : pyval) : list string :=
  match v with
  | Str s => [s]
  | StrList l => l
  end.

(** [protocol] of a record. *)
Definition rule_protocol (p : string) : string :=
  if String.eqb p "ICMP" then "icmp"
  else if String.eqb p "ICMPV6" then "icmp6"
  else p.

(** [list(itertools.product(src, dst, services))]: the last list varies
    fastest. *)
Definition product3 {A B C} (la : list A) (lb : list B) (lc : list C) : list (A * B * C) :=
  a ← la; b ← lb; c ← lc; [(a, b, c)].

(** The records of one rule. *)
Definition flatten_acl (mapping_flag : bool) (a : acl) : outcome (list firewall_rule) :=
  src ← getkey "src" (acl_src a);
  dst ← getkey "dst" (acl_dst a);
  services ← getkey "services" (acl_services a);
  foldM (fun (acc : list firewall_rule) (result : string * string * service) =>
           let '(s, d, svc) := result in
           action ← getkey "action" (acl_action a);
           zones ←
             (if mapping_flag then
                sz ← getkey "src_zone" (acl_src_zone a);
                dz ← getkey "dst_zone" (acl_dst_zone a);
                Return (Some (sz, dz))
              else Return None);
           Return (acc ++ [mkRule (default EmptyString (acl_comment a)) action (rule_protocol svc.1)
                             (default "any" (acl_src_port a)) s d
                             (if String.eqb svc.2 "N/A" then "any" else svc.2) zones])%list)
        (product3 (combo src) (combo dst) services) [].

(** The list [firewall_rules] that [create_mx_rules] builds from [acl_list]
    and hands to the Dashboard (or to [rule_mapping]). *)
Definition create_mx_rules (mapping_flag : bool) (acls : list acl)
  : outcome (list firewall_rule) :=
  foldM (fun acc a => rs ← flatten_acl mapping_flag a; Return (acc ++ rs)%list) acls [].

(** ** Delivery: rule sets, VLAN rules, the zone table, VLANs and routes *)

(** *** Dictionaries whose order is observed

    [default_zone_map] is iterated by [create_vlan_rules] and by
    [default_map_to_csv], and a Python dictionary is iterated in the order
    of insertion of its keys: there it is the list of its items in that
    order. *)

Module PyDict.

(** [d.get(k)] *)
Fixpoint get {V} (d : list (string * V)) (k : string) : option V :=
  match d with
  | [] => None
  | (k', v) :: r => if String.eqb k' k then Some v else get r k
  end.

(** [d[k] = v]: the value of a key that is there is replaced where it is, a
    new key goes to the end. *)
Fixpoint set {V} (d : list (string * V)) (k : string) (v : V) : list (string * V) :=
  match d with
  | [] => [(k, v)]
  | (k', v') :: r => if String.eqb k' k then (k', v) :: r else (k', v') :: set r k v
  end.

(** [list(d.keys())] *)
Definition keys {V} (d : list (string * V)) : list string := d.*1.

(** [d[k]] *)
Definition getitem {V} (d : list (string * V)) (k : string) : outcome V :=
  match get d k with
  | Some v => Return v
  | None => Raise (KeyError k)
  end.

End PyDict.

(** *** The rule lists of the appliance

    What the three update calls of the Dashboard replace: the L3 outbound
    rules and the inbound rules of the network, and the site-to-site VPN
    rules of the organization. *)

Record appliance : Type := mkAppliance {
  l3_firewall_rules : list firewall_rule;
  inbound_firewall_rules : list firewall_rule;
  vpn_firewall_rules : list firewall_rule
}.

(** [updateNetworkApplianceFirewallL3FirewallRules(network_id, rules=...)] *)
Definition updateNetworkApplianceFirewallL3FirewallRules
    (ap : appliance) (rules : list firewall_rule) : appliance :=
  mkAppliance rules (inbound_firewall_rules ap) (vpn_firewall_rules ap).

(** [updateNetworkApplianceFirewallInboundFirewallRules(network_id, rules=...)] *)
Definition updateNetworkApplianceFirewallInboundFirewallRules
    (ap : appliance) (rules : list firewall_rule) : appliance :=
  mkAppliance (l3_firewall_rules ap) rules (vpn_firewall_rules ap).

(** [updateOrganizationApplianceVpnVpnFirewallRules(org_id, rules=...)] *)
Definition updateOrganizationApplianceVpnVpnFirewallRules
    (ap : appliance) (rules : list firewall_rule) : appliance :=
  mkAppliance (l3_firewall_rules ap) (inbound_firewall_rules ap) rules.

(** *** [rule_mapping] *)

(** The three lists of the loop. *)
Record rule_sets : Type := mkRuleSets {
  site2site_rules : list firewall_rule;
  outbound_rules : list firewall_rule;
  inbound_rules : list firewall_rule
}.

(** [del rule['src_zone']; del rule['dst_zone']] *)
Definition del_zones (rule : firewall_rule) : firewall_rule :=
  mkRule (fr_comment rule) (fr_policy rule) (fr_protocol rule) (fr_srcPort rule)
         (fr_srcCidr rule) (fr_destCidr rule) (fr_destPort rule) None.

(** The body of the loop of [rule_mapping]; [INBOUND] and [SITE2SITE] are
    the lists of [config.py]. *)
Definition rule_mapping_step (INBOUND SITE2SITE : list string)
    (sets : rule_sets) (rule : firewall_rule) : outcome rule_sets :=
  '(src_zone, dst_zone) ← getkey "src_zone" (fr_zones rule);
  let rule := del_zones rule in
  if bool_decide (src_zone ∈ INBOUND) then
    Return (mkRuleSets (site2site_rules sets) (outbound_rules sets)
                       (inbound_rules sets ++ [rule]))
  else if bool_decide (src_zone ∈ SITE2SITE) || bool_decide (dst_zone ∈ SITE2SITE) then
    Return (mkRuleSets (site2site_rules sets ++ [rule]) (outbound_rules sets)
                       (inbound_rules sets))
  else
    Return (mkRuleSets (site2site_rules sets) (outbound_rules sets ++ [rule])
                       (inbound_rules sets)).

(** The three lists [rule_mapping] builds. *)
Definition rule_mapping_sets (INBOUND SITE2SITE : list string)
    (firewall_rules : list firewall_rule) : outcome rule_sets :=
  foldM (rule_mapping_step INBOUND SITE2SITE) firewall_rules (mkRuleSets [] [] []).

(** [rule_mapping(org_id, network_id, firewall_rules)] *)
Definition rule_mapping (INBOUND SITE2SITE : list string)
    (firewall_rules : list firewall_rule) (ap : appliance) : outcome appliance :=
  sets ← rule_mapping_sets INBOUND SITE2SITE firewall_rules;
  let ap := updateOrganizationApplianceVpnVpnFirewallRules ap (site2site_rules sets) in
  let ap := updateNetworkApplianceFirewallL3FirewallRules ap (outbound_rules sets) in
  Return (updateNetworkApplianceFirewallInboundFirewallRules ap (inbound_rules sets)).

(** [create_mx_rules(org_id, network_id, acl_list)] with its calls of the
    Dashboard: nothing is done when the organization or the network was not
    found. *)
Definition create_mx_rules_update (INBOUND SITE2SITE : list string)
    (org_id network_id : option string) (mapping_flag : bool) (acls : list acl)
    (ap : appliance) : outcome appliance :=
  match org_id, network_id with
  | Some _, Some _ =>
      firewall_rules ← create_mx_rules mapping_flag acls;
      if mapping_flag then rule_mapping INBOUND SITE2SITE firewall_rules ap
      else Return (updateNetworkApplianceFirewallL3FirewallRules ap firewall_rules)
  | _, _ => Return ap
  end.

(** *** [create_vlan_rules] *)

(** [f'VLAN({v}).*'] *)
Definition vlan_cidr (v : string) : string := "VLAN(" +:+ v +:+ ").*".

(** The body of the inner loop: [destCidr] as a list. *)
Definition vlan_rule_dest (ZONES : gmap string string)
    (destCidr : list string) (item : string * string) : outcome (list string) :=
  let '(dst_zone, cell) := item in
  v ← PyStr.getitem ZONES dst_zone;
  if String.eqb v EmptyString || String.eqb cell "allow" then Return destCidr
  else Return (destCidr ++ [vlan_cidr v]).

(** The body of the outer loop. *)
Definition vlan_rule_step (ZONES : gmap string string)
    (default_rules : list firewall_rule) (item : string * list (string * string))
  : outcome (list firewall_rule) :=
  let '(src_zone, row) := item in
  v ← PyStr.getitem ZONES src_zone;
  if String.eqb v EmptyString then Return default_rules
  else
    destCidr ← foldM (vlan_rule_dest ZONES) row [];
    match destCidr with
    | [] => Return default_rules
    | _ =>
        Return (default_rules ++
                  [mkRule "Any Any Inter-zone rule" "deny" "any" "any" (vlan_cidr v)
                          (PyStr.join "," destCidr) "any" None])
    end.

(** The list [default_rules]. *)
Definition vlan_default_rules (ZONES : gmap string string)
    (default_zone_map : list (string * list (string * string)))
  : outcome (list firewall_rule) :=
  foldM (vlan_rule_step ZONES) default_zone_map [].

(** [create_vlan_rules(network_id)] *)
Definition create_vlan_rules (ZONES : gmap string string)
    (default_zone_map : list (string * list (string * string))) (ap : appliance)
  : outcome appliance :=
  let rules := l3_firewall_rules ap in
  default_rules ← vlan_default_rules ZONES default_zone_map;
  Return (updateNetworkApplianceFirewallL3FirewallRules ap (rules ++ default_rules)).

(** *** [default_map_to_csv]

    The file is the list of the rows handed to the writer; how the [csv]
    module quotes a cell is not modelled. *)

Definition corner : string := "Source Zone \ Destination Zone".

(** [DictWriter._dict_to_list(rowdict)] with [extrasaction='raise'] and
    [restval=''] *)
Definition dict_to_list (fieldnames : list string) (rowdict : list (string * string))
  : outcome (list string) :=
  if forallb (fun k => bool_decide (k ∈ fieldnames)) (PyDict.keys rowdict)
  then Return ((fun key => default EmptyString (PyDict.get rowdict key)) <$> fieldnames)
  else Raise ValueError.

(** The body of the loop over the zones: the row written and
    [default_zone_map] as the turn leaves it. *)
Definition csv_row_step (headers : list string)
    (st : list (list string) * list (string * list (string * string))) (zone : string)
  : outcome (list (list string) * list (string * list (string * string))) :=
  let '(rows, default_zone_map) := st in
  row ← PyDict.getitem default_zone_map zone;
  let row := PyDict.set row corner zone in
  let default_zone_map := PyDict.set default_zone_map zone row in
  cells ← dict_to_list headers row;
  Return (rows ++ [cells], default_zone_map).

(** [default_map_to_csv(csv_file)]: the rows of the file and
    [default_zone_map] as the call leaves it. *)
Definition default_map_to_csv (default_zone_map : list (string * list (string * string)))
  : outcome (list (list string) * list (string * list (string * string))) :=
  let headers := corner :: PyDict.keys default_zone_map in
  foldM (csv_row_step headers) (PyDict.keys default_zone_map) ([headers], default_zone_map).

(** *** [create_vlans] and [create_static_rules]

    An entry of the JSON file and an entry of the Dashboard are dictionaries
    with string keys; their values are compared and passed on only. *)

Section Provisioning.
Context {V : Type} `{EqDecision V}.

(** One turn of either loop: the keys in [fields] are read in their order,
    and the entry is created when its name is not among the existing
    names. *)
Definition provision_step (first_read : string) (fields : list string)
    (existing_names : list V) (created : list (gmap string V)) (entry : gmap string V)
  : outcome (list (gmap string V)) :=
  _ ← PyStr.getitem entry first_read;
  name ← PyStr.getitem entry "name";
  if bool_decide (name ∈ existing_names) then Return created
  else
    body ← foldM (fun (acc : gmap string V) k =>
                    v ← PyStr.getitem entry k; Return (<[k := v]> acc)) fields ∅;
    Return (created ++ [body]).

(** The whole function: the entries of the network after the call. *)
Definition provision (first_read : string) (fields : list string)
    (file : list (gmap string V)) (network : list (gmap string V))
  : outcome (list (gmap string V)) :=
  existing_names ← foldM (fun acc d => n ← PyStr.getitem d "name"; Return (acc ++ [n]))
                     network [];
  created ← foldM (provision_step first_read fields existing_names) file [];
  Return (network ++ created).

(** [create_vlans(vlan_file_name, network_id)]: the VLANs of the network
    after the call. *)
Definition create_vlans (vlans network_vlans : list (gmap string V))
  : outcome (list (gmap string V)) :=
  provision "id" ["id"; "name"; "subnet"; "applianceIp"; "groupPolicyId"] vlans network_vlans.

(** [create_static_rules(static_file_name, network_id)]: the static routes
    of the network after the call. *)
Definition create_static_rules (routes network_routes : list (gmap string V))
  : outcome (list (gmap string V)) :=
  provision "name" ["name"; "subnet"; "gatewayIp"] routes network_routes.

End Provisioning.

(** ** Notions used to state and prove the properties of the cover *)

Section IpaddressNotions.
Import Ipaddress.

Definition rzmask (n : Z) : Z := Z.land (Z.lnot n) (n - 1).

(** The number of host bits the loop picks at [first]. *)
Definition nbits_at (first last : Z) : Z :=
  Z.min (count_righthand_zero_bits first IPV4LENGTH) (bit_length (last - first + 1) - 1).

(** The cover the loop builds from [first] up to [last]: consecutive aligned
    blocks, each the largest aligned block at its start that still ends by
    [last]. *)
Fixpoint greedy_tiles (first : Z) (nets : list IPv4Network) (last : Z) : Prop :=
  match nets with
  | [] => first = last + 1
  | net :: rest =>
      exists n, 0 <= n <= 32 /\ net = mkNet first (IPV4LENGTH - n) /\
        (2 ^ n | first) /\ first + 2 ^ n <= last + 1 /\
        (forall k, 0 <= k -> (2 ^ k | first) -> first + 2 ^ k <= last + 1 -> k <= n) /\
        greedy_tiles (first + 2 ^ n) rest last
  end.

(** A bound on the iterations left: while the block size is limited by the
    alignment of [first] it grows, afterwards it shrinks. *)
Definition potential (first last : Z) : Z :=
  if last <? first then 0
  else
    let A := count_righthand_zero_bits first IPV4LENGTH in
    let L := bit_length (last - first + 1) - 1 in
    if A <=? L then 66 - A else L + 1.


End IpaddressNotions.

(** ** Notions used to state the properties of the object compiler *)

(** A child line of an [address-object ipv4] stanza that sets neither the
    type nor the range (a [zone], [uuid] or [exit] line): its first word is
    not [host], [network] or [range], and a [zone] line names its zone. *)
Definition inert_line (l : IOSCfgLine) : bool :=
  match PyStr.split (text l) with
  | [] => false
  | c0 :: rest =>
      negb (String.eqb c0 "host") && negb (String.eqb c0 "network")
      && negb (String.eqb c0 "range")
      && (negb (String.eqb c0 "zone") || negb (bool_decide (rest = [])))
  end.

(** The name [build_mx_object] gives to an [address-object ipv4] stanza. *)
Definition ipv4_object_name (element : IOSCfgLine) : string :=
  sanitize_quote_dot_colon (PyStr.replace "address-object ipv4 " EmptyString (text element)).

(** The policy objects the Dashboard holds after the creation calls for the
    CIDRs of a range, when the first id handed out is [next]. *)
Fixpoint range_policy_objects (next : Z) (name category type : string)
    (idx : Z) (ranges : list string) : list policy_object :=
  match ranges with
  | [] => []
  | ip :: rest =>
      mkPolicyObject (PyStr.of_int next) (name +:+ "__range__" +:+ PyStr.of_int idx)
        category type ip
      :: range_policy_objects (next + 1) name category type (idx + 1) rest
  end.

Definition leaf (s : string) : IOSCfgLine := CfgLine s [].

(** The stanza of the second scenario of the specification. *)
Definition R1_stanza : IOSCfgLine :=
  CfgLine "address-object ipv4 R1"
    [CfgLine "    range 10.0.0.1 10.0.0.4" []; CfgLine "    zone LAN" []; CfgLine "    exit" []].

(** The four categories of address entities that are created on the
    Dashboard, each with its pass, the name it gives to a stanza and the test
    that guards its creation. *)
Inductive category : Type :=
| Cat_ipv4_object | Cat_fqdn_object | Cat_ipv4_group | Cat_ipv6_group.


Definition defined_name (c : category) (element : IOSCfgLine) : string :=
  match c with
  | Cat_ipv4_object => ipv4_object_name element
  | Cat_fqdn_object =>
      sanitize_quote_dot_colon_star
        (PyStr.replace "address-object fqdn " EmptyString (text element))
  | Cat_ipv4_group =>
      sanitize_quote_dot_colon
        (PyStr.replace "address-group ipv4 " EmptyString (text element))
  | Cat_ipv6_group =>
      PyStr.replace dquote EmptyString
        (PyStr.replace "address-group ipv6 " EmptyString (text element))
  end.





(** Two definitions of the host [H1]. *)
Definition H1_first : IOSCfgLine :=
  CfgLine "address-object ipv4 H1" [leaf "    host 10.0.0.1"].

Definition H1_second : IOSCfgLine :=
  CfgLine ("address-object ipv4 " +:+ dquote +:+ "H1" +:+ dquote) [leaf "    host 10.0.0.2"].

(** ** Notions used to state the properties of the splitter *)

(** The test of the splitter on a child line: ['exit' in val.text]. *)
Definition has_exit (l : IOSCfgLine) : bool := PyStr.contains "exit" (text l).

Definition exit_free (ls : list IOSCfgLine) : bool := forallb (fun l => negb (has_exit l)) ls.

Definition ends_with_exit (ls : list IOSCfgLine) : bool := from_option has_exit false (last ls).

(** The indexes of the splitter, counted from [k]. *)
Fixpoint exit_indexes_from (k : nat) (ls : list IOSCfgLine) : list nat :=
  match ls with
  | [] => []
  | x :: r => (if has_exit x then [S k] else []) ++ exit_indexes_from (S k) r
  end.

(** The identifier the splitter reads in the first line of a partition. *)
Definition partition_ident (first : IOSCfgLine) : string :=
  PyStr.replace "name " EmptyString (PyStr.strip (text first)).

(** A rule whose children hold two partitions, an address object whose
    children hold two, and one whose children hold three. *)
Definition rule_two_partitions : IOSCfgLine :=
  CfgLine "access-rule ipv4 from LAN to WAN"
    [leaf "    action allow"; leaf "    exit"; leaf "    name R2"; leaf "    action deny";
     leaf "    exit"].

Definition object_two_partitions : IOSCfgLine :=
  CfgLine "address-object ipv4 A"
    [leaf "    host 10.0.0.1"; leaf "    exit"; leaf "    name B"; leaf "    host 10.0.0.2";
     leaf "    exit"].

Definition object_three_partitions : IOSCfgLine :=
  CfgLine "address-object ipv4 A"
    [leaf "    host 10.0.0.1"; leaf "    exit"; leaf "    name B"; leaf "    host 10.0.0.2";
     leaf "    exit"; leaf "    name C"; leaf "    host 10.0.0.3"; leaf "    exit"].

(** ** Inputs used to exercise the rule parser and the object compiler *)



(** Tables in which [Germany-Net] is an IPv4 object and [Company] a service
    object. *)
Definition tables_with_any_names : tables :=
  set_service_objects <["Company" := ("TCP", "8080")]>
    (set_objects <["Germany-Net" := "7"]> empty_tables).

(** A service group that holds an ICMP and an ICMPV6 primitive. *)
Definition icmp_both : list service := [("ICMP", "N/A"); ("ICMPV6", "N/A")].

(** A configuration with a range object [R1], a host [H1] and a group [GR]
    that holds both, so that [GR__range__] is a key of
    [range_object_groups]. *)
Definition config_range_group : list IOSCfgLine :=
  [ CfgLine "address-object ipv4 H1" [leaf "    host 10.0.0.9"];
    CfgLine "address-object ipv4 R1" [leaf "    range 10.0.0.1 10.0.0.4"];
    CfgLine "address-group ipv4 GR"
      [leaf "    address-object ipv4 H1"; leaf "    address-object ipv4 R1"] ].

(** The same with a range object that is itself named [GR]. *)
Definition config_range_group_clash : list IOSCfgLine :=
  CfgLine "address-object ipv4 GR" [leaf "    range 10.0.1.0 10.0.1.3"]
  :: config_range_group.

(** A network object whose mask is the wildcard form of a 17-bit prefix, and
    one whose mask is no mask at all. *)
Definition stanza_wildcard_17 : IOSCfgLine :=
  CfgLine "address-object ipv4 N17" [leaf "    network 10.1.0.0 0.0.127.255"].

Definition stanza_bad_mask : IOSCfgLine :=
  CfgLine "address-object ipv4 NB" [leaf "    network 10.1.0.0 255.0.255.0"].

Definition stanza_mask_24 : IOSCfgLine :=
  CfgLine "address-object ipv4 N24" [leaf "    network 10.1.2.0 255.255.255.0"].

(** An FQDN object and an IPv6 group that holds it, both with a dot in their
    name, and an IPv4 object with a star in its name. *)
Definition config_dotted_names : list IOSCfgLine :=
  [ CfgLine "address-object ipv4 srv*1" [leaf "    host 10.0.0.5"];
    CfgLine "address-object fqdn www.example.com" [leaf "    domain www.example.com"];
    CfgLine "address-group ipv6 web.servers"
      [leaf "    address-object fqdn www.example.com"] ].

(** The cell of the Default-Zone Map for a source and a destination zone. *)
Definition zone_cell (m : gmap string (gmap string string)) (s d : string) : option string :=
  m !! s ≫= fun row => row !! d.

(** [ZONES] of [config.py] as it is shipped, and the map [main] builds from
    its keys before any rule is parsed. *)
Definition ZONES : list (string * string) := [("Zone Name", "Vlan Number")].

Definition initial_zone_map (zones : list (string * string)) : gmap string (gmap string string) :=
  foldl (fun m z => <[z.1 := ∅]> m) ∅ zones.

(** The rule of the fourth scenario, with its three slots as children. *)
Definition rule_any_any : IOSCfgLine :=
  CfgLine "access-rule ipv4 from LAN to WAN action allow"
    [leaf "    source address any"; leaf "    destination address any"; leaf "    service any"].

(** The same rule with the action [discard]. *)
Definition rule_any_any_discard : IOSCfgLine :=
  CfgLine "access-rule ipv4 from LAN to WAN action discard"
    [leaf "    source address any"; leaf "    destination address any"; leaf "    service any"].

(** The protocols a service table can hold, and the tables that hold no
    other. *)
Definition table_protocols : list string := ["TCP"; "UDP"; "ICMP"; "ICMPV6"].

Definition service_tables_ok (t : tables) : Prop :=
  (forall k s, service_objects t !! k = Some s -> s.1 ∈ table_protocols) /\
  (forall k l, service_object_groups t !! k = Some l ->
     Forall (fun s : service => s.1 ∈ table_protocols) l) /\
  (forall k l, service_group_of_groups t !! k = Some l ->
     Forall (fun s : service => s.1 ∈ table_protocols) l).

(** The services a rule can hold: those of the tables and the pair
    any/any. *)
Definition acl_services_ok (a : acl) : Prop :=
  forall l, acl_services a = Some l ->
    Forall (fun s : service => s.1 ∈ "any" :: table_protocols) l.

(** A small configuration: one TCP service, and a rule that uses it with the
    action [discard]. *)
Definition config_tcp_rule : list IOSCfgLine :=
  [ CfgLine "address-object ipv4 H1" [leaf "    host 10.0.0.9"];
    leaf "service-object HTTP TCP 80 80";
    CfgLine "access-rule ipv4 from LAN to WAN action discard"
      [leaf "    source address name H1"; leaf "    destination address any";
       leaf "    service name HTTP"] ].

(** The three service tables are left alone by a step. *)
Definition same_service_tables (t t' : tables) : Prop :=
  service_objects t' = service_objects t /\
  service_object_groups t' = service_object_groups t /\
  service_group_of_groups t' = service_group_of_groups t.

(** The lists a service group collects hold table protocols only. *)
Definition group_services_ok (st : mx_object * string) : Prop :=
  Forall (fun s : service => s.1 ∈ table_protocols) (mx_service_objects st.1) /\
  Forall (fun s : service => s.1 ∈ table_protocols) (mx_nested_services st.1).

(** What the loop of [combine_like_services] maintains. *)
Definition combine_state_ok (st : combine_state) : Prop :=
  Forall (fun s : service => s.1 ∈ table_protocols) (cs_result st) /\
  (forall icmp, cs_icmp_list st = Some icmp -> icmp.1 ∈ table_protocols).

(** What a step of the parser maintains. *)
Definition step_ok (r : step_result) : Prop :=
  match r with
  | Continue a => acl_services_ok a
  | Leave _ => True
  end.

(** What the records built from one rule are made of. *)
Definition rule_of (a : acl) (r : firewall_rule) : Prop :=
  exists svcs svc,
    acl_services a = Some svcs /\ svc ∈ svcs /\
    fr_protocol r = rule_protocol svc.1 /\ acl_action a = Some (fr_policy r).

(** The dotted-quad subnet mask and wildcard mask of a prefix length. *)
Definition subnet_mask (p : Z) : string :=
  Ipaddress.string_from_ip_int (Ipaddress.ip_int_from_prefix p).

Definition wildcard_mask (p : Z) : string :=
  Ipaddress.string_from_ip_int (Z.lxor Ipaddress.ALL_ONES (Ipaddress.ip_int_from_prefix p)).

(** The prefix lengths from 1 to 32 whose mask, in the form [mask], is not
    mapped to them by [SUBNET_MASKS]. *)
Definition prefixes_missing (mask : Z -> string) : list Z :=
  List.filter
    (fun p => negb (bool_decide (SUBNET_MASKS !! mask p = Some (PyStr.of_int p))))
    (map Z.of_nat (seq 1 32)).

(** ** Notions used to state and prove the further properties *)

(** The relation between a stanza and what the splitter leaves of it: the
    header is kept and the children are the first children of the stanza;
    the children of the stanza split off, if there is one, follow them in
    the stanza and are not empty. *)
Definition split_of (element kept : IOSCfgLine) (clone : option IOSCfgLine) : Prop :=
  text kept = text element /\
  match clone with
  | None => kept = element
  | Some c =>
      children c <> [] /\ children kept <> [] /\
      (children kept ++ children c) `prefix_of` children element
  end.

(** The record of one combination. *)
Definition record_of (mapping_flag : bool) (a : acl) (action : string)
    (zones : string * string) (result : string * string * service) : firewall_rule :=
  mkRule (default EmptyString (acl_comment a)) action (rule_protocol result.2.1)
         (default "any" (acl_src_port a)) result.1.1 result.1.2
         (if String.eqb result.2.2 "N/A" then "any" else result.2.2)
         (if mapping_flag then Some zones else None).

(** The six keys [parse_line] checks before it returns the dictionary. *)
Definition acl_complete (a : acl) : Prop :=
  is_Some (acl_action a) /\ is_Some (acl_src a) /\ is_Some (acl_dst a) /\
  is_Some (acl_services a) /\ is_Some (acl_src_zone a) /\ is_Some (acl_dst_zone a).

(** The records of a rule with its six keys, in closed form. *)
Definition records_of (mapping_flag : bool) (a : acl) : list firewall_rule :=
  match acl_action a, acl_src a, acl_dst a, acl_services a, acl_src_zone a, acl_dst_zone a with
  | Some action, Some src, Some dst, Some services, Some sz, Some dz =>
      record_of mapping_flag a action (sz, dz) <$> product3 (combo src) (combo dst) services
  | _, _, _, _, _, _ => []
  end.

Definition acl_two_by_two : acl :=
  mkAcl (Some "LAN") (Some "WAN") (Some "allow") None
        (Some (StrList ["OBJ[1]"; "OBJ[2]"])) None (Some (Str "any"))
        (Some [("TCP", "80,443"); ("UDP", "53")]).

(** The tables and the rules of [config_tcp_rule]. *)
Definition tables_tcp_rule : tables :=
  set_service_objects <["HTTP" := ("TCP", "80")]> (set_objects <["H1" := "1"]> empty_tables).

Definition acl_tcp_rule : acl :=
  mkAcl (Some "LAN") (Some "WAN") (Some "discard") None (Some (Str "OBJ[1]")) None
        (Some (Str "any")) (Some [("TCP", "80")]).

Definition state_tcp_rule : rules_state :=
  mkRules [acl_tcp_rule] (initial_zone_map ZONES) EmptyString.

Definition empty_appliance : appliance := mkAppliance [] [] [].

(** The lists of [config.py]. *)
Definition INBOUND : list string := ["WAN"].
Definition SITE2SITE : list string := ["VPN"; "SSLVPN"].

(** The zones of a record, and the three tests of [rule_mapping]. *)
Definition from_zone_in (l : list string) (r : firewall_rule) : bool :=
  match fr_zones r with
  | Some (sz, _) => bool_decide (sz ∈ l)
  | None => false
  end.

Definition to_zone_in (l : list string) (r : firewall_rule) : bool :=
  match fr_zones r with
  | Some (_, dz) => bool_decide (dz ∈ l)
  | None => false
  end.

Definition is_inbound (INBOUND SITE2SITE : list string) (r : firewall_rule) : bool :=
  from_zone_in INBOUND r.

Definition is_site2site (INBOUND SITE2SITE : list string) (r : firewall_rule) : bool :=
  negb (from_zone_in INBOUND r) && (from_zone_in SITE2SITE r || to_zone_in SITE2SITE r).

Definition is_outbound (INBOUND SITE2SITE : list string) (r : firewall_rule) : bool :=
  negb (from_zone_in INBOUND r) && negb (from_zone_in SITE2SITE r || to_zone_in SITE2SITE r).

Definition rules_three_zones : list firewall_rule :=
  [ mkRule EmptyString "allow" "TCP" "any" "any" "OBJ[1]" "443" (Some ("WAN", "VPN"));
    mkRule EmptyString "allow" "TCP" "any" "OBJ[1]" "any" "80" (Some ("LAN", "WAN"));
    mkRule EmptyString "deny" "any" "any" "OBJ[1]" "OBJ[2]" "any" (Some ("LAN", "VPN")) ].

Definition world_tcp_rule : world :=
  mkWorld tables_tcp_rule
    (mkDashboard 2 [mkPolicyObject "1" "H1" "network" "cidr" "10.0.0.9/32"] []) EmptyString.

Definition record_tcp_rule : firewall_rule :=
  mkRule EmptyString "discard" "TCP" "any" "OBJ[1]" "any" "80" None.

(** The table holds a row for each zone of [zones] and no other; its cells
    are in the columns of these zones and read [allow] or [deny]. *)
Definition zone_table_within (zones : list string) (m : gmap string (gmap string string)) : Prop :=
  (forall s, is_Some (m !! s) <-> s ∈ zones) /\
  (forall s d v, zone_cell m s d = Some v -> d ∈ zones /\ (v = "allow" \/ v = "deny")).

(** Two zones, of which the second is no local VLAN, and the table after the
    rule that discards everything from the first to the second. *)
Definition zones_lan_wan : list (string * string) := [("LAN", "10"); ("WAN", EmptyString)].

Definition state_any_any_discard : rules_state :=
  mkRules [] (<["LAN" := {["WAN" := "deny"]}]> (initial_zone_map zones_lan_wan)) EmptyString.

(** A reference to a policy object or to a group, as the parsers write
    it. *)
Definition is_reference (s : string) : Prop := exists id, s = OBJ id \/ s = GRP id.

(** The value of a [src] or [dst] key: [any] or a reference, or a list of
    references. *)
Definition slot_shape (v : pyval) : Prop :=
  match v with
  | Str s => s = "any" \/ is_reference s
  | StrList l => Forall is_reference l
  end.

(** The value of the [services] key: services of the tables, after the pair
    any/any if the rule has it. *)
Definition services_shape (l : list service) : Prop :=
  exists pre rest,
    l = pre ++ rest /\ (pre = [] \/ pre = [("any", "any")]) /\
    Forall (fun s : service => s.1 ∈ table_protocols) rest.

Definition acl_shape (a : acl) : Prop :=
  (forall v, acl_src a = Some v -> slot_shape v) /\
  (forall v, acl_dst a = Some v -> slot_shape v) /\
  (forall l, acl_services a = Some l -> services_shape l).

(** An id of a policy object, and an id of a group, of the Dashboard. *)
Definition object_id_of (d : dashboard) (id : string) : Prop :=
  id ∈ po_id <$> policy_objects d.

Definition group_id_of (d : dashboard) (id : string) : Prop :=
  id ∈ pg_id <$> policy_object_groups d.

(** Every id of the address tables is an id of the Dashboard, of an object
    or of a group as the table has it. *)
Definition tables_issued (d : dashboard) (t : tables) : Prop :=
  map_Forall (fun _ id => object_id_of d id) (objects t) /\
  map_Forall (fun _ id => object_id_of d id) (fqdn_objects t) /\
  map_Forall (fun _ id => group_id_of d id) (range_objects t) /\
  map_Forall (fun _ id => group_id_of d id) (object_groups t) /\
  map_Forall (fun _ id => group_id_of d id) (fqdn_object_groups t) /\
  map_Forall (fun _ p => Forall (object_id_of d) p.1 /\ Forall (group_id_of d) p.2)
             (range_object_groups t) /\
  map_Forall (fun _ p => Forall (object_id_of d) p.1 /\ Forall (group_id_of d) p.2)
             (group_of_groups t).

(** A group that is not empty and lists ids of objects of the Dashboard. *)
Definition group_sound (d : dashboard) (g : policy_object_group) : Prop :=
  pg_objectIds g <> [] /\ Forall (object_id_of d) (pg_objectIds g).

(** The Dashboard [d'] is [d] with more objects and more groups after those
    of [d], the new groups being sound. *)
Definition dashboard_grows (d d' : dashboard) : Prop :=
  exists new_objects new_groups,
    policy_objects d' = policy_objects d ++ new_objects /\
    policy_object_groups d' = policy_object_groups d ++ new_groups /\
    Forall (group_sound d') new_groups.

(** The ids a dictionary built for a group holds. *)
Definition ids_issued (d : dashboard) (m : mx_object) : Prop :=
  Forall (object_id_of d) (mx_objectIds m) /\ Forall (group_id_of d) (mx_rangeIds m) /\
  Forall (group_id_of d) (mx_group_of_groups m) /\ Forall (object_id_of d) (mx_objectFQDNs m).

(** What a step keeps: the Dashboard grows and the tables hold ids of the
    Dashboard. *)
Definition step_keeps (step : world -> IOSCfgLine -> outcome world) : Prop :=
  forall w e w',
    tables_issued (dash w) (tbl w) -> step w e = Return w' ->
    dashboard_grows (dash w) (dash w') /\ tables_issued (dash w') (tbl w').

(** A value of [srcCidr] or [destCidr] that the Dashboard can resolve. *)
Definition cidr_issued (d : dashboard) (s : string) : Prop :=
  s = "any" \/ (exists id, object_id_of d id /\ s = OBJ id)
  \/ (exists id, group_id_of d id /\ s = GRP id).

Definition acl_issued (d : dashboard) (a : acl) : Prop :=
  (forall v, acl_src a = Some v -> Forall (cidr_issued d) (combo v)) /\
  (forall v, acl_dst a = Some v -> Forall (cidr_issued d) (combo v)).

(** The world [create_objects] leaves for [config_range_group]. *)
Definition world_range_group : world :=
  mkWorld
    (set_range_object_groups <["GR__range__" := (["1"], ["5"])]>
       (set_range_objects <["R1__range__" := "5"]>
          (set_objects <["H1" := "1"]> empty_tables)))
    (mkDashboard 6
       [mkPolicyObject "1" "H1" "network" "cidr" "10.0.0.9/32";
        mkPolicyObject "2" "R1__range__0" "network" "cidr" "10.0.0.1/32";
        mkPolicyObject "3" "R1__range__1" "network" "cidr" "10.0.0.2/31";
        mkPolicyObject "4" "R1__range__2" "network" "cidr" "10.0.0.4/32"]
       [mkPolicyGroup "5" "R1__range__" ["2"; "3"; "4"]])
    EmptyString.






(** [c in s] for a character. *)
Definition mentions (c : ascii) (s : string) : bool :=
  PyStr.contains (String c EmptyString) s.

Definition stanza_dotted_host : IOSCfgLine :=
  CfgLine "address-object ipv4 web.srv:1" [leaf "    host 10.0.0.5"].

Definition mx_dotted_host : mx_object :=
  set_cidr "10.0.0.5/32" (set_type "cidr" (mx_new "web_srv_1" (Some "network"))).

(** What is checked of the text of each octet value. *)
Definition octet_text_ok (o : Z) : bool :=
  let s := PyStr.of_int o in
  match Ipaddress.parse_octet s with
  | Return v => v =? o
  | _ => false
  end
  && negb (mentions "." s) && negb (mentions "/" s)
  && negb (String.eqb s EmptyString).

(** The digits, and the texts of one to three digits. *)
Definition digit_chars : list ascii :=
  ["0"; "1"; "2"; "3"; "4"; "5"; "6"; "7"; "8"; "9"]%char.

Definition digit_texts : list string :=
  (c1 ← digit_chars; [String c1 EmptyString])
  ++ (c1 ← digit_chars; c2 ← digit_chars; [String c1 (String c2 EmptyString)])
  ++ (c1 ← digit_chars; c2 ← digit_chars; c3 ← digit_chars;
      [String c1 (String c2 (String c3 EmptyString))]).

(** What is checked of each text of digits: when it is the text of an octet,
    the octet is written back as this text. *)
Definition digit_text_ok (s : string) : bool :=
  match Ipaddress.parse_octet s with
  | Return v => String.eqb (PyStr.of_int v) s
  | _ => true
  end.

(** The entry a [service-object] line gives the table, if it gives one. *)
Definition service_entry (element : IOSCfgLine) : option (string * service) :=
  match build_mx_object empty_tables OT_service element EmptyString with
  | Return (Some m, _) =>
      match mx_protocol m with
      | Some protocol => Some (mx_name m, (protocol, default "N/A" (mx_port m)))
      | None => None
      end
  | _ => None
  end.

Definition world_http_twice : world :=
  mkWorld
    (set_service_objects <["DNS" := ("UDP", "53")]>
       (set_service_objects <["HTTP" := ("TCP", "8080")]> empty_tables))
    empty_dashboard EmptyString.

Definition stanza_reversed_range : IOSCfgLine :=
  CfgLine "address-object ipv4 R9" [leaf "    range 10.0.0.9 10.0.0.1"].

(** The VLAN of a zone in [ZONES], blank when the zone has none. *)
Definition vlan_of (ZONES : gmap string string) (zone : string) : string :=
  default EmptyString (ZONES !! zone).

(** The cells of a row that give a destination: those that do not read
    [allow], in the column of a zone with a VLAN. *)
Definition denied_cell (ZONES : gmap string string) (item : string * string) : bool :=
  negb (String.eqb (vlan_of ZONES item.1) EmptyString) && negb (String.eqb item.2 "allow").

Definition denied_vlans (ZONES : gmap string string) (row : list (string * string))
  : list string :=
  (fun item : string * string => vlan_cidr (vlan_of ZONES item.1))
    <$> List.filter (denied_cell ZONES) row.

(** The rows that give a rule: those of a zone with a VLAN, with at least
    one destination. *)
Definition denying_row (ZONES : gmap string string)
    (item : string * list (string * string)) : bool :=
  negb (String.eqb (vlan_of ZONES item.1) EmptyString)
  && negb (bool_decide (denied_vlans ZONES item.2 = [])).

Definition vlan_rule_of (ZONES : gmap string string)
    (item : string * list (string * string)) : firewall_rule :=
  mkRule "Any Any Inter-zone rule" "deny" "any" "any" (vlan_cidr (vlan_of ZONES item.1))
         (PyStr.join "," (denied_vlans ZONES item.2)) "any" None.

(** Every zone of the table, row or column, is a key of [ZONES]. *)
Definition zones_known (ZONES : gmap string string)
    (default_zone_map : list (string * list (string * string))) : Prop :=
  Forall (fun item : string * list (string * string) =>
            is_Some (ZONES !! item.1) /\
            Forall (fun cell : string * string => is_Some (ZONES !! cell.1)) item.2)
         default_zone_map.

(** The shipped shape of [ZONES] with three zones, and a table for them. *)
Definition zones_three : gmap string string :=
  list_to_map [("LAN", "10"); ("DMZ", "20"); ("WAN", EmptyString)].

Definition zone_rows_three : list (string * list (string * string)) :=
  [ ("LAN", [("DMZ", "deny"); ("WAN", "allow")]);
    ("DMZ", [("LAN", "deny"); ("WAN", "deny")]);
    ("WAN", [("LAN", "deny")]) ].

(** The row of the file for a row of the table: the cell of each header, or
    nothing, once the name of the zone is in the row under [corner]. *)
Definition csv_row_of (headers : list string) (item : string * list (string * string))
  : list string :=
  (fun key => default EmptyString (PyDict.get (PyDict.set item.2 corner item.1) key))
    <$> headers.

(** The row of the table as [default_map_to_csv] leaves it. *)
Definition row_with_corner (item : string * list (string * string))
  : string * list (string * string) :=
  (item.1, PyDict.set item.2 corner item.1).

(** The columns of every row are zones of the table. *)
Definition columns_known (default_zone_map : list (string * list (string * string))) : Prop :=
  Forall (fun item : string * list (string * string) =>
            Forall (fun cell : string * string => cell.1 ∈ PyDict.keys default_zone_map) item.2)
         default_zone_map.

(** A file with one VLAN, and one with one static route. *)
Definition vlan_lan : gmap string string :=
  list_to_map [("id", "10"); ("name", "LAN"); ("subnet", "10.0.10.0/24");
               ("applianceIp", "10.0.10.1"); ("groupPolicyId", "100")].

Definition route_branch : gmap string string :=
  list_to_map [("name", "branch"); ("subnet", "10.9.0.0/16"); ("gatewayIp", "10.0.10.254")].

(** A key that is set keeps its value. *)
Definition key_kept {A} (o o' : option A) : Prop := forall v, o = Some v -> o' = Some v.

(** The six keys [parse_line] checks keep their values from [a] to [a']. *)
Definition acl_kept (a a' : acl) : Prop :=
  key_kept (acl_src_zone a) (acl_src_zone a') /\ key_kept (acl_dst_zone a) (acl_dst_zone a') /\
  key_kept (acl_action a) (acl_action a') /\ key_kept (acl_src a) (acl_src a') /\
  key_kept (acl_dst a) (acl_dst a') /\ key_kept (acl_services a) (acl_services a').

(** A rule whose child lines give other zones and another action than its
    header. *)
Definition rule_header_and_children : IOSCfgLine :=
  CfgLine "access-rule ipv4 from LAN to WAN action allow"
    [leaf "    from DMZ"; leaf "    to VPN"; leaf "    action deny";
     leaf "    source address any"; leaf "    destination address any";
     leaf "    service any"].

Definition acl_header : acl :=
  mkAcl (Some "LAN") (Some "WAN") (Some "allow") None None None None None.

Definition acl_header_and_children : acl :=
  mkAcl (Some "LAN") (Some "WAN") (Some "allow") None (Some (Str "any")) None
        (Some (Str "any")) (Some [("any", "any")]).

(** An outcome that is a result. *)
Definition returns {A} (o : outcome A) : Prop := exists x, o = Return x.

(** The keys of a dictionary for an address object: when the type is set,
    so is the CIDR or the range. *)
Definition object_keys_set (m : mx_object) : Prop :=
  is_Some (mx_category m) /\
  (is_Some (mx_type m) -> is_Some (mx_cidr m) \/ is_Some (mx_range m)).

Definition fqdn_keys_set (m : mx_object) : Prop :=
  is_Some (mx_category m) /\ (is_Some (mx_type m) -> is_Some (mx_fqdn m)).

(** A rule with a disabled child. *)
Definition rule_inactive : IOSCfgLine :=
  CfgLine "access-rule ipv4 from LAN to WAN action allow"
    [leaf "    source address any"; leaf "    no enable";
     leaf "    destination address any"; leaf "    service any"].

(** A rule from a host whose service line names a protocol only, and a rule
    of the same service from any to any. *)
Definition rule_service_tcp : IOSCfgLine :=
  CfgLine "access-rule ipv4 from LAN to WAN action allow"
    [leaf "    source address name H1"; leaf "    destination address any";
     leaf "    service TCP"].

Definition acl_service_tcp : acl :=
  mkAcl (Some "LAN") (Some "WAN") (Some "allow") None (Some (Str "OBJ[1]")) None
        (Some (Str "any")) (Some []).

Definition rule_any_any_tcp : IOSCfgLine :=
  CfgLine "access-rule ipv4 from LAN to WAN action allow"
    [leaf "    source address any"; leaf "    destination address any";
     leaf "    service TCP"].

Definition acl_any_any_tcp : acl :=
  mkAcl (Some "LAN") (Some "WAN") (Some "allow") None (Some (Str "any")) None
        (Some (Str "any")) (Some []).

(** The record [parse_rules] writes for a rule it leaves with [msg]. *)
Definition rule_journal_record (rule : IOSCfgLine) (msg : string) : string :=
  text rule +:+ " -> " +:+ msg +:+ " " +:+ nl.
(** * Properties *)

(** ** The string methods on small inputs *)

Example replace_ex1 : PyStr.replace "." "_" "a.b.c" = "a_b_c".
Proof. reflexivity. Qed.
Example replace_ex2 : PyStr.replace "name " EmptyString "name host name x" = "host x".
Proof. reflexivity. Qed.
Example replace_ex3 : PyStr.replace "aa" "b" "aaaaa" = "bba".
Proof. reflexivity. Qed.
Example split_ex1 : PyStr.split "  range 10.0.0.1   10.0.0.4 " = ["range"; "10.0.0.1"; "10.0.0.4"].
Proof. reflexivity. Qed.
Example strip_ex1 : PyStr.strip "  a b  " = "a b".
Proof. reflexivity. Qed.
Example contains_ex1 : PyStr.contains "any" "Germany-Net" = true.
Proof. reflexivity. Qed.
Example split_on_ex1 : PyStr.split_on "." "10.0..1" = ["10"; "0"; EmptyString; "1"].
Proof. reflexivity. Qed.

Example summarize_ex1 :
  map Ipaddress.str_network <$> Ipaddress.summarize_address_range 167772161 167772164
  = Return ["10.0.0.1/32"; "10.0.0.2/31"; "10.0.0.4/32"].
Proof. reflexivity. Qed.

Example summarize_ex2 :
  map Ipaddress.str_network <$> Ipaddress.summarize_address_range 0 Ipaddress.ALL_ONES
  = Return ["0.0.0.0/0"].
Proof. vm_compute. reflexivity. Qed.

Example summarize_ex3 :
  length <$> Ipaddress.summarize_address_range 1 (Ipaddress.ALL_ONES - 1)
  = Return 62%nat.
Proof. vm_compute. reflexivity. Qed.

Example IPv4Address_ex1 : Ipaddress.IPv4Address "10.0.0.4" = Return 167772164.
Proof. reflexivity. Qed.

Example IPv4Address_ex2 : Ipaddress.IPv4Address "10.0.00.4" = Raise AddressValueError.
Proof. reflexivity. Qed.

(** ** The cover of an address range *)

Section IpaddressFacts.
Import Ipaddress.

Lemma rzmask_even q : rzmask (2 * q) = 2 * rzmask q + 1.
Proof.
  apply Z.bits_inj'. intros i Hi. unfold rzmask.
  rewrite Z.land_spec, Z.lnot_spec by lia.
  destruct (Z.eq_dec i 0) as [->|Hne].
  - rewrite Z.testbit_even_0, Z.testbit_odd_0.
    replace (2 * q - 1) with (2 * (q - 1) + 1) by lia.
    now rewrite Z.testbit_odd_0.
  - replace i with (Z.succ (i - 1)) by lia.
    replace (2 * q - 1) with (2 * (q - 1) + 1) by lia.
    rewrite Z.testbit_even_succ, !Z.testbit_odd_succ by lia.
    now rewrite Z.land_spec, Z.lnot_spec by lia.
Qed.

Lemma rzmask_odd q : rzmask (2 * q + 1) = 0.
Proof.
  apply Z.bits_inj'. intros i Hi. unfold rzmask.
  rewrite Z.land_spec, Z.lnot_spec, Z.bits_0 by lia.
  destruct (Z.eq_dec i 0) as [->|Hne].
  - now rewrite Z.testbit_odd_0.
  - replace i with (Z.succ (i - 1)) by lia.
    replace (2 * q + 1 - 1) with (2 * q) by lia.
    rewrite Z.testbit_even_succ, !Z.testbit_odd_succ by lia.
    destruct (Z.testbit q (i - 1)); reflexivity.
Qed.

Lemma rzmask_pos (p : positive) :
  exists k, 0 <= k /\ rzmask (Z.pos p) = 2 ^ k - 1
            /\ (2 ^ k | Z.pos p) /\ ~ (2 ^ (k + 1) | Z.pos p).
Proof.
  induction p as [q _|q IH|].
  - exists 0. rewrite Pos2Z.inj_xI, rzmask_odd. repeat split; try lia.
    + apply Z.divide_1_l.
    + intros [x Hx]. change (2 ^ (0 + 1)) with 2 in Hx. lia.
  - destruct IH as (k & Hk & Hm & Hd & Hn). exists (k + 1).
    rewrite Pos2Z.inj_xO, rzmask_even, Hm. repeat split; try lia.
    + rewrite Z.pow_add_r by lia. change (2 ^ 1) with 2. lia.
    + rewrite Z.pow_add_r by lia. change (2 ^ 1) with 2.
      destruct Hd as [x Hx]. exists x. lia.
    + intros [x Hx]. apply Hn. exists x.
      rewrite (Z.pow_add_r 2 (k + 1) 1) in Hx by lia. change (2 ^ 1) with 2 in Hx. lia.
  - exists 0. change (Z.pos 1) with (2 * 0 + 1). rewrite rzmask_odd. repeat split; try lia.
    + apply Z.divide_1_l.
    + intros [x Hx]. change (2 ^ (0 + 1)) with 2 in Hx. lia.
Qed.

Lemma bit_length_pred_pow2 k : 0 <= k -> bit_length (2 ^ k - 1) = k.
Proof.
  intros Hk. unfold bit_length.
  destruct (Z.eq_dec k 0) as [->|Hne]; [reflexivity|].
  assert (2 <= 2 ^ k) by (change 2 with (2 ^ 1) at 1; apply Z.pow_le_mono_r; lia).
  destruct (Z.eqb_spec (2 ^ k - 1) 0); [lia|].
  rewrite Z.abs_eq by lia.
  change (2 ^ k - 1) with (Z.pred (2 ^ k)). rewrite Z.log2_pred_pow2 by lia. lia.
Qed.

Lemma pow2_divide j k : 0 <= j <= k -> (2 ^ j | 2 ^ k).
Proof.
  intros H. exists (2 ^ (k - j)). rewrite <- Z.pow_add_r by lia. f_equal. lia.
Qed.

Lemma pow2_le_divide j k n :
  0 <= j <= k -> (2 ^ k | n) -> (2 ^ j | n).
Proof. intros H Hd. eapply Z.divide_trans; [apply pow2_divide; eassumption | exact Hd]. Qed.


Lemma pow2_divide_le j k n :
  0 <= j -> 0 <= k -> (2 ^ j | n) -> ~ (2 ^ (k + 1) | n) -> j <= k.
Proof.
  intros Hj Hk Hd Hn. destruct (Z_le_gt_dec j k); [assumption|].
  exfalso. apply Hn. apply pow2_le_divide with j; [lia | assumption].
Qed.

Section crz.
Variables (n bits : Z).
Hypothesis Hn : 0 <= n.
Hypothesis Hbits : 0 <= bits.

Lemma crz_range : 0 <= count_righthand_zero_bits n bits <= bits.
Proof.
  unfold count_righthand_zero_bits. destruct (Z.eqb_spec n 0); [lia|].
  destruct n as [|p|p]; try lia.
  destruct (rzmask_pos p) as (k & Hk & Hm & _). fold (rzmask (Z.pos p)).
  rewrite Hm, bit_length_pred_pow2 by assumption. lia.
Qed.

Lemma crz_divide : (2 ^ count_righthand_zero_bits n bits | n).
Proof.
  unfold count_righthand_zero_bits. destruct (Z.eqb_spec n 0) as [->|Hne].
  - apply Z.divide_0_r.
  - destruct n as [|p|p]; try lia.
    destruct (rzmask_pos p) as (k & Hk & Hm & Hd & _). fold (rzmask (Z.pos p)).
    rewrite Hm, bit_length_pred_pow2 by assumption.
    apply pow2_le_divide with k; [lia | assumption].
Qed.

Lemma crz_max j : 0 <= j <= bits -> (2 ^ j | n) -> j <= count_righthand_zero_bits n bits.
Proof.
  intros Hj Hd. unfold count_righthand_zero_bits. destruct (Z.eqb_spec n 0) as [->|Hne]; [lia|].
  destruct n as [|p|p]; try lia.
  destruct (rzmask_pos p) as (k & Hk & Hm & _ & Hnd). fold (rzmask (Z.pos p)).
  rewrite Hm, bit_length_pred_pow2 by assumption.
  assert (j <= k) by (apply pow2_divide_le with (Z.pos p); lia || assumption).
  lia.
Qed.

End crz.

Lemma bit_length_spec len :
  0 < len -> 0 <= bit_length len - 1 /\ 2 ^ (bit_length len - 1) <= len < 2 ^ bit_length len.
Proof.
  intros H. unfold bit_length. destruct (Z.eqb_spec len 0); [lia|].
  rewrite Z.abs_eq by lia.
  pose proof (Z.log2_nonneg len). pose proof (Z.log2_spec len H) as Hs.
  replace (Z.log2 len + 1 - 1) with (Z.log2 len) by lia.
  replace (Z.log2 len + 1) with (Z.succ (Z.log2 len)) by lia. lia.
Qed.

Lemma netmask_testbit p i :
  0 <= p <= 32 -> 0 <= i ->
  Z.testbit (ip_int_from_prefix p) i = (32 - p <=? i) && (i <? 32).
Proof.
  intros Hp Hi. unfold ip_int_from_prefix, ALL_ONES, IPV4LENGTH.
  change (2 ^ 32 - 1) with (Z.ones 32).
  rewrite Z.lxor_spec, Z.shiftr_spec, !Z.testbit_ones_nonneg by lia.
  destruct (Z.ltb_spec i 32), (Z.ltb_spec (i + p) 32), (Z.leb_spec (32 - p) i);
    simpl; try reflexivity; lia.
Qed.

Lemma land_netmask addr nbits :
  0 <= addr <= ALL_ONES -> 0 <= nbits <= 32 -> (2 ^ nbits | addr) ->
  Z.land addr (ip_int_from_prefix (32 - nbits)) = addr.
Proof.
  intros Ha Hn [q Hq]. apply Z.bits_inj'. intros i Hi.
  rewrite Z.land_spec, netmask_testbit by lia.
  replace (32 - (32 - nbits)) with nbits by lia.
  destruct (Z.leb_spec nbits i) as [Hle|Hlt]; simpl.
  - destruct (Z.ltb_spec i 32) as [Hlt|Hge]; simpl; [apply andb_true_r|].
    rewrite andb_false_r. symmetry.
    destruct (Z.eq_dec addr 0) as [->|Hne]; [apply Z.bits_0|].
    apply Z.bits_above_log2; [lia|].
    apply Z.log2_lt_pow2; [lia|].
    unfold ALL_ONES, IPV4LENGTH in Ha.
    eapply Z.lt_le_trans with (2 ^ 32); [lia|]. apply Z.pow_le_mono_r; lia.
  - rewrite andb_false_r. symmetry. rewrite Hq. apply Z.mul_pow2_bits_low. lia.
Qed.

Lemma make_network_ok addr nbits :
  0 <= addr <= ALL_ONES -> 0 <= nbits <= 32 -> (2 ^ nbits | addr) ->
  make_network addr (IPV4LENGTH - nbits) = Return (mkNet addr (IPV4LENGTH - nbits)).
Proof.
  intros Ha Hn Hd. unfold make_network, IPV4LENGTH.
  destruct (Z.ltb_spec addr 0); [lia|]. destruct (Z.ltb_spec ALL_ONES addr); [lia|]. simpl.
  destruct (Z.leb_spec 0 (32 - nbits)); [|lia]. destruct (Z.leb_spec (32 - nbits) 32); [|lia]. simpl.
  rewrite land_netmask by assumption. now rewrite Z.eqb_refl.
Qed.

Lemma nbits_at_spec first last :
  0 <= first <= last -> last <= ALL_ONES ->
  let n := nbits_at first last in
  0 <= n <= 32 /\ (2 ^ n | first) /\ first + 2 ^ n <= last + 1 /\
  (forall k, 0 <= k -> (2 ^ k | first) -> first + 2 ^ k <= last + 1 -> k <= n).
Proof.
  intros Hf Hl n. subst n. unfold nbits_at, IPV4LENGTH.
  pose proof (crz_range first 32 ltac:(lia) ltac:(lia)) as Hr.
  pose proof (crz_divide first 32 ltac:(lia) ltac:(lia)) as Hd.
  pose proof (bit_length_spec (last - first + 1) ltac:(lia)) as (HL0 & HL1 & HL2).
  set (A := count_righthand_zero_bits first 32) in *.
  set (L := bit_length (last - first + 1) - 1) in *.
  assert (HL32 : L <= 32).
  { destruct (Z_le_gt_dec L 32); [assumption|].
    assert (2 ^ 33 <= 2 ^ L) by (apply Z.pow_le_mono_r; lia).
    unfold ALL_ONES, IPV4LENGTH in Hl. lia. }
  repeat split; try lia.
  - apply pow2_le_divide with A; [lia | assumption].
  - assert (2 ^ Z.min A L <= 2 ^ L) by (apply Z.pow_le_mono_r; lia). lia.
  - intros k Hk Hkd Hfit.
    assert (HkL : k <= L).
    { destruct (Z_le_gt_dec k L); [assumption|].
      assert (2 ^ (L + 1) <= 2 ^ k) by (apply Z.pow_le_mono_r; lia).
      replace (bit_length (last - first + 1)) with (L + 1) in HL2 by (subst L; lia). lia. }
    assert (k <= A) by (apply crz_max; lia || assumption).
    lia.
Qed.

Lemma summarize_loop_unfold fuel first last :
  0 <= first <= last -> last <= ALL_ONES ->
  summarize_loop (S fuel) first last =
    let n := nbits_at first last in
    let net := mkNet first (IPV4LENGTH - n) in
    if first + 2 ^ n - 1 =? ALL_ONES then Return [net]
    else rest ← summarize_loop fuel (first + 2 ^ n) last; Return (net :: rest).
Proof.
  intros Hf Hl. destruct (nbits_at_spec first last Hf Hl) as (Hn & Hd & _).
  cbn [summarize_loop]. fold (nbits_at first last).
  destruct (Z.leb_spec first last); [|lia].
  rewrite make_network_ok by (lia || assumption).
  rewrite Z.shiftl_1_l. reflexivity.
Qed.

Lemma potential_range first last :
  0 <= first -> last <= ALL_ONES -> 0 <= potential first last <= 66.
Proof.
  intros Hf Hl. unfold potential, IPV4LENGTH.
  destruct (Z.ltb_spec last first); [lia|].
  pose proof (crz_range first 32 ltac:(lia) ltac:(lia)).
  destruct (nbits_at_spec first last ltac:(lia) Hl) as (Hn & _).
  unfold nbits_at, IPV4LENGTH in Hn.
  destruct (Z.leb_spec (count_righthand_zero_bits first 32)
              (bit_length (last - first + 1) - 1)); lia.
Qed.

Lemma potential_decreases first last :
  0 <= first <= last -> last <= ALL_ONES ->
  first + 2 ^ nbits_at first last - 1 <> ALL_ONES ->
  potential (first + 2 ^ nbits_at first last) last < potential first last.
Proof.
  intros Hf Hl Hbrk.
  destruct (nbits_at_spec first last Hf Hl) as (Hn & Hd & Hfit & Hmax).
  set (n := nbits_at first last) in *.
  assert (Hpn : 0 < 2 ^ n) by (apply Z.pow_pos_nonneg; lia).
  set (first' := first + 2 ^ n) in *.
  unfold potential at 1. destruct (Z.ltb_spec last first') as [Hdone|Hmore].
  { unfold potential. destruct (Z.ltb_spec last first); [lia|].
    pose proof (crz_range first IPV4LENGTH ltac:(lia) ltac:(unfold IPV4LENGTH; lia)).
    pose proof (bit_length_spec (last - first + 1) ltac:(lia)).
    unfold IPV4LENGTH in *.
    destruct (Z.leb_spec (count_righthand_zero_bits first 32)
                (bit_length (last - first + 1) - 1)); lia. }
  pose proof (crz_range first' 32 ltac:(lia) ltac:(lia)) as HrA'.
  pose proof (bit_length_spec (last - first' + 1) ltac:(lia)) as (HL0' & HL1' & HL2').
  pose proof (crz_range first 32 ltac:(lia) ltac:(lia)) as HrA.
  pose proof (crz_divide first 32 ltac:(lia) ltac:(lia)) as HdA.
  pose proof (bit_length_spec (last - first + 1) ltac:(lia)) as (HL0 & HL1 & HL2).
  unfold potential. destruct (Z.ltb_spec last first); [lia|].
  unfold IPV4LENGTH in *.
  fold first'.
  set (A := count_righthand_zero_bits first 32) in *.
  set (L := bit_length (last - first + 1) - 1) in *.
  set (A' := count_righthand_zero_bits first' 32) in *.
  set (L' := bit_length (last - first' + 1) - 1) in *.
  assert (HnAL : n = Z.min A L) by reflexivity.
  assert (HL'32 : L' <= 32).
  { destruct (Z_le_gt_dec L' 32); [assumption|].
    assert (2 ^ 33 <= 2 ^ L') by (apply Z.pow_le_mono_r; lia).
    unfold ALL_ONES, IPV4LENGTH in Hl. lia. }
  destruct (Z.leb_spec A L) as [Hph1|Hph2].
  - (* the alignment of [first] limits the block *)
    assert (n = A) by lia.
    assert (A' >= A + 1).
    { assert (A <= 31).
      { destruct (Z_le_gt_dec A 31); [assumption|]. exfalso.
        assert (A = 32) by lia.
        destruct HdA as [q Hq]. replace A with 32 in Hq by lia.
        unfold ALL_ONES, IPV4LENGTH in *.
        assert (q = 0) by nia. subst q. apply Hbrk. subst first'.
        replace n with 32 by lia. lia. }
      enough (A + 1 <= A') by lia. apply crz_max; try lia.
      assert (Hodd : ~ (2 ^ (A + 1) | first)).
      { intros Hc. assert (A + 1 <= A) by (apply crz_max; try lia; exact Hc). lia. }
      destruct HdA as [q Hq]. subst first'. replace n with A by lia.
      rewrite Z.pow_add_r by lia. change (2 ^ 1) with 2.
      destruct (Z.Even_or_Odd q) as [[r Hr]|[r Hr]].
      - exfalso. apply Hodd. exists r. rewrite Z.pow_add_r by lia. change (2 ^ 1) with 2. lia.
      - exists (r + 1). lia. }
    destruct (Z.leb_spec A' L'); lia.
  - (* the length of what is left limits the block *)
    assert (n = L) by lia.
    assert (L' < L).
    { enough (L' < L) by lia.
      destruct (Z_lt_le_dec L' L); [assumption|]. exfalso.
      assert (2 ^ L <= 2 ^ L') by (apply Z.pow_le_mono_r; lia).
      replace (bit_length (last - first + 1)) with (L + 1) in HL2 by (subst L; lia).
      rewrite Z.pow_add_r in HL2 by lia. change (2 ^ 1) with 2 in HL2.
      subst first'. replace n with L in * by lia. lia. }
    assert (L <= A').
    { apply crz_max; try lia. subst first'. replace n with L by lia.
      apply Z.divide_add_r; [|apply Z.divide_refl].
      apply pow2_le_divide with A; [lia | assumption]. }
    destruct (Z.leb_spec A' L'); lia.
Qed.

Lemma summarize_loop_greedy fuel : forall first last,
  0 <= first <= last + 1 -> last <= ALL_ONES ->
  potential first last < Z.of_nat fuel ->
  exists nets, summarize_loop fuel first last = Return nets /\ greedy_tiles first nets last.
Proof.
  induction fuel as [|fuel IH]; intros first last Hf Hl Hpot.
  { pose proof (potential_range first last ltac:(lia) Hl). lia. }
  destruct (Z.eq_dec first (last + 1)) as [Heq|Hne].
  { exists []. split; [|exact Heq]. cbn [summarize_loop].
    destruct (Z.leb_spec first last); [lia | reflexivity]. }
  rewrite summarize_loop_unfold by lia.
  destruct (nbits_at_spec first last ltac:(lia) Hl) as (Hn & Hd & Hfit & Hmax).
  cbv zeta. destruct (Z.eqb_spec (first + 2 ^ nbits_at first last - 1) ALL_ONES) as [Hbrk|Hbrk].
  - eexists. split; [reflexivity|]. cbn [greedy_tiles].
    exists (nbits_at first last). repeat split; try assumption; try lia.
  - assert (0 < 2 ^ nbits_at first last) by (apply Z.pow_pos_nonneg; lia).
    pose proof (potential_decreases first last ltac:(lia) Hl Hbrk).
    destruct (IH (first + 2 ^ nbits_at first last) last) as (rest & Hrest & Htiles); try lia.
    rewrite Hrest. eexists. split; [reflexivity|]. cbn [greedy_tiles].
    exists (nbits_at first last). repeat split; try assumption; try lia.
Qed.

Lemma block_size_mk first n : block_size (mkNet first (IPV4LENGTH - n)) = 2 ^ n.
Proof. unfold block_size. cbn. f_equal. lia. Qed.










Lemma summarize_address_range_greedy first last :
  0 <= first <= last -> last <= ALL_ONES ->
  exists nets, summarize_address_range first last = Return nets /\ greedy_tiles first nets last.
Proof.
  intros Hf Hl. unfold summarize_address_range.
  destruct (Z.ltb_spec last first); [lia|].
  apply summarize_loop_greedy; [lia | assumption |].
  pose proof (potential_range first last ltac:(lia) Hl). unfold summarize_fuel. lia.
Qed.

(** The loop never runs out of its bound on 32-bit addresses. *)
Lemma summarize_loop_terminates first last :
  0 <= first <= last -> last <= ALL_ONES ->
  summarize_loop summarize_fuel first last <> OutOfFuel.
Proof.
  intros Hf Hl.
  destruct (summarize_loop_greedy summarize_fuel first last) as (nets & Hn & _);
    [lia | assumption | | congruence].
  pose proof (potential_range first last ltac:(lia) Hl). unfold summarize_fuel. lia.
Qed.

Lemma int_of_digits_nonneg s : forall acc,
  0 <= acc -> all_digits s = true -> 0 <= int_of_digits acc s.
Proof.
  induction s as [|c s IH]; intros acc Hacc Hd; cbn in *; [assumption|].
  apply andb_true_iff in Hd as [Hc Hs]. apply IH; [|assumption].
  unfold isdigit in Hc. apply andb_true_iff in Hc as [H1 H2].
  apply Nat.leb_le in H1. lia.
Qed.

Lemma parse_octet_range s v : parse_octet s = Return v -> 0 <= v <= 255.
Proof.
  unfold parse_octet. destruct s as [|c0 s']; [discriminate|].
  destruct (all_digits (String c0 s')) eqn:Hd; [|discriminate]. cbn [negb].
  destruct (3 <? String.length (String c0 s'))%nat; [discriminate|].
  destruct (negb (String c0 s' =? "0")%string && (c0 =? "0")%char); [discriminate|].
  destruct (Z.ltb_spec 255 (int_of_digits 0 (String c0 s'))); [discriminate|].
  intros [= <-]. split; [|assumption].
  apply (int_of_digits_nonneg (String c0 s') 0); [lia | exact Hd].
Qed.

Lemma IPv4Address_range s v : IPv4Address s = Return v -> 0 <= v <= ALL_ONES.
Proof.
  unfold IPv4Address. destruct (PyStr.contains "/" s); [discriminate|].
  destruct s as [|c0 s']; [discriminate|].
  destruct (PyStr.split_on "." (String c0 s')) as [|o1 [|o2 [|o3 [|o4 [|o5 l]]]]]; try discriminate.
  destruct (parse_octet o1) as [a| |] eqn:H1; try discriminate.
  destruct (parse_octet o2) as [b| |] eqn:H2; try discriminate.
  destruct (parse_octet o3) as [c| |] eqn:H3; try discriminate.
  destruct (parse_octet o4) as [d| |] eqn:H4; try discriminate.
  apply parse_octet_range in H1, H2, H3, H4. intros [= <-].
  unfold ALL_ONES, IPV4LENGTH. change (2 ^ 32 - 1) with 4294967295. lia.
Qed.

End IpaddressFacts.

(** ** Range stanzas *)

Section RangeStanza.
Import Ipaddress.

Lemma foldM_app {A S} (f : S -> A -> outcome S) (l1 l2 : list A) : forall s,
  foldM f (l1 ++ l2) s = (s' ← foldM f l1 s; foldM f l2 s').
Proof.
  induction l1 as [|x l1 IH]; intros s; cbn; [reflexivity|].
  destruct (f s x) as [s1| |]; cbn; [apply IH | reflexivity | reflexivity].
Qed.

Lemma haskey_false {V} (d : gmap string V) k : d !! k = None -> PyStr.haskey d k = false.
Proof. unfold PyStr.haskey. now intros ->. Qed.

Lemma haskey_true {V} (d : gmap string V) k v : d !! k = Some v -> PyStr.haskey d k = true.
Proof. unfold PyStr.haskey. now intros ->. Qed.

Lemma object_line_inert m l :
  inert_line l = true ->
  exists m', object_line m l = Return m' /\
    mx_name m' = mx_name m /\ mx_category m' = mx_category m /\
    mx_type m' = mx_type m /\ mx_range m' = mx_range m /\ mx_cidr m' = mx_cidr m.
Proof.
  unfold inert_line, object_line.
  destruct (PyStr.split (text l)) as [|c0 rest]; [discriminate|]. cbn.
  intros H. repeat (apply andb_true_iff in H as [H ?]).
  destruct (String.eqb c0 "host"); [discriminate|].
  destruct (String.eqb c0 "network"); [discriminate|].
  destruct (String.eqb c0 "range"); [discriminate|].
  destruct (String.eqb c0 "zone").
  - destruct rest as [|c1 rest]; [discriminate|]. cbn. eexists. repeat split.
  - eexists. repeat split.
Qed.

Lemma foldM_object_line_inert ls : forall m,
  forallb inert_line ls = true ->
  exists m', foldM object_line ls m = Return m' /\
    mx_name m' = mx_name m /\ mx_category m' = mx_category m /\
    mx_type m' = mx_type m /\ mx_range m' = mx_range m /\ mx_cidr m' = mx_cidr m.
Proof.
  induction ls as [|l ls IH]; intros m H; cbn in *.
  - exists m. repeat split.
  - apply andb_true_iff in H as [Hl Hls].
    destruct (object_line_inert m l Hl) as (m1 & -> & E1 & E2 & E3 & E4 & E5). cbn.
    destruct (IH m1 Hls) as (m2 & -> & F1 & F2 & F3 & F4 & F5).
    exists m2. repeat split; congruence.
Qed.



Lemma create_range_objects_spec ranges : forall d name category type idx,
  let rpo := range_policy_objects (next_id d) name category type idx ranges in
  create_range_objects d name category type idx ranges =
    (po_id <$> rpo,
     mkDashboard (next_id d + Z.of_nat (length ranges)) (policy_objects d ++ rpo)
       (policy_object_groups d)).
Proof.
  induction ranges as [|ip rest IH]; intros d name category type idx; cbn.
  - rewrite Z.add_0_r, app_nil_r. now destruct d.
  - rewrite IH. cbn. f_equal. f_equal; [lia|]. now rewrite <- app_assoc.
Qed.




Example range_stanza_scenario :
  (w ← ipv4_object_step (mkWorld empty_tables empty_dashboard EmptyString) R1_stanza;
   Return (map (fun o => (po_name o, po_value o)) (policy_objects (dash w)),
           map (fun g => (pg_name g, pg_objectIds g)) (policy_object_groups (dash w)),
           map_to_list (range_objects (tbl w))))
  = Return ([("R1__range__0", "10.0.0.1/32"); ("R1__range__1", "10.0.0.2/31");
             ("R1__range__2", "10.0.0.4/32")],
            [("R1__range__", ["1"; "2"; "3"])],
            [("R1__range__", "4")]).
Proof. vm_compute. reflexivity. Qed.

End RangeStanza.

(** ** Rule slots *)




Example any_in_service_name :
  service_parser tables_with_any_names "name Company" empty_acl
  = Return ("Success", set_services [("any", "any"); ("TCP", "8080")] empty_acl).
Proof. vm_compute. reflexivity. Qed.

Example any_in_source_name_of_a_rule :
  parse_fields tables_with_any_names
    (CfgLine "access-rule ipv4 from LAN to WAN action allow"
       [leaf "    source address name Germany-Net";
        leaf "    destination address name Germany-Net";
        leaf "    service name Company"])
  = Return (Continue
      (mkAcl (Some "LAN") (Some "WAN") (Some "allow") None (Some (Str "any")) None
             (Some (Str "any")) (Some [("any", "any"); ("TCP", "8080")]))).
Proof. vm_compute. reflexivity. Qed.

(** C6: a group that holds an ICMP and an ICMPV6 primitive comes out of the
    combine step with one of the two only, the one met last. *)
Theorem combine_keeps_one_icmp_variant :
  combine_like_services icmp_both = [("ICMPV6", "N/A")] /\
  combine_like_services (rev icmp_both) = [("ICMP", "N/A")].
Proof. split; vm_compute; reflexivity. Qed.

Example combine_scenario :
  combine_like_services [("TCP", "80"); ("TCP", "443"); ("UDP", "53"); ("TCP", "1000-2000")]
  = [("TCP", "1000-2000"); ("TCP", "80,443"); ("UDP", "53")].
Proof. vm_compute. reflexivity. Qed.

(** C10: with [GR__range__] a key of [range_object_groups], the reference
    [group GR] resolves in the source slot and does not in the destination
    slot, which tests [range_objects] instead and, when the test passes,
    raises. *)
Theorem destination_range_group_not_resolved :
  (w ← create_objects empty_tables empty_dashboard config_range_group;
   Return (range_object_groups (tbl w) !! "GR__range__",
           source_parser (tbl w) "group GR" empty_acl,
           destination_parser (tbl w) "group GR" empty_acl))
  = Return (Some (["1"], ["5"]),
            Return ("Success", set_src (StrList ["OBJ[1]"; "GRP[5]"]) empty_acl),
            Return ("No valid Destination Object Group exists (group contains no valid objects)",
                    empty_acl))
  /\
  (w ← create_objects empty_tables empty_dashboard config_range_group_clash;
   Return (range_object_groups (tbl w) !! "GR__range__",
           source_parser (tbl w) "group GR" empty_acl,
           destination_parser (tbl w) "group GR" empty_acl))
  = Return (Some (["3"], ["7"]),
            Return ("Success", set_src (StrList ["OBJ[3]"; "GRP[7]"]) empty_acl),
            Raise TypeError).
Proof. split; vm_compute; reflexivity. Qed.

(** C8: the wildcard mask of a 17-bit prefix is not a key of the table (the
    table has [0.0.0.127.255] in its place), and a [network] line whose mask
    is not a key raises [KeyError]: the object is neither built nor
    journaled. *)
Theorem network_mask_lookup_raises :
  SUBNET_MASKS !! "0.0.127.255" = None /\
  SUBNET_MASKS !! "0.0.0.127.255" = Some "17" /\
  build_mx_object empty_tables OT_object stanza_wildcard_17 EmptyString
    = Raise (KeyError "0.0.127.255") /\
  build_mx_object empty_tables OT_object stanza_bad_mask EmptyString
    = Raise (KeyError "255.0.255.0") /\
  create_objects empty_tables empty_dashboard [stanza_wildcard_17; stanza_mask_24]
    = Raise (KeyError "0.0.127.255").
Proof. repeat split; vm_compute; reflexivity. Qed.

(** The table maps the subnet mask of every prefix length from 1 to 32 to
    that length, and the wildcard mask of every one of them but 17. *)
Example subnet_masks_of_the_table :
  size SUBNET_MASKS = 64%nat /\
  prefixes_missing subnet_mask = [] /\
  prefixes_missing wildcard_mask = [17].
Proof. repeat split; vm_compute; reflexivity. Qed.

Example network_mask_24 :
  (r ← build_mx_object empty_tables OT_object stanza_mask_24 EmptyString;
   Return (r.1 ≫= mx_cidr))
  = Return (Some "10.1.2.0/24").
Proof. vm_compute. reflexivity. Qed.

(** C4: the name of an IPv6 group keeps its dots where it is defined and
    loses them where a rule refers to it, and the name of an IPv4 object
    keeps a star that a rule reference replaces; neither reference finds
    the entity.  The FQDN object, sanitized alike at both sites, is found. *)
Theorem sanitization_differs_between_sites :
  (w ← create_objects empty_tables empty_dashboard config_dotted_names;
   Return (map_to_list (objects (tbl w)),
           map_to_list (fqdn_objects (tbl w)),
           map_to_list (fqdn_object_groups (tbl w)),
           fst <$> destination_parser (tbl w) "group web.servers" empty_acl,
           fst <$> source_parser (tbl w) "name srv*1" empty_acl,
           destination_parser (tbl w) "name www.example.com" empty_acl))
  = Return ([("srv*1", "1")], [("www_example_com", "2")], [("web.servers", "3")],
            Return "No valid Destination Object Group exists (group contains no valid objects)",
            Return "No valid Source Object exists",
            Return ("Success", set_dst (Str "OBJ[2]") empty_acl)).
Proof. vm_compute. reflexivity. Qed.

(** ** The Default-Zone Map *)

Lemma zone_cell_insert_row (m : gmap string (gmap string string)) sz dz v row s d :
  m !! sz = Some row -> (s, d) <> (sz, dz) ->
  zone_cell (<[sz := <[dz := v]> row]> m) s d = zone_cell m s d.
Proof.
  intros Hrow Hne. unfold zone_cell.
  destruct (decide (s = sz)) as [->|Hs].
  - rewrite lookup_insert_eq, Hrow. cbn.
    apply lookup_insert_ne. intros ->. now apply Hne.
  - now rewrite lookup_insert_ne by congruence.
Qed.

(** C3, as the code has it: a rule whose source, destination and first
    service are the literal any is answered with the any-rule message, so no
    dictionary reaches [acl_list] and no firewall rule is built from it.  When
    both zones are keys of the Default-Zone Map, the cell of the pair is set
    to [allow] for the action [allow] and to [deny] for any other action, and
    no other cell changes; when one of them is not a key, the map is left as
    it is. *)
Theorem any_rule_goes_to_zone_map
    (t : tables) (dzm : gmap string (gmap string string)) (line : IOSCfgLine)
    (a : acl) (action sz dz : string) (rest : list service) :
  parse_fields t line = Return (Continue a) ->
  acl_action a = Some action -> acl_src_zone a = Some sz -> acl_dst_zone a = Some dz ->
  acl_src a = Some (Str "any") -> acl_dst a = Some (Str "any") ->
  acl_services a = Some (("any", "any") :: rest) ->
  exists dzm',
    parse_line t dzm line = Return (Msg any_any_any_any, dzm') /\
    (forall st, zone_map st = dzm ->
       parse_rule_step t st line
         = Return (mkRules (acl_list st) dzm' (unprocessed_rules st))) /\
    (forall s d, (s, d) <> (sz, dz) -> zone_cell dzm' s d = zone_cell dzm s d) /\
    (if PyStr.haskey dzm sz && PyStr.haskey dzm dz
     then zone_cell dzm' sz dz = Some (if String.eqb action "allow" then "allow" else "deny")
     else dzm' = dzm).
Proof.
  intros Hf Hact Hsz Hdz Hsrc Hdst Hsvc.
  assert (Hline : forall dzm', 
    finish_line dzm a = Return (Msg any_any_any_any, dzm') ->
    parse_line t dzm line = Return (Msg any_any_any_any, dzm') /\
    (forall st, zone_map st = dzm ->
       parse_rule_step t st line
         = Return (mkRules (acl_list st) dzm' (unprocessed_rules st)))).
  { intros dzm' Hfin.
    assert (Hp : parse_line t dzm line = Return (Msg any_any_any_any, dzm')).
    { unfold parse_line. rewrite Hf. cbn. exact Hfin. }
    split; [exact Hp|]. intros st <-. unfold parse_rule_step. rewrite Hp. cbn.
    rewrite ?String.eqb_refl. reflexivity. }
  unfold finish_line in Hline. rewrite Hact, Hsrc, Hdst, Hsvc, Hsz, Hdz in Hline. cbn in Hline.
  unfold PyStr.haskey at 1. destruct (dzm !! sz) as [row|] eqn:Hrow.
  - destruct (PyStr.haskey dzm dz) eqn:Hk; cbn [andb].
    + eexists. split; [|split; [|split]]; try (apply Hline; reflexivity).
      * intros s d Hne. now apply zone_cell_insert_row.
      * unfold zone_cell. rewrite lookup_insert_eq. cbn. apply lookup_insert_eq.
    + exists dzm. split; [|split; [|split]]; try (apply Hline; reflexivity); reflexivity.
  - exists dzm. cbn [andb]. split; [|split; [|split]]; try (apply Hline; reflexivity); reflexivity.
Qed.

Lemma any_rule_goes_to_zone_map_witness :
  exists dzm',
    parse_line empty_tables (initial_zone_map [("LAN", "10"); ("WAN", EmptyString)]) rule_any_any_discard
      = Return (Msg any_any_any_any, dzm') /\
    (forall st, zone_map st = initial_zone_map [("LAN", "10"); ("WAN", EmptyString)] ->
       parse_rule_step empty_tables st rule_any_any_discard
         = Return (mkRules (acl_list st) dzm' (unprocessed_rules st))) /\
    (forall s d, (s, d) <> ("LAN", "WAN") ->
       zone_cell dzm' s d
       = zone_cell (initial_zone_map [("LAN", "10"); ("WAN", EmptyString)]) s d) /\
    zone_cell dzm' "LAN" "WAN" = Some "deny".
Proof.
  apply (any_rule_goes_to_zone_map empty_tables
           (initial_zone_map [("LAN", "10"); ("WAN", EmptyString)]) rule_any_any_discard
           (mkAcl (Some "LAN") (Some "WAN") (Some "discard") None (Some (Str "any")) None
                  (Some (Str "any")) (Some [("any", "any")]))
           "discard" "LAN" "WAN" []); reflexivity.
Defined.

Lemma rule_any_any_fields :
  parse_fields empty_tables rule_any_any
  = Return (Continue
      (mkAcl (Some "LAN") (Some "WAN") (Some "allow") None (Some (Str "any")) None
             (Some (Str "any")) (Some [("any", "any")]))).
Proof. vm_compute. reflexivity. Qed.

Lemma rule_any_any_shipped_zones :
  parse_line empty_tables (initial_zone_map ZONES) rule_any_any
  = Return (Msg any_any_any_any, initial_zone_map ZONES).
Proof. vm_compute. reflexivity. Qed.

Lemma shipped_zones_cell : zone_cell (initial_zone_map ZONES) "LAN" "WAN" = None.
Proof. vm_compute. reflexivity. Qed.

(** With the zones of [config.py] as shipped, the rule from [LAN] to [WAN]
    sets no cell at all. *)
Lemma any_rule_outside_zone_map_sets_no_cell :
  ~ (forall (t : tables) (dzm : gmap string (gmap string string)) (line : IOSCfgLine)
       (a : acl) (action sz dz : string) (rest : list service),
       parse_fields t line = Return (Continue a) ->
       acl_action a = Some action -> acl_src_zone a = Some sz -> acl_dst_zone a = Some dz ->
       acl_src a = Some (Str "any") -> acl_dst a = Some (Str "any") ->
       acl_services a = Some (("any", "any") :: rest) ->
       exists dzm',
         parse_line t dzm line = Return (Msg any_any_any_any, dzm') /\
         zone_cell dzm' sz dz = Some action).
Proof.
  intros H.
  destruct (H empty_tables (initial_zone_map ZONES) rule_any_any _
              "allow" "LAN" "WAN" [] rule_any_any_fields
              eq_refl eq_refl eq_refl eq_refl eq_refl eq_refl)
    as (dzm' & Hp & Hc).
  assert (E : dzm' = initial_zone_map ZONES).
  { pose proof rule_any_any_shipped_zones as Hrun. congruence. }
  subst dzm'. rewrite shipped_zones_cell in Hc. discriminate Hc.
Qed.

Example any_rule_scenario :
  (r ← parse_rules empty_tables (initial_zone_map [("LAN", "10"); ("WAN", EmptyString)])
         [rule_any_any];
   Return (acl_list r, zone_cell (zone_map r) "LAN" "WAN", unprocessed_rules r))
  = Return ([], Some "allow", EmptyString).
Proof. vm_compute. reflexivity. Qed.

(** ** Flattened rules *)

Lemma foldM_invariant {A S} (f : S -> A -> outcome S) (P : S -> Prop) (l : list A) :
  (forall s x s', P s -> f s x = Return s' -> P s') ->
  forall s s', P s -> foldM f l s = Return s' -> P s'.
Proof.
  intros Hstep. induction l as [|x l IH]; intros s s' Hs Hf; cbn in Hf.
  - now injection Hf as <-.
  - destruct (f s x) as [s1| |] eqn:Hx; cbn in Hf; try discriminate.
    eapply IH; [|exact Hf]. eapply Hstep; eassumption.
Qed.

Lemma foldM_invariant_in {A S} (f : S -> A -> outcome S) (P : S -> Prop) (l : list A) :
  (forall s x s', x ∈ l -> P s -> f s x = Return s' -> P s') ->
  forall s s', P s -> foldM f l s = Return s' -> P s'.
Proof.
  induction l as [|x l IH]; intros Hstep s s' Hs Hf; cbn in Hf.
  - now injection Hf as <-.
  - destruct (f s x) as [s1| |] eqn:Hx; cbn in Hf; try discriminate.
    eapply IH; [|eapply Hstep; [left|exact Hs|exact Hx]|exact Hf].
    intros s0 y s0' Hy. apply Hstep. now right.
Qed.

Lemma same_service_tables_ok t t' :
  same_service_tables t t' -> service_tables_ok t -> service_tables_ok t'.
Proof. intros (E1 & E2 & E3). unfold service_tables_ok. now rewrite E1, E2, E3. Qed.

(** Case analysis on the test or the call at the head of an equation, without
    unfolding anything else. *)
Ltac head_cases H :=
  repeat
    (cbv beta iota in H;
     match type of H with
     | (if ?c then _ else _) = _ => destruct c
     | (match ?x with _ => _ end) = _ => destruct x
     | mbind _ ?m = _ =>
         let E := fresh "E" in
         destruct m eqn:E; unfold mbind at 1, outcome_bind at 1 in H
     | Raise _ = Return _ => discriminate H
     | OutOfFuel = Return _ => discriminate H
     end).

Ltac outcome_cases H :=
  repeat match type of H with
         | context [mbind _ ?m] =>
             let E := fresh "E" in destruct m eqn:E; cbn in H; try discriminate H
         | context [match ?x with _ => _ end] =>
             let E := fresh "E" in destruct x eqn:E; cbn in H; try discriminate H
         | context [if ?x then _ else _] =>
             let E := fresh "E" in destruct x eqn:E; cbn in H; try discriminate H
         end.

Lemma ipv4_object_step_services w e w' :
  ipv4_object_step w e = Return w' -> same_service_tables (tbl w) (tbl w').
Proof.
  unfold ipv4_object_step, getkey. intros H.
  destruct (build_mx_object _ _ _ _) as [[r fp]| |]; cbn in H; try discriminate.
  outcome_cases H; injection H as <-; repeat split.
Qed.

Lemma fqdn_object_step_services w e w' :
  fqdn_object_step w e = Return w' -> same_service_tables (tbl w) (tbl w').
Proof.
  unfold fqdn_object_step, getkey. intros H.
  destruct (build_mx_object _ _ _ _) as [[r fp]| |]; cbn in H; try discriminate.
  outcome_cases H; injection H as <-; repeat split.
Qed.

Lemma ipv4_group_step_services w e w' :
  ipv4_group_step w e = Return w' -> same_service_tables (tbl w) (tbl w').
Proof.
  unfold ipv4_group_step. intros H.
  destruct (build_mx_object _ _ _ _) as [[r fp]| |]; cbn in H; try discriminate.
  outcome_cases H; injection H as <-; repeat split.
Qed.

Lemma ipv6_group_step_services w e w' :
  ipv6_group_step w e = Return w' -> same_service_tables (tbl w) (tbl w').
Proof.
  unfold ipv6_group_step, createOrganizationPolicyObjectsGroup. intros H.
  destruct (build_mx_object _ _ _ _) as [[r fp]| |]; cbn in H; try discriminate.
  destruct r as [m|]; [|injection H as <-; repeat split].
  destruct (mx_objectFQDNs m); [injection H as <-; repeat split|].
  destruct (mx_objectIds m).
  - cbn in H. injection H as <-; repeat split.
  - destruct (negb (PyStr.haskey (fqdn_object_groups (tbl w)) _));
      cbn in H; destruct (negb (PyStr.haskey _ _)) in H; cbn in H;
      injection H as <-; repeat split.
Qed.

Lemma nested_group_step_services w e w' :
  nested_group_step w e = Return w' -> same_service_tables (tbl w) (tbl w').
Proof.
  unfold nested_group_step. intros H.
  destruct (build_mx_object _ _ _ _) as [[r fp]| |]; cbn in H; try discriminate.
  outcome_cases H; injection H as <-; repeat split.
Qed.

Lemma TCP_in_table : "TCP" ∈ table_protocols.
Proof. repeat constructor. Qed.
Lemma UDP_in_table : "UDP" ∈ table_protocols.
Proof. repeat constructor. Qed.
Lemma ICMP_in_table : "ICMP" ∈ table_protocols.
Proof. repeat constructor. Qed.
Lemma ICMPV6_in_table : "ICMPV6" ∈ table_protocols.
Proof. repeat constructor. Qed.

Lemma eqb_either a b c :
  String.eqb a b || String.eqb a c = true -> a = b \/ a = c.
Proof.
  intros H. apply orb_true_iff in H as [H|H]; apply String.eqb_eq in H; auto.
Qed.

Lemma service_fields_protocol m el i m' :
  service_fields m el i = Return (Some m') ->
  exists p, mx_protocol m' = Some p /\ p ∈ table_protocols.
Proof.
  unfold service_fields, PyStr.index. intros H.
  destruct (el !! i) as [proto|]; cbn in H; try discriminate.
  destruct (String.eqb proto "TCP" || String.eqb proto "UDP") eqn:E1.
  - apply eqb_either in E1.
    destruct (el !! (i + 1)%nat); cbn in H; try discriminate.
    destruct (el !! (i + 2)%nat); cbn in H; try discriminate.
    destruct (String.eqb _ _); injection H as <-; exists proto; cbn;
      (split; [reflexivity|]); destruct E1 as [->| ->];
      [apply TCP_in_table | apply UDP_in_table | apply TCP_in_table | apply UDP_in_table].
  - destruct (String.eqb proto "ICMP" || String.eqb proto "ICMPV6") eqn:E2; [|discriminate].
    apply eqb_either in E2. injection H as <-. exists proto. cbn.
    split; [reflexivity|]. destruct E2 as [->| ->]; [apply ICMP_in_table | apply ICMPV6_in_table].
Qed.

Lemma build_service_protocol t e fp m fp' :
  build_mx_object t OT_service e fp = Return (Some m, fp') ->
  exists p, mx_protocol m = Some p /\ p ∈ table_protocols.
Proof.
  unfold build_mx_object, PyStr.index. intros H.
  destruct (PyStr.replace _ _ _) as [|c0 s]; [discriminate|].
  destruct (Ascii.eqb c0 dquote_char).
  - destruct (_ !! 1%nat); cbn in H; try discriminate.
    destruct (_ !! 2%nat); cbn in H; try discriminate.
    destruct (service_fields _ _ _) as [[m'|]| |] eqn:Hs; cbn in H; try discriminate.
    injection H as <- <-. eapply service_fields_protocol, Hs.
  - destruct (_ !! 0%nat); cbn in H; try discriminate.
    destruct (service_fields _ _ _) as [[m'|]| |] eqn:Hs; cbn in H; try discriminate.
    injection H as <- <-. eapply service_fields_protocol, Hs.
Qed.

Lemma service_object_step_ok w e w' :
  service_object_step w e = Return w' ->
  service_tables_ok (tbl w) -> service_tables_ok (tbl w').
Proof.
  unfold service_object_step, getkey. intros H (H1 & H2 & H3).
  destruct (build_mx_object _ _ _ _) as [[[m|] fp]| |] eqn:Hb; cbn in H; try discriminate.
  - destruct (build_service_protocol _ _ _ _ _ Hb) as (p & Hp & Hin).
    rewrite Hp in H. cbn in H. injection H as <-. cbn.
    split; [|split; assumption].
    intros k s Hk. cbn in Hk. apply lookup_insert_Some in Hk as [[_ <-]|[_ Hk]]; [exact Hin|].
    eapply H1, Hk.
  - injection H as <-. now split.
Qed.

Lemma service_group_line_ok t header st line st' :
  service_tables_ok t ->
  group_services_ok st -> service_group_line t header st line = Return st' ->
  group_services_ok st'.
Proof.
  intros (H1 & H2 & _) (G1 & G2). unfold service_group_line, PyStr.getitem.
  destruct st as [m fp]. intros H.
  destruct (PyStr.startswith "service-object" _).
  - destruct (negb _); [injection H as <-; now split|].
    destruct (service_objects t !! _) as [s|] eqn:Hs; cbn in H; try discriminate.
    injection H as <-. split; [|exact G2]. cbn.
    apply Forall_app. split; [exact G1|]. constructor; [|constructor]. cbn. exact (H1 _ _ Hs).
  - destruct (PyStr.startswith "service-group" _); [|injection H as <-; now split].
    destruct (negb _); [injection H as <-; now split|].
    destruct (service_object_groups t !! _) as [l|] eqn:Hl; cbn in H; try discriminate.
    injection H as <-. split; [exact G1|]. cbn.
    apply Forall_app. split; [exact G2|]. eapply H2, Hl.
Qed.

Lemma build_service_group_ok t e fp m fp' :
  service_tables_ok t ->
  build_mx_object t OT_service_group e fp = Return (Some m, fp') ->
  group_services_ok (m, fp').
Proof.
  intros Hok. unfold build_mx_object. intros H.
  destruct (negb _); [|discriminate].
  destruct (children e) as [|l ls]; [discriminate|].
  destruct (foldM _ _ _) as [[m' fp1]| |] eqn:Hf; cbn in H; try discriminate.
  assert (Hg : group_services_ok (m', fp1)).
  { eapply (foldM_invariant _ group_services_ok); [| |exact Hf]; [|split; cbn; constructor].
    intros s x s' Hs Hx. eapply service_group_line_ok; eassumption. }
  destruct (mx_service_objects m'); [discriminate|]. injection H as <- <-. exact Hg.
Qed.

Lemma service_group_step_ok w e w' :
  service_group_step w e = Return w' ->
  service_tables_ok (tbl w) -> service_tables_ok (tbl w').
Proof.
  unfold service_group_step. intros H Hok.
  destruct (build_mx_object _ _ _ _) as [[[m|] fp]| |] eqn:Hb; cbn in H; try discriminate.
  - destruct (build_service_group_ok _ _ _ _ _ Hok Hb) as (G1 & G2).
    destruct Hok as (H1 & H2 & H3). injection H as <-. cbn.
    split; [assumption|]. split; [|assumption].
    intros k l Hk. cbn in Hk. apply lookup_insert_Some in Hk as [[_ <-]|[_ Hk]]; [exact G1|].
    eapply H2, Hk.
  - injection H as <-. exact Hok.
Qed.

Lemma nested_service_group_step_ok w e w' :
  nested_service_group_step w e = Return w' ->
  service_tables_ok (tbl w) -> service_tables_ok (tbl w').
Proof.
  unfold nested_service_group_step. intros H Hok.
  destruct (build_mx_object _ _ _ _) as [[[m|] fp]| |] eqn:Hb; cbn in H; try discriminate.
  - destruct (build_service_group_ok _ _ _ _ _ Hok Hb) as (G1 & G2).
    destruct Hok as (H1 & H2 & H3).
    destruct (mx_nested_services m) as [|n0 ns] eqn:Hn; [injection H as <-; now split|].
    destruct (negb _); injection H as <-; [|now split]. cbn.
    split; [assumption|]. split; [assumption|].
    intros k l0 Hk. cbn in Hk. apply lookup_insert_Some in Hk as [[_ <-]|[_ Hk]].
    + apply Forall_app. split; [exact G1|]. rewrite <- Hn. exact G2.
    + eapply H3, Hk.
  - injection H as <-. exact Hok.
Qed.

Lemma bootstrap_services t d : same_service_tables t (bootstrap t d).
Proof.
  unfold bootstrap.
  assert (A : forall l t0, same_service_tables t t0 ->
                same_service_tables t (foldl adopt_policy_object t0 l)).
  { induction l as [|o l IH]; intros t0 H0; cbn; [exact H0|]. apply IH.
    unfold adopt_policy_object.
    destruct (String.eqb _ _); [exact H0|]. destruct (String.eqb _ _); exact H0. }
  assert (B : forall l t0, same_service_tables t t0 ->
                same_service_tables t (foldl adopt_policy_object_group t0 l)).
  { induction l as [|o l IH]; intros t0 H0; cbn; [exact H0|]. apply IH.
    unfold adopt_policy_object_group.
    destruct (PyStr.contains _ _); [exact H0|]. destruct (forallb _ _); exact H0. }
  apply B, A. repeat split.
Qed.

Lemma pass_ok (step : world -> IOSCfgLine -> outcome world) l w w' :
  (forall w e w', step w e = Return w' ->
     service_tables_ok (tbl w) -> service_tables_ok (tbl w')) ->
  foldM step l w = Return w' ->
  service_tables_ok (tbl w) -> service_tables_ok (tbl w').
Proof.
  intros Hstep Hf Hok.
  eapply (foldM_invariant step (fun w => service_tables_ok (tbl w))); [|exact Hok|exact Hf].
  intros s x s' Hs Hx. eapply Hstep; eassumption.
Qed.

Lemma split_pass_ok ty (step : world -> IOSCfgLine -> outcome world) l w w' :
  (forall w e w', step w e = Return w' ->
     service_tables_ok (tbl w) -> service_tables_ok (tbl w')) ->
  split_pass ty step l w = Return w' ->
  service_tables_ok (tbl w) -> service_tables_ok (tbl w').
Proof.
  intros Hstep H Hok. unfold split_pass in H.
  destruct (duplicate_splitter l ty) as [[sel new]| |]; cbn in H; try discriminate.
  eapply pass_ok; eassumption.
Qed.

Lemma create_objects_service_tables_ok t d config w :
  service_tables_ok t -> create_objects t d config = Return w -> service_tables_ok (tbl w).
Proof.
  intros Hok H. unfold create_objects in H.
  pose proof (same_service_tables_ok _ _ (bootstrap_services t d) Hok) as H0.
  destruct (split_pass ST_ipv4 _ _ _) as [w1| |] eqn:P1; cbn in H; try discriminate.
  destruct (split_pass ST_fqdn _ _ _) as [w2| |] eqn:P2; cbn in H; try discriminate.
  destruct (split_pass ST_ipv4_group _ _ _) as [w3| |] eqn:P3; cbn in H; try discriminate.
  destruct (split_pass ST_ipv6_group _ _ _) as [w4| |] eqn:P4; cbn in H; try discriminate.
  destruct (foldM nested_group_step _ _) as [w5| |] eqn:P5; cbn in H; try discriminate.
  destruct (foldM service_object_step _ _) as [w6| |] eqn:P6; cbn in H; try discriminate.
  destruct (foldM service_group_step _ _) as [w7| |] eqn:P7; cbn in H; try discriminate.
  eapply pass_ok in H; [exact H | apply nested_service_group_step_ok |].
  eapply pass_ok in P7; [exact P7 | apply service_group_step_ok |].
  eapply pass_ok in P6; [exact P6 | apply service_object_step_ok |].
  eapply pass_ok in P5; [exact P5 | |].
  { intros ? ? ? Hs. eapply same_service_tables_ok, nested_group_step_services, Hs. }
  eapply split_pass_ok in P4; [exact P4 | |].
  { intros ? ? ? Hs. eapply same_service_tables_ok, ipv6_group_step_services, Hs. }
  eapply split_pass_ok in P3; [exact P3 | |].
  { intros ? ? ? Hs. eapply same_service_tables_ok, ipv4_group_step_services, Hs. }
  eapply split_pass_ok in P2; [exact P2 | |].
  { intros ? ? ? Hs. eapply same_service_tables_ok, fqdn_object_step_services, Hs. }
  eapply split_pass_ok in P1; [exact P1 | | exact H0].
  intros ? ? ? Hs. eapply same_service_tables_ok, ipv4_object_step_services, Hs.
Qed.

Lemma combine_step_ok st s :
  s.1 ∈ table_protocols -> combine_state_ok st -> combine_state_ok (combine_step st s).
Proof.
  intros Hs (R & I). unfold combine_step.
  destruct (PyStr.contains "-" s.2).
  { split; [|exact I]. cbn. apply Forall_app. split; [exact R|].
    constructor; [exact Hs | constructor]. }
  destruct (String.eqb s.1 "TCP").
  { destruct (bool_decide _); now split. }
  destruct (String.eqb s.1 "UDP").
  { destruct (bool_decide _); now split. }
  destruct (String.eqb s.1 "ICMP" || String.eqb s.1 "ICMPV6"); [|now split].
  split; [exact R|]. cbn. intros icmp [= <-]. exact Hs.
Qed.

Lemma combine_like_services_ok l :
  Forall (fun s : service => s.1 ∈ table_protocols) l ->
  Forall (fun s : service => s.1 ∈ table_protocols) (combine_like_services l).
Proof.
  intros Hl. unfold combine_like_services.
  assert (Hst : forall st, combine_state_ok st -> combine_state_ok (foldl combine_step st l)).
  { induction Hl as [|s l Hs Hl IH]; intros st Hst; cbn; [exact Hst|].
    apply IH, combine_step_ok; assumption. }
  specialize (Hst (mkCombine [] [] [] None)).
  destruct Hst as (R & I); [split; [constructor | discriminate]|].
  set (st := foldl combine_step _ l) in *.
  pose proof TCP_in_table as T. pose proof UDP_in_table as U.
  assert (S1 : forall (p q : string) (r : list service),
            p ∈ table_protocols ->
            Forall (fun s : service => s.1 ∈ table_protocols) r ->
            Forall (fun s : service => s.1 ∈ table_protocols) (r ++ [(p, q)])).
  { intros p q r Hp Hr. apply Forall_app. split; [exact Hr|].
    constructor; [exact Hp | constructor]. }
  set (r1 := match cs_tcp_list st with [] => cs_result st | _ => _ end).
  assert (R1 : Forall (fun s : service => s.1 ∈ table_protocols) r1).
  { subst r1. destruct (cs_tcp_list st); [exact R | now apply S1]. }
  clearbody r1.
  set (r2 := match cs_udp_list st with [] => r1 | _ => _ end).
  assert (R2 : Forall (fun s : service => s.1 ∈ table_protocols) r2).
  { subst r2. destruct (cs_udp_list st); [exact R1 | now apply S1]. }
  clearbody r2.
  destruct (cs_icmp_list st) as [[p q]|] eqn:Ei; [|exact R2].
  apply S1; [|exact R2]. exact (I _ eq_refl).
Qed.

Lemma table_protocol_or_any p : p ∈ table_protocols -> p ∈ "any" :: table_protocols.
Proof. intros H. now right. Qed.

Lemma services_ok_weaken l :
  Forall (fun s : service => s.1 ∈ table_protocols) l ->
  Forall (fun s : service => s.1 ∈ "any" :: table_protocols) l.
Proof. intros H. eapply Forall_impl; [exact H|]. intros s. apply table_protocol_or_any. Qed.

Lemma any_prefix_ok (b : bool) l :
  Forall (fun s : service => s.1 ∈ table_protocols) l ->
  Forall (fun s : service => s.1 ∈ "any" :: table_protocols)
    ((if b then [("any", "any")] else []) ++ l).
Proof.
  intros Hl. apply Forall_app. split; [|now apply services_ok_weaken].
  destruct b; [|constructor]. constructor; [left | constructor].
Qed.

Lemma service_parser_ok t reference a msg a' :
  service_tables_ok t ->
  service_parser t reference a = Return (msg, a') -> acl_services_ok a'.
Proof.
  intros (H1 & H2 & H3). unfold service_parser, PyStr.getitem. intros H.
  assert (Hnil : forall b : bool,
    Forall (fun s : service => s.1 ∈ "any" :: table_protocols)
      (if b then [("any", "any")] else [])).
  { intros b. rewrite <- (app_nil_r (if b then _ else _)). apply any_prefix_ok. constructor. }
  destruct (PyStr.contains "name" reference).
  - destruct (PyStr.haskey _ _).
    + destruct (service_objects t !! _) as [s|] eqn:Hs; cbn in H; try discriminate.
      injection H as <- <-. intros l [= <-]. apply any_prefix_ok.
      constructor; [exact (H1 _ _ Hs) | constructor].
    + injection H as <- <-. intros l [= <-]. apply Hnil.
  - destruct (PyStr.contains "group" reference).
    + destruct (PyStr.haskey _ _).
      * destruct (service_object_groups t !! _) as [l0|] eqn:Hs; cbn in H; try discriminate.
        injection H as <- <-. intros l [= <-]. apply any_prefix_ok, combine_like_services_ok.
        exact (H2 _ _ Hs).
      * destruct (PyStr.haskey _ _).
        -- destruct (service_group_of_groups t !! _) as [l0|] eqn:Hs; cbn in H; try discriminate.
           injection H as <- <-. intros l [= <-]. apply any_prefix_ok, combine_like_services_ok.
           exact (H3 _ _ Hs).
        -- injection H as <- <-. intros l [= <-]. apply Hnil.
    + injection H as <- <-. intros l [= <-]. apply Hnil.
Qed.

Lemma source_parser_services t reference a msg a' :
  source_parser t reference a = Return (msg, a') -> acl_services a' = acl_services a.
Proof.
  unfold source_parser, PyStr.getitem. intros H.
  head_cases H; injection H as <- <-; reflexivity.
Qed.

Lemma destination_parser_services t reference a msg a' :
  destination_parser t reference a = Return (msg, a') -> acl_services a' = acl_services a.
Proof.
  unfold destination_parser, PyStr.getitem. intros H.
  head_cases H; injection H as <- <-; reflexivity.
Qed.

Lemma call_parser_ok (r : outcome (string * acl)) x :
  (forall msg a', r = Return (msg, a') -> acl_services_ok a') ->
  call_parser r = Return x -> step_ok x.
Proof.
  intros Hr. unfold call_parser. destruct r as [[msg a']| |]; cbn; try discriminate.
  destruct (String.eqb msg "Success"); intros [= <-]; cbn; [|exact I].
  eapply Hr. reflexivity.
Qed.

Lemma and_then_ok (r : outcome step_result) (k : acl -> outcome step_result) y :
  (forall x, r = Return x -> step_ok x) ->
  (forall a y, acl_services_ok a -> k a = Return y -> step_ok y) ->
  and_then r k = Return y -> step_ok y.
Proof.
  intros Hr Hk. unfold and_then. destruct r as [[a|msg]| |]; cbn; try discriminate.
  - apply Hk. exact (Hr _ eq_refl).
  - intros [= <-]. exact I.
Qed.

Lemma services_ok_same a a' :
  acl_services a' = acl_services a -> acl_services_ok a -> acl_services_ok a'.
Proof. unfold acl_services_ok. now intros ->. Qed.

Lemma source_call_ok t reference a x :
  acl_services_ok a -> call_parser (source_parser t reference a) = Return x -> step_ok x.
Proof.
  intros Ha. apply call_parser_ok. intros msg a' H.
  eapply services_ok_same; [eapply source_parser_services, H | exact Ha].
Qed.

Lemma destination_call_ok t reference a x :
  acl_services_ok a -> call_parser (destination_parser t reference a) = Return x -> step_ok x.
Proof.
  intros Ha. apply call_parser_ok. intros msg a' H.
  eapply services_ok_same; [eapply destination_parser_services, H | exact Ha].
Qed.

Lemma service_call_ok t reference a x :
  service_tables_ok t -> call_parser (service_parser t reference a) = Return x -> step_ok x.
Proof.
  intros Ht. apply call_parser_ok. intros msg a' H. eapply service_parser_ok; eassumption.
Qed.

Lemma regex_match_ok t line a x :
  service_tables_ok t -> acl_services_ok a ->
  regex_match t line a = Return x -> step_ok x.
Proof.
  intros Ht Ha. unfold regex_match.
  destruct (Regex.match_acl_rule line) as [g|]; [|intros [= <-]; exact Ha].
  set (a1 := match Regex.g_action g with Some v => _ | None => _ end).
  assert (Ha1 : acl_services_ok a1) by (subst a1; destruct (Regex.g_action g); exact Ha).
  clearbody a1. apply and_then_ok.
  - intros x0. destruct (Regex.g_source_address g).
    + now apply source_call_ok.
    + intros [= <-]. exact Ha1.
  - intros a2 y Ha2. apply and_then_ok.
    + intros x0. destruct (Regex.g_destination_address g).
      * now apply destination_call_ok.
      * intros [= <-]. exact Ha2.
    + intros a3 y0 Ha3. destruct (Regex.g_service g).
      * now apply service_call_ok.
      * intros [= <-]. exact Ha3.
Qed.

Lemma parse_child_ok t a child x :
  service_tables_ok t -> acl_services_ok a ->
  parse_child t a child = Return x -> step_ok x.
Proof.
  intros Ht Ha. unfold parse_child.
  destruct (PyStr.startswith "no enable" _); [intros [= <-]; exact I|].
  set (a1 := if negb (isset (acl_src_zone a)) && _ then _ else a).
  assert (Ha1 : acl_services_ok a1) by (subst a1; destruct (_ && _); exact Ha). clearbody a1.
  set (a2 := if negb (isset (acl_dst_zone a1)) && _ then _ else a1).
  assert (Ha2 : acl_services_ok a2) by (subst a2; destruct (_ && _); exact Ha1). clearbody a2.
  set (a3 := if negb (isset (acl_action a2)) && _ then _ else a2).
  assert (Ha3 : acl_services_ok a3) by (subst a3; destruct (_ && _); exact Ha2). clearbody a3.
  set (a4 := if PyStr.startswith "comment" _ then _ else a3).
  assert (Ha4 : acl_services_ok a4) by (subst a4; destruct (PyStr.startswith _ _); exact Ha3).
  clearbody a4. apply and_then_ok.
  - intros x0. destruct (_ && _).
    + now apply source_call_ok.
    + intros [= <-]. exact Ha4.
  - intros a5 y Ha5.
    set (a6 := if PyStr.startswith "source port" _ then _ else a5).
    assert (Ha6 : acl_services_ok a6).
    { subst a6. destruct (PyStr.startswith _ _); [|exact Ha5].
      destruct (String.eqb _ _); exact Ha5. }
    clearbody a6. apply and_then_ok.
    + intros x0. destruct (_ && _).
      * now apply destination_call_ok.
      * intros [= <-]. exact Ha6.
    + intros a7 y0 Ha7. destruct (_ && _).
      * now apply service_call_ok.
      * intros [= <-]. exact Ha7.
Qed.

Lemma parse_children_ok t l : forall a x,
  service_tables_ok t -> acl_services_ok a ->
  parse_children t a l = Return x -> step_ok x.
Proof.
  induction l as [|child l IH]; intros a x Ht Ha; cbn.
  - intros [= <-]. exact Ha.
  - apply and_then_ok.
    + intros x0. now apply parse_child_ok.
    + intros a1 y Ha1. now apply IH.
Qed.

Lemma parse_fields_ok t line x :
  service_tables_ok t -> parse_fields t line = Return x -> step_ok x.
Proof.
  intros Ht. unfold parse_fields. apply and_then_ok.
  - intros x0. apply regex_match_ok; [exact Ht|]. intros l. discriminate.
  - intros a y Ha. destruct (children line) as [|c cs]; [intros [= <-]; exact I|].
    now apply parse_children_ok.
Qed.

Lemma finish_line_dict dzm a a' dzm' :
  finish_line dzm a = Return (Dict a', dzm') -> a' = a.
Proof.
  unfold finish_line, PyStr.index. intros H.
  head_cases H; try discriminate H; injection H as <- <-; reflexivity.
Qed.

Lemma parse_line_ok t dzm line a dzm' :
  service_tables_ok t -> parse_line t dzm line = Return (Dict a, dzm') -> acl_services_ok a.
Proof.
  intros Ht. unfold parse_line.
  destruct (parse_fields t line) as [[a0|msg]| |] eqn:Hf; cbn; try discriminate.
  intros H. apply finish_line_dict in H as ->. exact (parse_fields_ok _ _ _ Ht Hf).
Qed.

Lemma parse_rules_ok t dzm config st :
  service_tables_ok t -> parse_rules t dzm config = Return st ->
  Forall acl_services_ok (acl_list st).
Proof.
  intros Ht. unfold parse_rules.
  destruct (duplicate_splitter _ _) as [[rules new]| |]; cbn; try discriminate.
  apply (foldM_invariant _ (fun st => Forall acl_services_ok (acl_list st))); [|constructor].
  intros s rule s' Hs. unfold parse_rule_step.
  destruct (parse_line t (zone_map s) rule) as [[[a|msg] dzm']| |] eqn:Hp; cbn; try discriminate.
  - intros [= <-]. cbn. apply Forall_app. split; [exact Hs|].
    constructor; [|constructor]. eapply parse_line_ok; eassumption.
  - destruct (String.eqb _ _); intros [= <-]; exact Hs.
Qed.

Lemma rule_protocol_any_or_table p :
  p ∈ "any" :: table_protocols ->
  rule_protocol p ∈ ["TCP"; "UDP"; "icmp"; "icmp6"; "any"].
Proof.
  intros H. unfold table_protocols in H.
  repeat (apply elem_of_cons in H as [->|H]); [| | | | |inversion H];
    vm_compute; repeat constructor.
Qed.

Lemma product3_service {A B C} (la : list A) (lb : list B) (lc : list C) x :
  x ∈ product3 la lb lc -> x.2 ∈ lc.
Proof.
  unfold product3. intros H.
  apply list_elem_of_bind in H as (a & H & _).
  apply list_elem_of_bind in H as (b & H & _).
  apply list_elem_of_bind in H as (c & H & Hc).
  apply list_elem_of_singleton in H as ->. exact Hc.
Qed.

Lemma flatten_acl_spec flag a rs :
  flatten_acl flag a = Return rs -> Forall (rule_of a) rs.
Proof.
  unfold flatten_acl, getkey. intros H.
  destruct (acl_src a) as [src|]; [|discriminate].
  destruct (acl_dst a) as [dst|]; [|discriminate].
  destruct (acl_services a) as [svcs|] eqn:Hsv; [|discriminate].
  unfold mbind at 1 2 3, outcome_bind at 1 2 3 in H. cbv beta iota in H.
  eapply (foldM_invariant_in _ (Forall (rule_of a))); [|constructor|exact H].
  intros acc [[s d] svc] acc' Hin Hacc Hstep.
  apply product3_service in Hin. cbn in Hin.
  destruct (acl_action a) as [action|] eqn:Hact; [|discriminate].
  unfold mbind at 1, outcome_bind at 1 in Hstep. cbv beta iota in Hstep.
  assert (Hr : forall zones,
    Forall (rule_of a)
      (acc ++ [mkRule (default EmptyString (acl_comment a)) action (rule_protocol svc.1)
                 (default "any" (acl_src_port a)) s d
                 (if String.eqb svc.2 "N/A" then "any" else svc.2) zones])).
  { intros zones. apply Forall_app. split; [exact Hacc|]. constructor; [|constructor].
    exists svcs, svc. repeat split; assumption. }
  destruct flag.
  - destruct (acl_src_zone a); [|discriminate]. destruct (acl_dst_zone a); [|discriminate].
    injection Hstep as <-. apply Hr.
  - injection Hstep as <-. apply Hr.
Qed.

Lemma create_mx_rules_spec flag acls rules :
  create_mx_rules flag acls = Return rules ->
  Forall (fun r => exists a, a ∈ acls /\ rule_of a r) rules.
Proof.
  unfold create_mx_rules.
  apply (foldM_invariant_in _ (Forall (fun r => exists a, a ∈ acls /\ rule_of a r)));
    [|constructor].
  intros acc a acc' Ha Hacc Hstep.
  destruct (flatten_acl flag a) as [rs| |] eqn:Hf; try discriminate.
  injection Hstep as <-. apply Forall_app. split; [exact Hacc|].
  eapply Forall_impl; [exact (flatten_acl_spec _ _ _ Hf)|]. intros r Hr. eauto.
Qed.

(** C2, as the code has it: the protocol of a flattened rule is the protocol
    of one of the services of its rule, unchanged but for [ICMP], which gives
    [icmp], and [ICMPV6], which gives [icmp6]; with the service tables built
    by the object compiler it is one of [TCP], [UDP], [icmp], [icmp6] and
    [any].  The policy is the action of the rule, as it was written. *)
Theorem flattened_rule_protocol_and_policy
    (d : dashboard) (config : list IOSCfgLine) (dzm : gmap string (gmap string string))
    (mapping_flag : bool) (w : world) (st : rules_state)
    (rules : list firewall_rule) (r : firewall_rule) :
  create_objects empty_tables d config = Return w ->
  parse_rules (tbl w) dzm config = Return st ->
  create_mx_rules mapping_flag (acl_list st) = Return rules ->
  r ∈ rules ->
  fr_protocol r ∈ ["TCP"; "UDP"; "icmp"; "icmp6"; "any"] /\
  exists a svcs svc,
    a ∈ acl_list st /\ acl_services a = Some svcs /\ svc ∈ svcs /\
    fr_protocol r = rule_protocol svc.1 /\ acl_action a = Some (fr_policy r).
Proof.
  intros Hc Hp Hm Hr.
  assert (Hok : service_tables_ok (tbl w)).
  { eapply create_objects_service_tables_ok; [|exact Hc].
    repeat split; intros k x Hk; cbn in Hk; rewrite lookup_empty in Hk; discriminate. }
  pose proof (parse_rules_ok _ _ _ _ Hok Hp) as Hacls.
  pose proof (create_mx_rules_spec _ _ _ Hm) as Hrules.
  rewrite Forall_forall in Hrules. destruct (Hrules r Hr) as (a & Ha & svcs & svc & H1 & H2 & H3 & H4).
  split; [|exists a, svcs, svc; repeat split; assumption].
  rewrite H3. apply rule_protocol_any_or_table.
  rewrite Forall_forall in Hacls. specialize (Hacls a Ha svcs H1).
  rewrite Forall_forall in Hacls. apply Hacls, H2.
Qed.

Lemma flattened_rule_protocol_and_policy_witness :
  fr_protocol (mkRule EmptyString "discard" "TCP" "any" "OBJ[1]" "any" "80" None)
    ∈ ["TCP"; "UDP"; "icmp"; "icmp6"; "any"] /\
  exists a svcs svc,
    a ∈ [mkAcl (Some "LAN") (Some "WAN") (Some "discard") None (Some (Str "OBJ[1]")) None
               (Some (Str "any")) (Some [("TCP", "80")])] /\
    acl_services a = Some svcs /\ svc ∈ svcs /\
    "TCP" = rule_protocol svc.1 /\ acl_action a = Some "discard".
Proof.
  apply (flattened_rule_protocol_and_policy empty_dashboard config_tcp_rule
           (initial_zone_map ZONES) false
           (mkWorld
              (set_service_objects <["HTTP" := ("TCP", "80")]>
                 (set_objects <["H1" := "1"]> empty_tables))
              (mkDashboard 2 [mkPolicyObject "1" "H1" "network" "cidr" "10.0.0.9/32"] [])
              EmptyString)
           (mkRules
              [mkAcl (Some "LAN") (Some "WAN") (Some "discard") None (Some (Str "OBJ[1]")) None
                     (Some (Str "any")) (Some [("TCP", "80")])]
              (initial_zone_map ZONES) EmptyString)
           [mkRule EmptyString "discard" "TCP" "any" "OBJ[1]" "any" "80" None]
           (mkRule EmptyString "discard" "TCP" "any" "OBJ[1]" "any" "80" None)).
  - vm_compute. reflexivity.
  - vm_compute. reflexivity.
  - vm_compute. reflexivity.
  - left.
Defined.

(** A TCP service gives the protocol [TCP], in capitals, and the action
    [discard] gives the policy [discard]. *)
Lemma flattened_rule_not_lowercase_not_allow_deny :
  ~ (forall (d : dashboard) (config : list IOSCfgLine)
       (dzm : gmap string (gmap string string)) (mapping_flag : bool) (w : world)
       (st : rules_state) (rules : list firewall_rule) (r : firewall_rule),
       create_objects empty_tables d config = Return w ->
       parse_rules (tbl w) dzm config = Return st ->
       create_mx_rules mapping_flag (acl_list st) = Return rules ->
       r ∈ rules ->
       fr_protocol r ∈ ["tcp"; "udp"; "icmp"; "icmp6"; "any"] /\
       fr_policy r ∈ ["allow"; "deny"]).
Proof.
  intros H.
  destruct (H empty_dashboard config_tcp_rule (initial_zone_map ZONES) false
              (mkWorld
                 (set_service_objects <["HTTP" := ("TCP", "80")]>
                    (set_objects <["H1" := "1"]> empty_tables))
                 (mkDashboard 2 [mkPolicyObject "1" "H1" "network" "cidr" "10.0.0.9/32"] [])
                 EmptyString)
              (mkRules
                 [mkAcl (Some "LAN") (Some "WAN") (Some "discard") None (Some (Str "OBJ[1]"))
                        None (Some (Str "any")) (Some [("TCP", "80")])]
                 (initial_zone_map ZONES) EmptyString)
              [mkRule EmptyString "discard" "TCP" "any" "OBJ[1]" "any" "80" None]
              (mkRule EmptyString "discard" "TCP" "any" "OBJ[1]" "any" "80" None))
    as [Hproto _].
  - vm_compute. reflexivity.
  - vm_compute. reflexivity.
  - vm_compute. reflexivity.
  - left.
  - cbn in Hproto.
    repeat (apply elem_of_cons in Hproto as [Hproto|Hproto]; [discriminate|]).
    inversion Hproto.
Qed.


(** ** Redefinitions *)


Lemma object_line_name m line m' : object_line m line = Return m' -> mx_name m' = mx_name m.
Proof.
  unfold object_line, PyStr.index, PyStr.getitem. intros H.
  head_cases H; injection H as <-; reflexivity.
Qed.

Lemma fqdn_line_name m line m' : fqdn_line m line = Return m' -> mx_name m' = mx_name m.
Proof.
  unfold fqdn_line, PyStr.index. intros H.
  head_cases H; injection H as <-; reflexivity.
Qed.

Lemma group_line_name t header st line st' :
  group_line t header st line = Return st' -> mx_name st'.1 = mx_name st.1.
Proof.
  unfold group_line, PyStr.getitem. destruct st as [m fp]. intros H.
  head_cases H; injection H as <-; reflexivity.
Qed.


Lemma foldM_name {A} (f : mx_object -> A -> outcome mx_object) l m m' :
  (forall m x m', f m x = Return m' -> mx_name m' = mx_name m) ->
  foldM f l m = Return m' -> mx_name m' = mx_name m.
Proof.
  intros Hf H.
  eapply (foldM_invariant f (fun x => mx_name x = mx_name m) l); [|reflexivity|exact H].
  intros s x s' Hs Hx. rewrite (Hf _ _ _ Hx). exact Hs.
Qed.

Lemma foldM_name_fp {A} (f : mx_object * string -> A -> outcome (mx_object * string)) l st st' :
  (forall st x st', f st x = Return st' -> mx_name st'.1 = mx_name st.1) ->
  foldM f l st = Return st' -> mx_name st'.1 = mx_name st.1.
Proof.
  intros Hf H.
  eapply (foldM_invariant f (fun x => mx_name x.1 = mx_name st.1) l); [|reflexivity|exact H].
  intros s x s' Hs Hx. rewrite (Hf _ _ _ Hx). exact Hs.
Qed.

(** The dictionary a stanza is built into carries the name of its
    category. *)
Lemma build_object_name t e fp m fp' :
  build_mx_object t OT_object e fp = Return (Some m, fp') ->
  mx_name m = defined_name Cat_ipv4_object e.
Proof.
  unfold build_mx_object. fold (ipv4_object_name e). intros H.
  destruct (_ && _); [|discriminate H].
  destruct (children e) as [|l ls]; [discriminate H|].
  destruct (foldM object_line _ _) as [m1| |] eqn:Hf; try discriminate H.
  unfold mbind, outcome_bind in H. destruct (mx_type m1); [|discriminate H].
  injection H as <- <-. apply foldM_name in Hf; [exact Hf|]. apply object_line_name.
Qed.

Lemma build_fqdn_name t e fp m fp' :
  build_mx_object t OT_fqdn e fp = Return (Some m, fp') ->
  mx_name m = defined_name Cat_fqdn_object e.
Proof.
  unfold build_mx_object. intros H.
  destruct (negb _); [|discriminate H].
  destruct (children e) as [|l ls]; [discriminate H|].
  destruct (foldM fqdn_line _ _) as [m1| |] eqn:Hf; try discriminate H.
  unfold mbind, outcome_bind in H. destruct (mx_type m1); [|discriminate H].
  injection H as <- <-. apply foldM_name in Hf; [exact Hf|]. apply fqdn_line_name.
Qed.

Lemma build_group_name t e fp m fp' :
  build_mx_object t OT_group e fp = Return (Some m, fp') ->
  mx_name m = defined_name Cat_ipv4_group e.
Proof.
  unfold build_mx_object. intros H.
  destruct (negb _); [|discriminate H].
  destruct (children e) as [|l ls]; [discriminate H|].
  destruct (foldM _ _ _) as [[m1 fp1]| |] eqn:Hf; try discriminate H.
  unfold mbind, outcome_bind in H. injection H as <- <-.
  apply foldM_name_fp in Hf; [exact Hf|]. apply group_line_name.
Qed.





Lemma not_in_nil_names (n : string) : n ∈ (@nil string) -> False.
Proof. intros H. inversion H. Qed.











Example redefinition_scenario :
  (w ← split_pass ST_ipv4 ipv4_object_step [H1_first; H1_second]
         (mkWorld empty_tables empty_dashboard EmptyString);
   Return (map po_value (policy_objects (dash w)), unprocessed_objects w))
  = Return (["10.0.0.1/32"], EmptyString).
Proof. vm_compute. reflexivity. Qed.


(** ** The splitter *)

Lemma exit_indexes_shift ls : forall k,
  omap (fun p : nat * IOSCfgLine =>
          if PyStr.contains "exit" (text p.2) then Some (S p.1) else None)
       (imap (fun i x => ((k + i)%nat, x)) ls)
  = exit_indexes_from k ls.
Proof.
  induction ls as [|x r IH]; intros k; [reflexivity|].
  rewrite imap_cons. cbn [omap exit_indexes_from list_omap]. unfold has_exit.
  rewrite Nat.add_0_r. cbn [snd fst].
  rewrite (imap_ext _ (fun i y => ((S k + i)%nat, y))) by (intros; cbn; f_equal; lia).
  rewrite IH. destruct (PyStr.contains "exit" (text x)); reflexivity.
Qed.

Lemma exit_indexes_from_0 ls : exit_indexes ls = exit_indexes_from 0 ls.
Proof. unfold exit_indexes. exact (exit_indexes_shift ls 0). Qed.

Lemma exit_indexes_from_app l1 : forall k l2,
  exit_indexes_from k (l1 ++ l2)
  = exit_indexes_from k l1 ++ exit_indexes_from (k + length l1) l2.
Proof.
  induction l1 as [|x r IH]; intros k l2; cbn.
  - now rewrite Nat.add_0_r.
  - rewrite IH, <- app_assoc. do 3 f_equal. lia.
Qed.

Lemma exit_indexes_from_free ls : forall k,
  exit_free ls = true -> exit_indexes_from k ls = [].
Proof.
  induction ls as [|x r IH]; intros k H; [reflexivity|]. cbn in *.
  apply andb_true_iff in H as [Hx Hr]. apply negb_true_iff in Hx. rewrite Hx. cbn.
  now apply IH.
Qed.

(** When only the last line of a list can hold [exit], the list has at most
    one index, its length. *)
Lemma exit_indexes_from_last ls k :
  exit_free (removelast ls) = true ->
  exit_indexes_from k ls = if ends_with_exit ls then [(k + length ls)%nat] else [].
Proof.
  destruct ls as [|x0 r0] using rev_ind; [reflexivity|]. clear IHr0.
  rewrite removelast_last. intros Hfree.
  rewrite exit_indexes_from_app, (exit_indexes_from_free _ _ Hfree).
  unfold ends_with_exit. rewrite last_snoc, length_app. cbn.
  destruct (has_exit x0); [|reflexivity]. apply (f_equal (fun n : nat => [n])). lia.
Qed.

Lemma slice_first {A} (p0 p1 : list A) : slice 0 (length p0) (p0 ++ p1) = p0.
Proof. unfold slice. rewrite Nat.sub_0_r. cbn. apply take_app_length. Qed.

Lemma slice_second {A} (p0 p1 : list A) :
  slice (length p0) (length p0 + length p1) (p0 ++ p1) = p1.
Proof.
  unfold slice. rewrite drop_app_length.
  replace (length p0 + length p1 - length p0)%nat with (length p1) by lia.
  apply firstn_all.
Qed.

Lemma split_element_two ty element p0 p1 :
  children element = p0 ++ p1 ->
  exit_free (removelast p0) = true -> exit_free (removelast p1) = true ->
  match p1 with [] => true | _ :: _ => ends_with_exit p0 end = true ->
  split_element ty element
  = Return match p1 with
           | [] => (element, None)
           | first :: _ =>
               (CfgLine (text element) p0, Some (CfgLine (clone_text ty element first) p1))
           end.
Proof.
  intros Hch H0 H1 Hlast. unfold split_element. rewrite Hch.
  rewrite exit_indexes_from_0, exit_indexes_from_app.
  rewrite (exit_indexes_from_last p0 0 H0), (exit_indexes_from_last p1 _ H1). cbn [Nat.add].
  destruct p1 as [|first rest].
  - change (ends_with_exit []) with false. cbv iota. rewrite !app_nil_r.
    destruct (ends_with_exit p0); [|reflexivity].
    unfold partitions. cbn [last app].
    rewrite bool_decide_eq_true_2 by reflexivity. reflexivity.
  - rewrite Hlast. unfold partitions. rewrite length_app.
    set (n0 := length p0). set (n1 := length (first :: rest)).
    assert (Hres : (fun p : nat * nat => slice p.1 p.2 (p0 ++ first :: rest))
                     <$> [(0%nat, n0); (n0, (n0 + n1)%nat)] = [p0; first :: rest]).
    { cbn [fmap list_fmap fst snd]. subst n0 n1. now rewrite slice_first, slice_second. }
    destruct (ends_with_exit (first :: rest)).
    + cbn [app last]. rewrite bool_decide_eq_true_2 by reflexivity.
      rewrite ?app_nil_r. cbn [app zip zip_with]. rewrite Hres. reflexivity.
    + cbn [app last]. rewrite bool_decide_eq_false_2.
      2:{ intros [= E]. subst n0 n1. cbn in E. lia. }
      cbn [app zip zip_with]. rewrite Hres. reflexivity.
Qed.

(** C7, as the code has it, for children that hold at most two partitions:
    with no [exit] among the children, or a single one on the last line, the
    stanza is returned unchanged; otherwise the first partition, up to the
    first [exit], stays with the stanza and the second partition becomes a
    new stanza, whose header is the header of the category followed by the
    first line of the partition without its [name] keyword or, for a rule,
    the header of the rule followed by [(Sub Rule)]. *)
Theorem splitter_keeps_first_two_partitions
    (ty : splitter_type) (element : IOSCfgLine) (p0 p1 : list IOSCfgLine) :
  children element = p0 ++ p1 ->
  exit_free (removelast p0) = true -> exit_free (removelast p1) = true ->
  match p1 with [] => true | _ :: _ => ends_with_exit p0 end = true ->
  duplicate_splitter [element] ty
  = Return match p1 with
           | [] => ([element], [])
           | first :: _ =>
               ([CfgLine (text element) p0],
                [CfgLine
                   (match ty with
                    | ST_ipv4 => "address-object ipv4 " +:+ partition_ident first
                    | ST_ipv4_group => "address-group ipv4 " +:+ partition_ident first
                    | ST_ipv6_group => "address-group ipv6 " +:+ partition_ident first
                    | ST_ipv6 => "address-object ipv6 " +:+ partition_ident first
                    | ST_fqdn => "address-object fqdn " +:+ partition_ident first
                    | ST_rule => text element +:+ " (Sub Rule)"
                    end) p1])
           end.
Proof.
  intros Hch H0 H1 Hlast. cbn [duplicate_splitter].
  rewrite (split_element_two ty element p0 p1 Hch H0 H1 Hlast).
  destruct p1; reflexivity.
Qed.

Lemma splitter_keeps_first_two_partitions_witness :
  duplicate_splitter [object_two_partitions] ST_ipv4
  = Return ([CfgLine "address-object ipv4 A" [leaf "    host 10.0.0.1"; leaf "    exit"]],
            [CfgLine "address-object ipv4 B"
               [leaf "    name B"; leaf "    host 10.0.0.2"; leaf "    exit"]]).
Proof.
  apply (splitter_keeps_first_two_partitions ST_ipv4 object_two_partitions
           [leaf "    host 10.0.0.1"; leaf "    exit"]
           [leaf "    name B"; leaf "    host 10.0.0.2"; leaf "    exit"]);
    reflexivity.
Defined.

Example splitter_without_exit :
  duplicate_splitter [CfgLine "address-object ipv4 A" [leaf "    host 10.0.0.1"]] ST_ipv4
  = Return ([CfgLine "address-object ipv4 A" [leaf "    host 10.0.0.1"]], []).
Proof. reflexivity. Qed.

Lemma rule_two_partitions_split :
  duplicate_splitter [rule_two_partitions] ST_rule
  = Return ([CfgLine "access-rule ipv4 from LAN to WAN"
               [leaf "    action allow"; leaf "    exit"]],
            [CfgLine "access-rule ipv4 from LAN to WAN (Sub Rule)"
               [leaf "    name R2"; leaf "    action deny"; leaf "    exit"]]).
Proof. vm_compute. reflexivity. Qed.

(** The header of the stanza split off a rule does not come from the first
    line of its partition: the identifier of that line is not in it. *)
Lemma rule_clone_header_not_rebuilt :
  ~ (forall (ty : splitter_type) (element : IOSCfgLine) (kept : list IOSCfgLine)
       (clone first : IOSCfgLine),
       duplicate_splitter [element] ty = Return (kept, [clone]) ->
       head (children clone) = Some first ->
       PyStr.contains (partition_ident first) (text clone) = true).
Proof.
  intros H.
  specialize (H ST_rule rule_two_partitions _ _ (leaf "    name R2")
                rule_two_partitions_split eq_refl).
  vm_compute in H. discriminate H.
Qed.

(** With three partitions, the third is kept by neither stanza. *)
Example splitter_three_partitions :
  duplicate_splitter [object_three_partitions] ST_ipv4
  = Return ([CfgLine "address-object ipv4 A" [leaf "    host 10.0.0.1"; leaf "    exit"]],
            [CfgLine "address-object ipv4 B"
               [leaf "    name B"; leaf "    host 10.0.0.2"; leaf "    exit"]]).
Proof. vm_compute. reflexivity. Qed.


(** ** More on the splitter *)

Lemma exit_indexes_from_range ls : forall k,
  Forall (fun i => (k < i <= k + length ls)%nat) (exit_indexes_from k ls).
Proof.
  induction ls as [|x r IH]; intros k; cbn [exit_indexes_from]; [constructor|].
  apply Forall_app. split.
  - destruct (has_exit x); repeat constructor; cbn; lia.
  - eapply Forall_impl; [apply IH|]. cbn. intros; lia.
Qed.

Lemma exit_indexes_from_increasing ls : forall k i j rest,
  exit_indexes_from k ls = i :: j :: rest -> (i < j)%nat.
Proof.
  induction ls as [|x r IH]; intros k i j rest; cbn [exit_indexes_from]; [discriminate|].
  destruct (has_exit x); cbn [app].
  - intros [= <- E]. pose proof (exit_indexes_from_range r (S k)) as HR.
    rewrite E in HR. apply Forall_cons in HR as [HR _]. lia.
  - apply IH.
Qed.

Lemma slice_nonempty {A} (i j : nat) (l : list A) :
  (i < j <= length l)%nat -> exists first rest, slice i j l = first :: rest.
Proof.
  intros H. unfold slice.
  destruct (take (j - i) (drop i l)) as [|a r] eqn:E.
  - apply (f_equal length) in E. rewrite length_take, length_drop in E. cbn in E. lia.
  - eauto.
Qed.

Lemma slice_0 {A} (i : nat) (l : list A) : slice 0 i l = take i l.
Proof. unfold slice. now rewrite Nat.sub_0_r. Qed.

Lemma take_slice {A} (i j : nat) (l : list A) :
  (i <= j)%nat -> take i l ++ slice i j l = take j l.
Proof.
  intros H. unfold slice. rewrite <- (take_drop i (take j l)) at 1.
  rewrite take_take, Nat.min_l by lia. rewrite skipn_firstn_comm. reflexivity.
Qed.

(** What one turn of the loop does, whatever the children are. *)
Lemma split_element_cases ty element :
  split_element ty element = Return (element, None) \/
  exists (i j : nat) (first : IOSCfgLine) (rest : list IOSCfgLine),
    (0 < i < j)%nat /\ (j <= length (children element))%nat /\
    slice i j (children element) = first :: rest /\
    split_element ty element
    = Return (CfgLine (text element) (take i (children element)),
              Some (CfgLine (clone_text ty element first) (first :: rest))).
Proof.
  unfold split_element. rewrite exit_indexes_from_0.
  pose proof (exit_indexes_from_range (children element) 0) as HR.
  pose proof (exit_indexes_from_increasing (children element) 0) as HI.
  destruct (exit_indexes_from 0 (children element)) as [|i [|j rest]]; [now left| |].
  - apply Forall_cons in HR as [Hi _]. cbn [Nat.add] in Hi.
    unfold partitions. cbn [last app].
    destruct (bool_decide (Some i = Some (length (children element)))) eqn:E.
    + left. reflexivity.
    + right. apply bool_decide_eq_false in E.
      assert (i <> length (children element)) by congruence.
      destruct (slice_nonempty i (length (children element)) (children element)) as (f & r & Hs);
        [lia|].
      exists i, (length (children element)), f, r.
      repeat split; try lia; [exact Hs|].
      cbn [app zip zip_with fmap list_fmap fst snd]. rewrite Hs, slice_0. reflexivity.
  - right. specialize (HI i j rest eq_refl).
    apply Forall_cons in HR as [Hi HR]. apply Forall_cons in HR as [Hj _]. cbn [Nat.add] in Hi, Hj.
    destruct (slice_nonempty i j (children element)) as (f & r & Hs); [lia|].
    exists i, j, f, r. repeat split; try lia; [exact Hs|].
    unfold partitions. cbn [app zip zip_with fmap list_fmap fst snd].
    rewrite Hs, slice_0. reflexivity.
Qed.

Lemma split_element_split_of ty element :
  exists kept clone,
    split_element ty element = Return (kept, clone) /\ split_of element kept clone.
Proof.
  destruct (split_element_cases ty element) as [H|(i & j & f & r & Hi & Hj & Hs & H)];
    rewrite H.
  - exists element, None. repeat split.
  - eexists _, (Some _). split; [reflexivity|]. unfold split_of. cbn [text children].
    split; [reflexivity|]. split; [discriminate|]. split.
    + intros E. apply (f_equal length) in E. rewrite length_take in E. cbn in E. lia.
    + rewrite <- Hs, take_slice by lia. apply prefix_take.
Qed.

(** X1: the splitter never raises; it returns as many stanzas as it was
    given, with their headers, each with some of its first children; and it
    splits at most one stanza off each of them, whose children come next in
    the stanza. *)
Theorem duplicate_splitter_total (object_list : list IOSCfgLine) (ty : splitter_type) :
  exists kept clones,
    duplicate_splitter object_list ty
    = Return (kept, concat (option_list <$> clones)) /\
    Forall3 split_of object_list kept clones.
Proof.
  induction object_list as [|element rest (kept & clones & IH & HF)].
  - exists [], []. split; [reflexivity|constructor].
  - destruct (split_element_split_of ty element) as (k & c & Hk & Hs).
    exists (k :: kept), (c :: clones). split; [|now constructor].
    cbn [duplicate_splitter]. rewrite Hk, IH.
    cbn. destruct c; reflexivity.
Qed.


(** ** The flattener on the rules of the parser *)

Lemma foldM_snoc_map {A B} (g : A -> B) (l : list A) : forall acc,
  foldM (fun (acc : list B) x => Return (acc ++ [g x])) l acc = Return (acc ++ (g <$> l)).
Proof.
  induction l as [|x l IH]; intros acc; cbn.
  - now rewrite app_nil_r.
  - rewrite IH, <- app_assoc. reflexivity.
Qed.

Lemma foldM_ext {A S} (f g : S -> A -> outcome S) (l : list A) :
  (forall s x, f s x = g s x) -> forall s, foldM f l s = foldM g l s.
Proof.
  intros E. induction l as [|x l IH]; intros s; cbn; [reflexivity|].
  rewrite E. destruct (g s x); cbn; auto.
Qed.

Lemma flatten_acl_complete flag a :
  acl_complete a -> flatten_acl flag a = Return (records_of flag a).
Proof.
  intros ([action Ha] & [src Hs] & [dst Hd] & [svcs Hv] & [sz Hsz] & [dz Hdz]).
  unfold flatten_acl, records_of. rewrite Ha, Hs, Hd, Hv, Hsz, Hdz. cbn [getkey].
  unfold mbind at 1 2 3, outcome_bind at 1 2 3. cbv beta iota.
  rewrite (foldM_ext _ (fun acc x => Return (acc ++ [record_of flag a action (sz, dz) x]))).
  - apply (foldM_snoc_map _ _ []).
  - intros acc [[s d] svc]. destruct flag; reflexivity.
Qed.

Lemma length_product3 {A B C} (la : list A) (lb : list B) (lc : list C) :
  length (product3 la lb lc) = (length la * length lb * length lc)%nat.
Proof.
  unfold product3.
  assert (H1 : forall (a : A) (b : B), length (c ← lc; [(a, b, c)]) = length lc).
  { intros a b. induction lc as [|c lc IH]; cbn; [reflexivity|]. f_equal. exact IH. }
  assert (H2 : forall a : A,
    length (b ← lb; c ← lc; [(a, b, c)]) = (length lb * length lc)%nat).
  { intros a. induction lb as [|b lb IH]; [reflexivity|].
    change (length ((c ← lc; [(a, b, c)]) ++ (b ← lb; c ← lc; [(a, b, c)]))
            = (length (b :: lb) * length lc)%nat).
    rewrite length_app, H1, IH. cbn. lia. }
  induction la as [|a la IH]; [reflexivity|].
  change (length ((b ← lb; c ← lc; [(a, b, c)]) ++ (a ← la; b ← lb; c ← lc; [(a, b, c)]))
          = (length (a :: la) * length lb * length lc)%nat).
  rewrite length_app, H2, IH. cbn. lia.
Qed.

(** X2: a rule with its six keys is flattened without an error into one
    record for each combination of a source, a destination and a service;
    every record has the action of the rule as its policy, and the zones of
    the rule exactly when the mapping was asked for. *)
Theorem flatten_acl_one_record_per_combination
    (mapping_flag : bool) (a : acl) (action sz dz : string) (src dst : pyval)
    (services : list service) :
  acl_action a = Some action -> acl_src a = Some src -> acl_dst a = Some dst ->
  acl_services a = Some services ->
  acl_src_zone a = Some sz -> acl_dst_zone a = Some dz ->
  exists rs,
    flatten_acl mapping_flag a = Return rs /\
    length rs = (length (combo src) * length (combo dst) * length services)%nat /\
    Forall (fun r => fr_policy r = action /\
                     fr_zones r = if mapping_flag then Some (sz, dz) else None) rs.
Proof.
  intros Ha Hs Hd Hv Hsz Hdz. exists (records_of mapping_flag a).
  split; [apply flatten_acl_complete; unfold acl_complete; rewrite Ha, Hs, Hd, Hv, Hsz, Hdz; eauto 10|].
  unfold records_of. rewrite Ha, Hs, Hd, Hv, Hsz, Hdz.
  split; [rewrite length_fmap; apply length_product3|].
  apply Forall_fmap, Forall_forall. intros x _. split; reflexivity.
Qed.

Lemma flatten_acl_one_record_per_combination_witness :
  exists rs,
    flatten_acl true acl_two_by_two = Return rs /\
    length rs = (2 * 1 * 2)%nat /\
    Forall (fun r => fr_policy r = "allow" /\ fr_zones r = Some ("LAN", "WAN")) rs.
Proof.
  exact (flatten_acl_one_record_per_combination true acl_two_by_two "allow" "LAN" "WAN"
           (StrList ["OBJ[1]"; "OBJ[2]"]) (Str "any") [("TCP", "80,443"); ("UDP", "53")]
           eq_refl eq_refl eq_refl eq_refl eq_refl eq_refl).
Defined.

Lemma create_mx_rules_complete flag acls :
  Forall acl_complete acls ->
  create_mx_rules flag acls = Return (concat (records_of flag <$> acls)).
Proof.
  intros H. unfold create_mx_rules.
  assert (G : forall acc,
    foldM (fun acc a => rs ← flatten_acl flag a; Return (acc ++ rs)) acls acc
    = Return (acc ++ concat (records_of flag <$> acls))).
  { induction H as [|a acls Ha _ IH]; intros acc; cbn.
    - now rewrite app_nil_r.
    - rewrite (flatten_acl_complete _ _ Ha). cbn. rewrite IH, <- app_assoc. reflexivity. }
  apply (G []).
Qed.

Lemma finish_line_complete dzm a a' dzm' :
  finish_line dzm a = Return (Dict a', dzm') -> acl_complete a'.
Proof.
  intros H. pose proof (finish_line_dict _ _ _ _ H) as ->.
  unfold finish_line in H. unfold acl_complete.
  destruct (acl_action a); [|discriminate H].
  destruct (acl_src a); [|discriminate H].
  destruct (acl_dst a); [|discriminate H].
  destruct (acl_services a); [|discriminate H].
  destruct (acl_src_zone a); [|discriminate H].
  destruct (acl_dst_zone a); [|discriminate H].
  eauto 10.
Qed.

Lemma parse_rules_complete t dzm config st :
  parse_rules t dzm config = Return st -> Forall acl_complete (acl_list st).
Proof.
  unfold parse_rules.
  destruct (duplicate_splitter _ _) as [[rules new]| |]; cbn; try discriminate.
  apply (foldM_invariant _ (fun st => Forall acl_complete (acl_list st))); [|constructor].
  intros s rule s' Hs. unfold parse_rule_step, parse_line.
  destruct (parse_fields t rule) as [[a0|msg]| |] eqn:Hf; cbn; try discriminate.
  - destruct (finish_line (zone_map s) a0) as [[[a|msg] dzm']| |] eqn:Hp; cbn; try discriminate.
    + intros [= <-]. cbn. apply Forall_app. split; [exact Hs|].
      constructor; [|constructor]. eapply finish_line_complete; eassumption.
    + destruct (String.eqb _ _); intros [= <-]; exact Hs.
  - destruct (String.eqb _ _); intros [= <-]; exact Hs.
Qed.

Lemma records_of_zones a r :
  r ∈ records_of true a -> is_Some (fr_zones r).
Proof.
  unfold records_of.
  destruct (acl_action a), (acl_src a), (acl_dst a), (acl_services a),
    (acl_src_zone a), (acl_dst_zone a); try (intros H; inversion H; fail).
  intros H. apply list_elem_of_fmap in H as (x & -> & _). cbn. eauto.
Qed.

Lemma rule_mapping_sets_total INBOUND SITE2SITE rules :
  Forall (fun r => is_Some (fr_zones r)) rules ->
  forall sets, exists sets',
    foldM (rule_mapping_step INBOUND SITE2SITE) rules sets = Return sets'.
Proof.
  induction 1 as [|r rules [[sz dz] Hz] _ IH]; intros sets; cbn; [eauto|].
  unfold rule_mapping_step. rewrite Hz. cbn.
  destruct (bool_decide _); [apply IH|]. destruct (_ || _); apply IH.
Qed.

(** X3: whatever rules the parser returns, the flattener and the delivery go
    through without an error: every dictionary of [acl_list] has the keys
    they read. *)
Theorem parsed_rules_are_delivered
    (t : tables) (dzm : gmap string (gmap string string)) (config : list IOSCfgLine)
    (st : rules_state) (INBOUND SITE2SITE : list string)
    (org_id network_id : option string) (mapping_flag : bool) (ap : appliance) :
  parse_rules t dzm config = Return st ->
  exists ap',
    create_mx_rules_update INBOUND SITE2SITE org_id network_id mapping_flag (acl_list st) ap
    = Return ap'.
Proof.
  intros Hp. apply parse_rules_complete in Hp.
  unfold create_mx_rules_update. destruct org_id, network_id; eauto.
  rewrite (create_mx_rules_complete _ _ Hp). cbn.
  destruct mapping_flag; [|eauto]. unfold rule_mapping, rule_mapping_sets.
  destruct (rule_mapping_sets_total INBOUND SITE2SITE
              (concat (records_of true <$> acl_list st))) with (sets := mkRuleSets [] [] [])
    as [sets' ->]; [|cbn; eauto].
  apply Forall_forall. intros r Hr. apply list_elem_of_In, in_concat in Hr as (l & Hl & Hr).
  apply list_elem_of_In, list_elem_of_fmap in Hl as (a & -> & _).
  eapply records_of_zones, list_elem_of_In, Hr.
Qed.

Lemma parse_rules_tcp_rule :
  parse_rules tables_tcp_rule (initial_zone_map ZONES) config_tcp_rule = Return state_tcp_rule.
Proof. vm_compute. reflexivity. Qed.

Lemma parsed_rules_are_delivered_witness :
  exists ap',
    create_mx_rules_update INBOUND SITE2SITE (Some "org") (Some "net") true
      (acl_list state_tcp_rule) empty_appliance
    = Return ap'.
Proof.
  exact (parsed_rules_are_delivered tables_tcp_rule (initial_zone_map ZONES) config_tcp_rule
           state_tcp_rule INBOUND SITE2SITE (Some "org") (Some "net") true empty_appliance
           parse_rules_tcp_rule).
Defined.

(** ** The rule sets *)

Lemma rule_mapping_step_eq INBOUND SITE2SITE sets r :
  is_Some (fr_zones r) ->
  rule_mapping_step INBOUND SITE2SITE sets r
  = Return (mkRuleSets
      (site2site_rules sets ++ (del_zones <$> List.filter (is_site2site INBOUND SITE2SITE) [r]))
      (outbound_rules sets ++ (del_zones <$> List.filter (is_outbound INBOUND SITE2SITE) [r]))
      (inbound_rules sets ++ (del_zones <$> List.filter (is_inbound INBOUND SITE2SITE) [r]))).
Proof.
  intros [[sz dz] Hz]. unfold rule_mapping_step. cbn [List.filter].
  unfold is_site2site, is_outbound, is_inbound, from_zone_in, to_zone_in. rewrite Hz. cbn [getkey].
  unfold mbind, outcome_bind. cbv beta iota.
  destruct (bool_decide (sz ∈ INBOUND)); cbn [negb andb fmap list_fmap];
    [now rewrite !app_nil_r|].
  destruct (bool_decide (sz ∈ SITE2SITE) || bool_decide (dz ∈ SITE2SITE));
    cbn [negb fmap list_fmap]; now rewrite !app_nil_r.
Qed.

Lemma filter_cons_app {A} (p : A -> bool) (x : A) (l : list A) :
  List.filter p (x :: l) = List.filter p [x] ++ List.filter p l.
Proof. cbn. now destruct (p x). Qed.

Lemma rule_mapping_fold INBOUND SITE2SITE rules :
  Forall (fun r => is_Some (fr_zones r)) rules ->
  forall sets,
    foldM (rule_mapping_step INBOUND SITE2SITE) rules sets
    = Return (mkRuleSets
        (site2site_rules sets ++ (del_zones <$> List.filter (is_site2site INBOUND SITE2SITE) rules))
        (outbound_rules sets ++ (del_zones <$> List.filter (is_outbound INBOUND SITE2SITE) rules))
        (inbound_rules sets ++ (del_zones <$> List.filter (is_inbound INBOUND SITE2SITE) rules))).
Proof.
  induction 1 as [|r rules Hz _ IH]; intros sets.
  - cbn. rewrite !app_nil_r. now destruct sets.
  - cbn [foldM]. rewrite (rule_mapping_step_eq _ _ _ _ Hz).
    unfold mbind, outcome_bind. rewrite IH.
    cbn [site2site_rules outbound_rules inbound_rules].
    rewrite (filter_cons_app (is_site2site _ _) r rules),
      (filter_cons_app (is_outbound _ _) r rules),
      (filter_cons_app (is_inbound _ _) r rules), !fmap_app, <- !app_assoc. reflexivity.
Qed.

Lemma filter_three_way {A} (p q : A -> bool) (l : list A) :
  (length (List.filter p l)
   + length (List.filter (fun x => negb (p x) && q x) l)
   + length (List.filter (fun x => negb (p x) && negb (q x)) l) = length l)%nat.
Proof.
  induction l as [|x l IH]; [reflexivity|]. cbn.
  destruct (p x), (q x); cbn; lia.
Qed.

(** X4: when every record has its zones, the three rule sets are the
    records, in their order and without their zones, that come from a zone
    of [INBOUND]; of the others, those that come from or go to a zone of
    [SITE2SITE]; and the rest.  So a record is in exactly one set. *)
Theorem rule_mapping_partitions
    (INBOUND SITE2SITE : list string) (firewall_rules : list firewall_rule) (ap : appliance) :
  Forall (fun r => is_Some (fr_zones r)) firewall_rules ->
  exists ap',
    rule_mapping INBOUND SITE2SITE firewall_rules ap = Return ap' /\
    inbound_firewall_rules ap'
      = del_zones <$> List.filter (from_zone_in INBOUND) firewall_rules /\
    vpn_firewall_rules ap'
      = del_zones <$> List.filter
          (fun r => negb (from_zone_in INBOUND r)
                    && (from_zone_in SITE2SITE r || to_zone_in SITE2SITE r)) firewall_rules /\
    l3_firewall_rules ap'
      = del_zones <$> List.filter
          (fun r => negb (from_zone_in INBOUND r)
                    && negb (from_zone_in SITE2SITE r || to_zone_in SITE2SITE r)) firewall_rules /\
    (length (inbound_firewall_rules ap') + length (vpn_firewall_rules ap')
       + length (l3_firewall_rules ap') = length firewall_rules)%nat.
Proof.
  intros H. unfold rule_mapping, rule_mapping_sets.
  rewrite (rule_mapping_fold _ _ _ H). cbn.
  eexists. split; [reflexivity|]. cbn. repeat split.
  rewrite !length_fmap.
  apply (filter_three_way (from_zone_in INBOUND)
           (fun r => from_zone_in SITE2SITE r || to_zone_in SITE2SITE r)).
Qed.

Lemma rule_mapping_partitions_witness :
  exists ap',
    rule_mapping INBOUND SITE2SITE rules_three_zones empty_appliance = Return ap' /\
    inbound_firewall_rules ap'
      = del_zones <$> List.filter (from_zone_in INBOUND) rules_three_zones /\
    vpn_firewall_rules ap'
      = del_zones <$> List.filter
          (fun r => negb (from_zone_in INBOUND r)
                    && (from_zone_in SITE2SITE r || to_zone_in SITE2SITE r)) rules_three_zones /\
    l3_firewall_rules ap'
      = del_zones <$> List.filter
          (fun r => negb (from_zone_in INBOUND r)
                    && negb (from_zone_in SITE2SITE r || to_zone_in SITE2SITE r)) rules_three_zones /\
    (length (inbound_firewall_rules ap') + length (vpn_firewall_rules ap')
       + length (l3_firewall_rules ap') = length rules_three_zones)%nat.
Proof.
  apply (rule_mapping_partitions INBOUND SITE2SITE rules_three_zones empty_appliance).
  repeat constructor; cbn; eauto.
Defined.

(** The record from WAN to VPN is an inbound rule, not a VPN rule. *)
Example rule_mapping_scenario :
  rule_mapping INBOUND SITE2SITE rules_three_zones empty_appliance
  = Return (mkAppliance
      [mkRule EmptyString "allow" "TCP" "any" "OBJ[1]" "any" "80" None]
      [mkRule EmptyString "allow" "TCP" "any" "any" "OBJ[1]" "443" None]
      [mkRule EmptyString "deny" "any" "any" "OBJ[1]" "OBJ[2]" "any" None]).
Proof. vm_compute. reflexivity. Qed.

Lemma create_objects_tcp_rule :
  create_objects empty_tables empty_dashboard config_tcp_rule = Return world_tcp_rule.
Proof. vm_compute. reflexivity. Qed.

Lemma create_mx_rules_tcp_rule :
  create_mx_rules false (acl_list state_tcp_rule) = Return [record_tcp_rule].
Proof. vm_compute. reflexivity. Qed.


(** ** The zone table *)

Lemma finish_line_zone_map dzm a r dzm' :
  finish_line dzm a = Return (r, dzm') ->
  dzm' = dzm \/
  exists s d row v,
    dzm !! s = Some row /\ is_Some (dzm !! d) /\ (v = "allow" \/ v = "deny") /\
    dzm' = <[s := <[d := v]> row]> dzm.
Proof.
  unfold finish_line, PyStr.index, PyStr.haskey. intros H.
  destruct (acl_action a) as [action|]; [|injection H as _ <-; now left].
  destruct (acl_src a); [|injection H as _ <-; now left].
  destruct (acl_dst a); [|injection H as _ <-; now left].
  destruct (acl_services a) as [services|]; [|injection H as _ <-; now left].
  destruct (acl_src_zone a) as [sz|]; [|injection H as _ <-; now left].
  destruct (acl_dst_zone a) as [dz|]; [|injection H as _ <-; now left].
  match type of H with mbind _ ?m = _ => destruct m as [[|]| |] end;
    cbn in H; try discriminate H; [|injection H as _ <-; now left].
  destruct (dzm !! sz) as [row|] eqn:Hs; [|injection H as _ <-; now left].
  destruct (dzm !! dz) as [row'|] eqn:Hd; [|injection H as _ <-; now left].
  injection H as _ <-. right. exists sz, dz, row, (if String.eqb action "allow" then "allow" else "deny").
  rewrite Hd. repeat split; eauto. destruct (String.eqb action "allow"); auto.
Qed.

Lemma zone_table_within_set zones m s d row v :
  zone_table_within zones m ->
  m !! s = Some row -> is_Some (m !! d) -> (v = "allow" \/ v = "deny") ->
  zone_table_within zones (<[s := <[d := v]> row]> m).
Proof.
  intros [Hk Hc] Hs Hd Hv. split.
  - intros s'. destruct (decide (s' = s)) as [->|Hne].
    + rewrite lookup_insert_eq. split; [intros _; apply Hk; eauto | eauto].
    + rewrite lookup_insert_ne by congruence. apply Hk.
  - intros s' d' v'. unfold zone_cell. destruct (decide (s' = s)) as [->|Hne].
    + rewrite lookup_insert_eq. cbn. destruct (decide (d' = d)) as [->|Hne'].
      * rewrite lookup_insert_eq. intros [= <-]. split; [now apply Hk|exact Hv].
      * rewrite lookup_insert_ne by congruence. intros H. apply (Hc s d' v').
        unfold zone_cell. now rewrite Hs.
    + rewrite lookup_insert_ne by congruence. apply Hc.
Qed.

Lemma initial_zone_map_lookup zones s :
  initial_zone_map zones !! s = if bool_decide (s ∈ zones.*1) then Some (∅ : gmap string string) else None.
Proof.
  unfold initial_zone_map.
  assert (G : forall m : gmap string (gmap string string),
    foldl (fun m z => <[z.1 := ∅]> m) m zones !! s
    = if bool_decide (s ∈ zones.*1) then Some (∅ : gmap string string) else m !! s).
  { induction zones as [|z zones IH]; intros m; [reflexivity|]. cbn [foldl fmap list_fmap].
    rewrite IH. destruct (bool_decide (s ∈ zones.*1)) eqn:E.
    - apply bool_decide_eq_true in E. rewrite bool_decide_eq_true_2; [reflexivity|now right].
    - apply bool_decide_eq_false in E. destruct (decide (s = z.1)) as [->|Hne].
      + rewrite lookup_insert_eq, bool_decide_eq_true_2; [reflexivity|left].
      + rewrite lookup_insert_ne by congruence. rewrite bool_decide_eq_false_2; [reflexivity|].
        intros H. apply elem_of_cons in H as [H|H]; [congruence|contradiction]. }
  rewrite G. now destruct (bool_decide _).
Qed.

Lemma initial_zone_map_within zones : zone_table_within zones.*1 (initial_zone_map zones).
Proof.
  split.
  - intros s. rewrite initial_zone_map_lookup. destruct (bool_decide (s ∈ zones.*1)) eqn:E.
    + apply bool_decide_eq_true in E. split; eauto.
    + apply bool_decide_eq_false in E. split; [intros [x Hx]; discriminate|contradiction].
  - intros s d v. unfold zone_cell. rewrite initial_zone_map_lookup.
    destruct (bool_decide _); cbn; [rewrite lookup_empty|]; discriminate.
Qed.

Lemma parse_rules_zone_table t zones dzm config st :
  zone_table_within zones dzm ->
  parse_rules t dzm config = Return st -> zone_table_within zones (zone_map st).
Proof.
  intros H0. unfold parse_rules.
  destruct (duplicate_splitter _ _) as [[rules new]| |]; cbn; try discriminate.
  apply (foldM_invariant _ (fun st => zone_table_within zones (zone_map st))); [|exact H0].
  intros s rule s' Hs. unfold parse_rule_step, parse_line.
  assert (G : forall a r dzm', finish_line (zone_map s) a = Return (r, dzm') ->
                               zone_table_within zones dzm').
  { intros a r dzm' Hf. apply finish_line_zone_map in Hf as [->|(sz & dz & row & v & ? & ? & ? & ->)];
      [exact Hs|]. now apply zone_table_within_set. }
  destruct (parse_fields t rule) as [[a0|msg]| |] eqn:Hf; cbn; try discriminate.
  - destruct (finish_line (zone_map s) a0) as [[[a|msg] dzm']| |] eqn:Hp; cbn; try discriminate.
    + intros [= <-]. cbn. eapply G, Hp.
    + destruct (String.eqb _ _); intros [= <-]; cbn; eapply G, Hp.
  - destruct (String.eqb _ _); intros [= <-]; exact Hs.
Qed.

(** X5: the zone table the parser leaves has a row for each zone of [ZONES]
    and for no other name, and every cell that is set lies in the column of
    a zone of [ZONES] and reads [allow] or [deny]. *)
Theorem zone_table_stays_within_zones
    (t : tables) (zones : list (string * string)) (config : list IOSCfgLine)
    (st : rules_state) :
  parse_rules t (initial_zone_map zones) config = Return st ->
  (forall s, is_Some (zone_map st !! s) <-> s ∈ zones.*1) /\
  (forall s d v, zone_cell (zone_map st) s d = Some v ->
     s ∈ zones.*1 /\ d ∈ zones.*1 /\ (v = "allow" \/ v = "deny")).
Proof.
  intros H. destruct (parse_rules_zone_table _ _ _ _ _ (initial_zone_map_within zones) H)
    as [Hk Hc].
  split; [exact Hk|]. intros s d v Hv. destruct (Hc s d v Hv) as [Hd Hval].
  repeat split; auto. apply Hk. unfold zone_cell in Hv.
  destruct (zone_map st !! s); [eauto|discriminate].
Qed.

Lemma parse_rules_any_any_discard :
  parse_rules empty_tables (initial_zone_map zones_lan_wan) [rule_any_any_discard]
  = Return state_any_any_discard.
Proof. vm_compute. reflexivity. Qed.

Lemma zone_table_stays_within_zones_witness :
  (forall s, is_Some (zone_map state_any_any_discard !! s) <-> s ∈ zones_lan_wan.*1) /\
  (forall s d v, zone_cell (zone_map state_any_any_discard) s d = Some v ->
     s ∈ zones_lan_wan.*1 /\ d ∈ zones_lan_wan.*1 /\ (v = "allow" \/ v = "deny")).
Proof.
  exact (zone_table_stays_within_zones empty_tables zones_lan_wan [rule_any_any_discard]
           state_any_any_discard parse_rules_any_any_discard).
Defined.


(** ** What the parser keeps true of a rule *)

Section ParseInvariant.
Variable t : tables.
Variable P : acl -> Prop.
Hypothesis P_src_zone : forall v a, P a -> P (set_src_zone v a).
Hypothesis P_dst_zone : forall v a, P a -> P (set_dst_zone v a).
Hypothesis P_action : forall v a, P a -> P (set_action v a).
Hypothesis P_comment : forall v a, P a -> P (set_comment v a).
Hypothesis P_src_port : forall v a, P a -> P (set_src_port v a).
Hypothesis P_source : forall v a a',
  P a -> source_parser t v a = Return ("Success", a') -> P a'.
Hypothesis P_destination : forall v a a',
  P a -> destination_parser t v a = Return ("Success", a') -> P a'.
Hypothesis P_service : forall v a a',
  P a -> service_parser t v a = Return ("Success", a') -> P a'.

Lemma call_parser_inv (r : outcome (string * acl)) a :
  (forall a', r = Return ("Success", a') -> P a') ->
  call_parser r = Return (Continue a) -> P a.
Proof.
  intros Hr. unfold call_parser. destruct r as [[msg a']| |]; cbn; try discriminate.
  destruct (String.eqb msg "Success") eqn:E; intros [= <-].
  apply String.eqb_eq in E as ->. now apply Hr.
Qed.

Lemma and_then_inv (r : outcome step_result) (k : acl -> outcome step_result) a :
  (forall x, r = Return (Continue x) -> P x) ->
  (forall x, P x -> k x = Return (Continue a) -> P a) ->
  and_then r k = Return (Continue a) -> P a.
Proof.
  intros Hr Hk. unfold and_then. destruct r as [[x|msg]| |]; cbn; try discriminate.
  apply Hk. now apply Hr.
Qed.

Lemma regex_match_inv line a a' :
  P a -> regex_match t line a = Return (Continue a') -> P a'.
Proof.
  intros Ha. unfold regex_match.
  destruct (Regex.match_acl_rule line) as [g|]; [|intros [= <-]; exact Ha].
  set (a1 := match Regex.g_action g with Some v => _ | None => _ end).
  assert (Ha1 : P a1) by (subst a1; destruct (Regex.g_action g); auto).
  clearbody a1. apply and_then_inv.
  - intros x. destruct (Regex.g_source_address g).
    + apply call_parser_inv. intros a0. now apply P_source.
    + intros [= <-]. exact Ha1.
  - intros a2 Ha2. apply and_then_inv.
    + intros x. destruct (Regex.g_destination_address g).
      * apply call_parser_inv. intros a0. now apply P_destination.
      * intros [= <-]. exact Ha2.
    + intros a3 Ha3. destruct (Regex.g_service g).
      * apply call_parser_inv. intros a0. now apply P_service.
      * intros [= <-]. exact Ha3.
Qed.

Lemma parse_child_inv a child a' :
  P a -> parse_child t a child = Return (Continue a') -> P a'.
Proof.
  intros Ha. unfold parse_child.
  destruct (PyStr.startswith "no enable" _); [discriminate|].
  set (a1 := if negb (isset (acl_src_zone a)) && _ then _ else a).
  assert (Ha1 : P a1) by (subst a1; destruct (_ && _); auto). clearbody a1.
  set (a2 := if negb (isset (acl_dst_zone a1)) && _ then _ else a1).
  assert (Ha2 : P a2) by (subst a2; destruct (_ && _); auto). clearbody a2.
  set (a3 := if negb (isset (acl_action a2)) && _ then _ else a2).
  assert (Ha3 : P a3) by (subst a3; destruct (_ && _); auto). clearbody a3.
  set (a4 := if PyStr.startswith "comment" _ then _ else a3).
  assert (Ha4 : P a4) by (subst a4; destruct (PyStr.startswith _ _); auto).
  clearbody a4. apply and_then_inv.
  - intros x. destruct (_ && _).
    + apply call_parser_inv. intros a0. now apply P_source.
    + intros [= <-]. exact Ha4.
  - intros a5 Ha5.
    set (a6 := if PyStr.startswith "source port" _ then _ else a5).
    assert (Ha6 : P a6).
    { subst a6. destruct (PyStr.startswith _ _); [|exact Ha5].
      destruct (String.eqb _ _); auto. }
    clearbody a6. apply and_then_inv.
    + intros x. destruct (_ && _).
      * apply call_parser_inv. intros a0. now apply P_destination.
      * intros [= <-]. exact Ha6.
    + intros a7 Ha7. destruct (_ && _).
      * apply call_parser_inv. intros a0. now apply P_service.
      * intros [= <-]. exact Ha7.
Qed.

Lemma parse_children_inv l : forall a a',
  P a -> parse_children t a l = Return (Continue a') -> P a'.
Proof.
  induction l as [|child l IH]; intros a a' Ha; cbn.
  - intros [= <-]. exact Ha.
  - apply and_then_inv.
    + intros x. now apply parse_child_inv.
    + intros a1 Ha1. now apply IH.
Qed.

Lemma parse_fields_inv line a :
  P empty_acl -> parse_fields t line = Return (Continue a) -> P a.
Proof.
  intros H0. unfold parse_fields. apply and_then_inv.
  - intros x. now apply regex_match_inv.
  - intros x Hx. destruct (children line) as [|c cs]; [discriminate|].
    now apply parse_children_inv.
Qed.

(** A rule of [acl_list] satisfies what the parser keeps true, and it is not
    the rule that is any in its three slots. *)
Lemma parse_rules_inv dzm config st :
  P empty_acl -> parse_rules t dzm config = Return st ->
  Forall (fun a => P a /\ exists dzm0 dzm1, finish_line dzm0 a = Return (Dict a, dzm1))
         (acl_list st).
Proof.
  intros H0. unfold parse_rules.
  destruct (duplicate_splitter _ _) as [[rules new]| |]; cbn; try discriminate.
  apply (foldM_invariant _ (fun st => Forall _ (acl_list st))); [|constructor].
  intros s rule s' Hs. unfold parse_rule_step, parse_line.
  destruct (parse_fields t rule) as [[a0|msg]| |] eqn:Hf; cbn; try discriminate.
  - destruct (finish_line (zone_map s) a0) as [[[a|msg] dzm']| |] eqn:Hp; cbn; try discriminate.
    + intros [= <-]. cbn. apply Forall_app. split; [exact Hs|].
      constructor; [|constructor].
      pose proof (finish_line_dict _ _ _ _ Hp) as ->. split; [|eauto].
      eapply parse_fields_inv; eassumption.
    + destruct (String.eqb _ _); intros [= <-]; exact Hs.
  - destruct (String.eqb _ _); intros [= <-]; exact Hs.
Qed.

End ParseInvariant.

(** ** No record that matches everything *)

Lemma Forall_is_reference_OBJ_GRP l1 l2 : Forall is_reference (map OBJ l1 ++ map GRP l2).
Proof.
  apply Forall_app. split; apply Forall_forall; intros x Hx;
    apply list_elem_of_In, in_map_iff in Hx as (id & <- & _); exists id; auto.
Qed.

Lemma source_parser_shape t v a a' :
  acl_shape a -> source_parser t v a = Return ("Success", a') -> acl_shape a'.
Proof.
  intros (Hs & Hd & Hv). unfold source_parser, PyStr.getitem. intros H.
  assert (G : forall x, slot_shape x -> acl_shape (set_src x a)).
  { intros x Hx. split; [|split]; cbn; [intros ? [= <-]; exact Hx|exact Hd|exact Hv]. }
  head_cases H; injection H as <-; try discriminate;
    try (apply G; cbn; first [now left | right; eexists; eauto; fail
                             | apply Forall_is_reference_OBJ_GRP
                             | repeat constructor; eexists; eauto]);
    try (split; [|split]; assumption).
Qed.

Lemma destination_parser_shape t v a a' :
  acl_shape a -> destination_parser t v a = Return ("Success", a') -> acl_shape a'.
Proof.
  intros (Hs & Hd & Hv). unfold destination_parser, PyStr.getitem. intros H.
  assert (G : forall x, slot_shape x -> acl_shape (set_dst x a)).
  { intros x Hx. split; [|split]; cbn; [exact Hs|intros ? [= <-]; exact Hx|exact Hv]. }
  head_cases H; injection H as <-; try discriminate;
    try (apply G; cbn; first [now left | right; eexists; eauto; fail
                             | apply Forall_is_reference_OBJ_GRP
                             | repeat constructor; eexists; eauto]);
    try (split; [|split]; assumption).
Qed.

Lemma service_parser_shape t v a msg a' :
  service_tables_ok t -> acl_shape a ->
  service_parser t v a = Return (msg, a') -> acl_shape a'.
Proof.
  intros (H1 & H2 & H3) (Hs & Hd & Hv). unfold service_parser, PyStr.getitem. intros H.
  assert (G : forall (b : bool) rest,
    Forall (fun s : service => s.1 ∈ table_protocols) rest ->
    acl_shape (set_services ((if b then [("any", "any")] else []) ++ rest) a)).
  { intros b rest Hr. split; [|split]; cbn; [exact Hs|exact Hd|].
    intros ? [= <-]. exists (if b then [("any", "any")] else []), rest.
    split; [reflexivity|]. split; [destruct b; auto|exact Hr]. }
  assert (G0 : forall b : bool,
    acl_shape (set_services (if b then [("any", "any")] else []) a)).
  { intros b. rewrite <- (app_nil_r (if b then _ else _)). apply G. constructor. }
  destruct (PyStr.contains "name" v).
  - destruct (PyStr.haskey _ _).
    + destruct (service_objects t !! _) as [s|] eqn:Hso; cbn in H; try discriminate.
      injection H as <- <-. apply G. constructor; [exact (H1 _ _ Hso)|constructor].
    + injection H as <- <-. apply G0.
  - destruct (PyStr.contains "group" v).
    + destruct (PyStr.haskey _ _).
      * destruct (service_object_groups t !! _) as [l0|] eqn:Hso; cbn in H; try discriminate.
        injection H as <- <-. apply G, combine_like_services_ok. exact (H2 _ _ Hso).
      * destruct (PyStr.haskey _ _).
        -- destruct (service_group_of_groups t !! _) as [l0|] eqn:Hso; cbn in H; try discriminate.
           injection H as <- <-. apply G, combine_like_services_ok. exact (H3 _ _ Hso).
        -- injection H as <- <-. apply G0.
    + injection H as <- <-. apply G0.
Qed.

Lemma parse_rules_shape t dzm config st :
  service_tables_ok t -> parse_rules t dzm config = Return st ->
  Forall (fun a => acl_shape a /\ exists dzm0 dzm1, finish_line dzm0 a = Return (Dict a, dzm1))
         (acl_list st).
Proof.
  intros Ht. apply (parse_rules_inv t acl_shape).
  - intros v a (Hs & Hd & Hv). split; [|split]; assumption.
  - intros v a (Hs & Hd & Hv). split; [|split]; assumption.
  - intros v a (Hs & Hd & Hv). split; [|split]; assumption.
  - intros v a (Hs & Hd & Hv). split; [|split]; assumption.
  - intros v a (Hs & Hd & Hv). split; [|split]; assumption.
  - intros v a a'. apply source_parser_shape.
  - intros v a a'. apply destination_parser_shape.
  - intros v a a'. now apply service_parser_shape.
  - split; [|split]; cbn; discriminate.
Qed.

Lemma product3_elem {A B C} (la : list A) (lb : list B) (lc : list C) x :
  x ∈ product3 la lb lc -> x.1.1 ∈ la /\ x.1.2 ∈ lb /\ x.2 ∈ lc.
Proof.
  unfold product3. intros H.
  apply list_elem_of_bind in H as (a & H & Ha).
  apply list_elem_of_bind in H as (b & H & Hb).
  apply list_elem_of_bind in H as (c & H & Hc).
  apply list_elem_of_singleton in H as ->. auto.
Qed.

Lemma reference_not_any s : is_reference s -> s <> "any".
Proof. intros [id [-> | ->]]; discriminate. Qed.

Lemma any_in_slot v : slot_shape v -> "any" ∈ combo v -> v = Str "any".
Proof.
  destruct v as [s|l]; cbn.
  - intros _ H. apply list_elem_of_singleton in H as <-. reflexivity.
  - intros Hl H. rewrite Forall_forall in Hl. now destruct (reference_not_any _ (Hl _ H)).
Qed.

Lemma rule_protocol_any p : rule_protocol p = "any" -> p = "any".
Proof.
  unfold rule_protocol. destruct (String.eqb p "ICMP"); [discriminate|].
  destruct (String.eqb p "ICMPV6"); [discriminate|auto].
Qed.

Lemma any_in_services l svc :
  services_shape l -> svc ∈ l -> svc.1 = "any" -> exists rest, l = ("any", "any") :: rest.
Proof.
  intros (pre & rest & -> & Hpre & Hrest) Hin Hany.
  assert (Hno : svc ∉ rest).
  { intros H. rewrite Forall_forall in Hrest. specialize (Hrest _ H). rewrite Hany in Hrest.
    unfold table_protocols in Hrest. repeat (apply elem_of_cons in Hrest as [Hrest|Hrest]; [discriminate|]).
    inversion Hrest. }
  destruct Hpre as [-> | ->]; [contradiction|eauto].
Qed.

Lemma finish_line_all_any dzm a rest r dzm' :
  acl_src a = Some (Str "any") -> acl_dst a = Some (Str "any") ->
  acl_services a = Some (("any", "any") :: rest) ->
  finish_line dzm a = Return (r, dzm') -> exists msg, r = Msg msg.
Proof.
  intros Hs Hd Hv. unfold finish_line. rewrite Hs, Hd, Hv. intros H.
  destruct (acl_action a); [|injection H as <- _; eauto].
  destruct (acl_src_zone a); [|injection H as <- _; eauto].
  destruct (acl_dst_zone a); [|injection H as <- _; eauto].
  cbn in H. destruct (dzm !! _); [destruct (PyStr.haskey _ _)|]; injection H as <- _; eauto.
Qed.

Lemma empty_tables_service_ok : service_tables_ok empty_tables.
Proof. repeat split; intros k x Hk; cbn in Hk; rewrite lookup_empty in Hk; discriminate. Qed.

(** X6: no record of [firewall_rules] matches everything, with [any] as its
    source, [any] as its destination and [any] as its protocol. *)
Theorem no_flattened_rule_matches_everything
    (d : dashboard) (config : list IOSCfgLine) (dzm : gmap string (gmap string string))
    (mapping_flag : bool) (w : world) (st : rules_state)
    (rules : list firewall_rule) (r : firewall_rule) :
  create_objects empty_tables d config = Return w ->
  parse_rules (tbl w) dzm config = Return st ->
  create_mx_rules mapping_flag (acl_list st) = Return rules ->
  r ∈ rules ->
  fr_srcCidr r <> "any" \/ fr_destCidr r <> "any" \/ fr_protocol r <> "any".
Proof.
  intros Hc Hp Hm Hr.
  destruct (decide (fr_srcCidr r = "any")) as [Hsrc|]; [|now left].
  destruct (decide (fr_destCidr r = "any")) as [Hdst|]; [|now right; left].
  destruct (decide (fr_protocol r = "any")) as [Hproto|]; [|now right; right].
  exfalso.
  assert (Hok : service_tables_ok (tbl w)).
  { eapply create_objects_service_tables_ok; [|exact Hc]. apply empty_tables_service_ok. }
  pose proof (parse_rules_shape _ _ _ _ Hok Hp) as Hshape.
  rewrite (create_mx_rules_complete _ _ (parse_rules_complete _ _ _ _ Hp)) in Hm.
  injection Hm as <-.
  apply list_elem_of_In, in_concat in Hr as (l & Hl & Hr).
  apply list_elem_of_In, list_elem_of_fmap in Hl as (a & -> & Ha).
  rewrite Forall_forall in Hshape. destruct (Hshape _ Ha) as ((Hs & Hd & Hv) & dzm0 & dzm1 & Hf).
  apply list_elem_of_In in Hr. unfold records_of in Hr.
  destruct (acl_action a) as [action|]; [|inversion Hr].
  destruct (acl_src a) as [src|] eqn:Es; [|inversion Hr].
  destruct (acl_dst a) as [dst|] eqn:Ed; [|inversion Hr].
  destruct (acl_services a) as [svcs|] eqn:Ev; [|inversion Hr].
  destruct (acl_src_zone a) as [sz|]; [|inversion Hr].
  destruct (acl_dst_zone a) as [dz|]; [|inversion Hr].
  apply list_elem_of_fmap in Hr as (x & -> & Hx). cbn in Hsrc, Hdst, Hproto.
  apply product3_elem in Hx as (H1 & H2 & H3). rewrite Hsrc in H1. rewrite Hdst in H2.
  apply (any_in_slot _ (Hs _ eq_refl)) in H1 as ->.
  apply (any_in_slot _ (Hd _ eq_refl)) in H2 as ->.
  destruct (any_in_services _ _ (Hv _ eq_refl) H3 (rule_protocol_any _ Hproto)) as [rest ->].
  destruct (finish_line_all_any _ _ _ _ _ Es Ed Ev Hf) as [msg Hmsg]. discriminate Hmsg.
Qed.

Lemma no_flattened_rule_matches_everything_witness :
  fr_srcCidr record_tcp_rule <> "any" \/ fr_destCidr record_tcp_rule <> "any"
  \/ fr_protocol record_tcp_rule <> "any".
Proof.
  apply (no_flattened_rule_matches_everything empty_dashboard config_tcp_rule
           (initial_zone_map ZONES) false world_tcp_rule state_tcp_rule [record_tcp_rule]
           record_tcp_rule create_objects_tcp_rule parse_rules_tcp_rule
           create_mx_rules_tcp_rule).
  left.
Defined.


(** ** The tables and the Dashboard *)

Ltac split_ands :=
  repeat match goal with |- _ /\ _ => split end.

Lemma object_id_of_mono d d' id :
  dashboard_grows d d' -> object_id_of d id -> object_id_of d' id.
Proof.
  intros (no & ng & Ho & _ & _). unfold object_id_of. rewrite Ho, fmap_app.
  intros H. apply elem_of_app. now left.
Qed.

Lemma group_id_of_mono d d' id :
  dashboard_grows d d' -> group_id_of d id -> group_id_of d' id.
Proof.
  intros (no & ng & _ & Hg & _). unfold group_id_of. rewrite Hg, fmap_app.
  intros H. apply elem_of_app. now left.
Qed.

Lemma group_sound_mono d d' g : dashboard_grows d d' -> group_sound d g -> group_sound d' g.
Proof.
  intros Hd [Hne Hall]. split; [exact Hne|].
  eapply Forall_impl; [exact Hall|]. intros id. now apply object_id_of_mono.
Qed.

Lemma dashboard_grows_refl d : dashboard_grows d d.
Proof. exists [], []. rewrite !app_nil_r. repeat split. constructor. Qed.

Lemma dashboard_grows_trans d1 d2 d3 :
  dashboard_grows d1 d2 -> dashboard_grows d2 d3 -> dashboard_grows d1 d3.
Proof.
  intros (no & ng & Ho & Hg & Hs) H23. pose proof H23 as (no' & ng' & Ho' & Hg' & Hs').
  exists (no ++ no'), (ng ++ ng'). rewrite Ho', Ho, Hg', Hg, <- !app_assoc.
  repeat split. apply Forall_app. split; [|exact Hs'].
  eapply Forall_impl; [exact Hs|]. intros g. now apply group_sound_mono.
Qed.

Lemma tables_issued_mono d d' t :
  dashboard_grows d d' -> tables_issued d t -> tables_issued d' t.
Proof.
  intros Hd (H1 & H2 & H3 & H4 & H5 & H6 & H7).
  pose proof (fun id => object_id_of_mono d d' id Hd) as Ho.
  pose proof (fun id => group_id_of_mono d d' id Hd) as Hg.
  unfold tables_issued. split_ands; (eapply map_Forall_impl; [eassumption|]); cbn; auto.
  - intros _ p [Ha Hb]. split; eapply Forall_impl; eauto.
  - intros _ p [Ha Hb]. split; eapply Forall_impl; eauto.
Qed.

Lemma create_object_grows d name category type value :
  let r := createOrganizationPolicyObject d name category type value in
  dashboard_grows d r.2 /\ object_id_of r.2 r.1.1 /\ r.1.2 = name.
Proof.
  cbn. split; [|split; [|reflexivity]].
  - eexists [_], []. cbn. split; [reflexivity|]. split; [now rewrite app_nil_r|constructor].
  - unfold object_id_of. cbn. rewrite fmap_app. apply elem_of_app. right. left.
Qed.

Lemma create_group_grows d name ids :
  ids <> [] -> Forall (object_id_of d) ids ->
  let r := createOrganizationPolicyObjectsGroup d name ids in
  dashboard_grows d r.2 /\ group_id_of r.2 r.1.1 /\ r.1.2 = name.
Proof.
  intros Hne Hall. cbn. split; [|split; [|reflexivity]].
  - eexists [], [_]. cbn. split; [now rewrite app_nil_r|]. split; [reflexivity|].
    constructor; [|constructor]. split; [exact Hne|exact Hall].
  - unfold group_id_of. cbn. rewrite fmap_app. apply elem_of_app. right. left.
Qed.

Lemma create_range_objects_grows d name category type idx ranges :
  let r := create_range_objects d name category type idx ranges in
  dashboard_grows d r.2 /\ Forall (object_id_of r.2) r.1.
Proof.
  rewrite create_range_objects_spec. cbn. split.
  - eexists _, []. cbn. split; [reflexivity|]. split; [now rewrite app_nil_r|constructor].
  - apply Forall_forall. intros id Hid. unfold object_id_of. cbn.
    rewrite fmap_app. apply elem_of_app. now right.
Qed.

(** *** The dictionaries built for the groups *)

Lemma group_line_ids d t header st line st' :
  tables_issued d t -> ids_issued d st.1 ->
  group_line t header st line = Return st' -> ids_issued d st'.1.
Proof.
  intros (H1 & H2 & H3 & H4 & H5 & H6 & H7) (I1 & I2 & I3 & I4).
  unfold group_line, PyStr.getitem. destruct st as [m fp]. cbn [fst] in *. intros H.
  destruct (PyStr.startswith "address-object ipv4" _).
  - destruct (_ && _); [injection H as <-; repeat split; assumption|].
    destruct (PyStr.haskey (objects t) _).
    + destruct (objects t !! _) as [id|] eqn:E; [|discriminate H]. injection H as <-.
      cbn. repeat split; try assumption. apply Forall_app. split; [exact I1|].
      constructor; [exact (H1 _ _ E)|constructor].
    + destruct (PyStr.haskey (range_objects t) _).
      * destruct (range_objects t !! _) as [id|] eqn:E; [|discriminate H]. injection H as <-.
        cbn. repeat split; try assumption. apply Forall_app. split; [exact I2|].
        constructor; [exact (H3 _ _ E)|constructor].
      * destruct (object_groups t !! _) as [id|] eqn:E; [|discriminate H]. injection H as <-.
        cbn. repeat split; try assumption. apply Forall_app. split; [exact I3|].
        constructor; [exact (H4 _ _ E)|constructor].
  - destruct (PyStr.startswith "address-group ipv4" _);
      [|injection H as <-; repeat split; assumption].
    destruct (negb _); [injection H as <-; repeat split; assumption|].
    destruct (object_groups t !! _) as [id|] eqn:E; [|discriminate H]. injection H as <-.
    cbn. repeat split; try assumption. apply Forall_app. split; [exact I3|].
    constructor; [exact (H4 _ _ E)|constructor].
Qed.

Lemma group_ipv6_line_ids d t header st line st' :
  tables_issued d t -> ids_issued d st.1 ->
  group_ipv6_line t header st line = Return st' -> ids_issued d st'.1.
Proof.
  intros (H1 & H2 & H3 & H4 & H5 & H6 & H7) (I1 & I2 & I3 & I4).
  unfold group_ipv6_line, PyStr.getitem. destruct st as [m fp]. cbn [fst] in *. intros H.
  destruct (PyStr.startswith "address-object fqdn" _).
  - destruct (negb _); [injection H as <-; repeat split; assumption|].
    destruct (fqdn_objects t !! _) as [id|] eqn:E; [|discriminate H]. injection H as <-.
    cbn. repeat split; try assumption. apply Forall_app. split; [exact I4|].
    constructor; [exact (H2 _ _ E)|constructor].
  - destruct (PyStr.startswith "address-object ipv4" _);
      [|injection H as <-; repeat split; assumption].
    destruct (negb _); [injection H as <-; repeat split; assumption|].
    destruct (objects t !! _) as [id|] eqn:E; [|discriminate H]. injection H as <-.
    cbn. repeat split; try assumption. apply Forall_app. split; [exact I1|].
    constructor; [exact (H1 _ _ E)|constructor].
Qed.

Lemma mx_new_ids d name category : ids_issued d (mx_new name category).
Proof. repeat split; constructor. Qed.

Lemma build_group_ids d t e fp m fp' :
  tables_issued d t ->
  build_mx_object t OT_group e fp = Return (Some m, fp') -> ids_issued d m.
Proof.
  intros Ht. unfold build_mx_object. intros H.
  destruct (negb _); [|discriminate H].
  destruct (children e) as [|l ls]; [discriminate H|].
  destruct (foldM _ _ _) as [[m1 fp1]| |] eqn:Hf; try discriminate H.
  unfold mbind, outcome_bind in H. injection H as <- <-.
  eapply (foldM_invariant _ (fun st => ids_issued d st.1)) in Hf; [exact Hf| |apply mx_new_ids].
  intros s x s' Hs Hx. eapply group_line_ids; eassumption.
Qed.

Lemma build_group_ipv6_ids d t e fp m fp' :
  tables_issued d t ->
  build_mx_object t OT_group_ipv6 e fp = Return (Some m, fp') -> ids_issued d m.
Proof.
  intros Ht. unfold build_mx_object. intros H.
  destruct (_ && _); [|discriminate H].
  destruct (children e) as [|l ls]; [discriminate H|].
  destruct (foldM _ _ _) as [[m1 fp1]| |] eqn:Hf; try discriminate H.
  unfold mbind, outcome_bind in H. injection H as <- <-.
  eapply (foldM_invariant _ (fun st => ids_issued d st.1)) in Hf; [exact Hf| |apply mx_new_ids].
  intros s x s' Hs Hx. eapply group_ipv6_line_ids; eassumption.
Qed.

(** *** The passes *)

Lemma keeps_same w fp :
  tables_issued (dash w) (tbl w) ->
  dashboard_grows (dash w) (dash (mkWorld (tbl w) (dash w) fp)) /\
  tables_issued (dash (mkWorld (tbl w) (dash w) fp)) (tbl (mkWorld (tbl w) (dash w) fp)).
Proof. intros H. split; [apply dashboard_grows_refl|exact H]. Qed.

Lemma tables_issued_objects d t name id :
  tables_issued d t -> object_id_of d id -> tables_issued d (set_objects <[name := id]> t).
Proof.
  intros (H1 & H2 & H3 & H4 & H5 & H6 & H7) Hid. unfold tables_issued. split_ands; try assumption.
  cbn. now apply map_Forall_insert_2.
Qed.

Lemma tables_issued_fqdn_objects d t name id :
  tables_issued d t -> object_id_of d id -> tables_issued d (set_fqdn_objects <[name := id]> t).
Proof.
  intros (H1 & H2 & H3 & H4 & H5 & H6 & H7) Hid. unfold tables_issued. split_ands; try assumption.
  cbn. now apply map_Forall_insert_2.
Qed.

Lemma tables_issued_range_objects d t name id :
  tables_issued d t -> group_id_of d id -> tables_issued d (set_range_objects <[name := id]> t).
Proof.
  intros (H1 & H2 & H3 & H4 & H5 & H6 & H7) Hid. unfold tables_issued. split_ands; try assumption.
  cbn. now apply map_Forall_insert_2.
Qed.

Lemma tables_issued_object_groups d t name id :
  tables_issued d t -> group_id_of d id -> tables_issued d (set_object_groups <[name := id]> t).
Proof.
  intros (H1 & H2 & H3 & H4 & H5 & H6 & H7) Hid. unfold tables_issued. split_ands; try assumption.
  cbn. now apply map_Forall_insert_2.
Qed.

Lemma tables_issued_fqdn_object_groups d t name id :
  tables_issued d t -> group_id_of d id ->
  tables_issued d (set_fqdn_object_groups <[name := id]> t).
Proof.
  intros (H1 & H2 & H3 & H4 & H5 & H6 & H7) Hid. unfold tables_issued. split_ands; try assumption.
  cbn. now apply map_Forall_insert_2.
Qed.

Lemma tables_issued_range_object_groups d t name p :
  tables_issued d t -> Forall (object_id_of d) p.1 -> Forall (group_id_of d) p.2 ->
  tables_issued d (set_range_object_groups <[name := p]> t).
Proof.
  intros (H1 & H2 & H3 & H4 & H5 & H6 & H7) Ha Hb. unfold tables_issued. split_ands; try assumption.
  cbn. now apply map_Forall_insert_2.
Qed.

Lemma tables_issued_group_of_groups d t name p :
  tables_issued d t -> Forall (object_id_of d) p.1 -> Forall (group_id_of d) p.2 ->
  tables_issued d (set_group_of_groups <[name := p]> t).
Proof.
  intros (H1 & H2 & H3 & H4 & H5 & H6 & H7) Ha Hb. unfold tables_issued. split_ands; try assumption.
  cbn. now apply map_Forall_insert_2.
Qed.

Lemma ipv4_object_step_keeps : step_keeps ipv4_object_step.
Proof.
  intros w e w' Ht. unfold ipv4_object_step, getkey.
  destruct (build_mx_object _ _ _ _) as [[[m|] fp]| |]; cbn [mbind outcome_bind];
    try discriminate; [|intros [= <-]; now apply keeps_same].
  destruct (mx_range m) as [ranges|].
  - destruct (mx_category m) as [category|]; [|discriminate].
    destruct (mx_type m) as [type|]; [|discriminate]. cbn [mbind outcome_bind].
    pose proof (create_range_objects_grows (dash w) (mx_name m) category type 0 ranges) as [Hg Hids].
    destruct (create_range_objects _ _ _ _ _ _) as [object_ids d]. cbn [fst snd] in Hg, Hids.
    destruct object_ids as [|id0 ids].
    + intros [= <-]. cbn. split; [exact Hg|]. eapply tables_issued_mono; eassumption.
    + pose proof (create_group_grows d (mx_name m +:+ "__range__") (id0 :: ids)
                    ltac:(discriminate) Hids) as (Hg' & Hid & Hname).
      destruct (createOrganizationPolicyObjectsGroup _ _ _) as [[id name] d'].
      cbn [fst snd] in Hg', Hid, Hname. intros [= <-]. cbn.
      split; [eapply dashboard_grows_trans; eassumption|].
      apply tables_issued_range_objects; [|exact Hid].
      eapply tables_issued_mono; [|exact Ht]. eapply dashboard_grows_trans; eassumption.
  - destruct (mx_category m) as [category|]; [|discriminate].
    destruct (mx_type m) as [type|]; [|discriminate].
    destruct (mx_cidr m) as [cidr|]; [|discriminate]. cbn [mbind outcome_bind].
    pose proof (create_object_grows (dash w) (mx_name m) category type cidr) as (Hg & Hid & _).
    destruct (createOrganizationPolicyObject _ _ _ _ _) as [[id name] d].
    cbn [fst snd] in Hg, Hid. intros [= <-]. cbn. split; [exact Hg|].
    apply tables_issued_objects; [|exact Hid]. eapply tables_issued_mono; eassumption.
Qed.

Lemma fqdn_object_step_keeps : step_keeps fqdn_object_step.
Proof.
  intros w e w' Ht. unfold fqdn_object_step, getkey.
  destruct (build_mx_object _ _ _ _) as [[[m|] fp]| |]; cbn [mbind outcome_bind];
    try discriminate; [|intros [= <-]; now apply keeps_same].
  destruct (mx_category m) as [category|]; [|discriminate].
  destruct (mx_type m) as [type|]; [|discriminate].
  destruct (mx_fqdn m) as [fqdn|]; [|discriminate]. cbn [mbind outcome_bind].
  pose proof (create_object_grows (dash w) (mx_name m) category type fqdn) as (Hg & Hid & _).
  destruct (createOrganizationPolicyObject _ _ _ _ _) as [[id name] d].
  cbn [fst snd] in Hg, Hid. intros [= <-]. cbn. split; [exact Hg|].
  apply tables_issued_fqdn_objects; [|exact Hid]. eapply tables_issued_mono; eassumption.
Qed.

Lemma ipv4_group_step_keeps : step_keeps ipv4_group_step.
Proof.
  intros w e w' Ht. unfold ipv4_group_step.
  destruct (build_mx_object _ _ _ _) as [[[m|] fp]| |] eqn:Hb; cbn [mbind outcome_bind];
    try discriminate; [|intros [= <-]; now apply keeps_same].
  pose proof (build_group_ids _ _ _ _ _ _ Ht Hb) as (I1 & I2 & I3 & I4).
  destruct (mx_rangeIds m) as [|r0 rs] eqn:Er.
  - destruct (mx_objectIds m) as [|o0 os] eqn:Eo.
    + intros [= <-]. now apply keeps_same.
    + pose proof (create_group_grows (dash w) (mx_name m) (o0 :: os)
                    ltac:(discriminate) I1) as (Hg & Hid & _).
      destruct (createOrganizationPolicyObjectsGroup _ _ _) as [[id name] d].
      cbn [fst snd] in Hg, Hid. intros [= <-]. cbn. split; [exact Hg|].
      apply tables_issued_object_groups; [|exact Hid]. eapply tables_issued_mono; eassumption.
  - intros [= <-]. cbn. split; [apply dashboard_grows_refl|].
    apply tables_issued_range_object_groups; assumption.
Qed.

Lemma ipv6_group_step_keeps : step_keeps ipv6_group_step.
Proof.
  intros w e w' Ht. unfold ipv6_group_step.
  destruct (build_mx_object _ _ _ _) as [[[m|] fp]| |] eqn:Hb; cbn [mbind outcome_bind];
    try discriminate; [|intros [= <-]; now apply keeps_same].
  pose proof (build_group_ipv6_ids _ _ _ _ _ _ Ht Hb) as (I1 & I2 & I3 & I4).
  destruct (mx_objectFQDNs m) as [|f0 fs] eqn:Ef; [intros [= <-]; now apply keeps_same|].
  destruct (mx_objectIds m) as [|o0 os] eqn:Eo.
  - cbn [app].
    pose proof (create_group_grows (dash w) (mx_name m) (f0 :: fs)
                  ltac:(discriminate) I4) as (Hg & Hid & _).
    destruct (createOrganizationPolicyObjectsGroup _ _ _) as [[id name] d].
    cbn [fst snd] in Hg, Hid. intros [= <-]. cbn. split; [exact Hg|].
    apply tables_issued_fqdn_object_groups; [|exact Hid]. eapply tables_issued_mono; eassumption.
  - set (r1 := if negb (PyStr.haskey (fqdn_object_groups (tbl w)) _) then _ else _).
    assert (H1 : dashboard_grows (dash w) r1.2 /\ tables_issued r1.2 r1.1).
    { subst r1. destruct (negb _); [|split; [apply dashboard_grows_refl|exact Ht]].
      pose proof (create_group_grows (dash w) (mx_name m +:+ "__fqdn__split") (f0 :: fs)
                    ltac:(discriminate) I4) as (Hg & Hid & _).
      destruct (createOrganizationPolicyObjectsGroup _ _ _) as [[id name] d].
      cbn [fst snd] in *. split; [exact Hg|].
      apply tables_issued_fqdn_object_groups; [|exact Hid].
      eapply tables_issued_mono; eassumption. }
    destruct r1 as [t1 d1]. cbn [fst snd] in H1. destruct H1 as [Hg1 Ht1].
    set (r2 := if negb (PyStr.haskey (object_groups t1) _) then _ else _).
    assert (H2 : dashboard_grows d1 r2.2 /\ tables_issued r2.2 r2.1).
    { subst r2. destruct (negb _); [|split; [apply dashboard_grows_refl|exact Ht1]].
      assert (I1' : Forall (object_id_of d1) (o0 :: os)).
      { eapply Forall_impl; [exact I1|]. intros x. now apply object_id_of_mono. }
      pose proof (create_group_grows d1 (mx_name m +:+ "__ipv4__split") (o0 :: os)
                    ltac:(discriminate) I1') as (Hg & Hid & _).
      destruct (createOrganizationPolicyObjectsGroup _ _ _) as [[id name] d].
      cbn [fst snd] in *. split; [exact Hg|].
      apply tables_issued_object_groups; [|exact Hid].
      eapply tables_issued_mono; eassumption. }
    destruct r2 as [t2 d2]. cbn [fst snd] in H2. destruct H2 as [Hg2 Ht2].
    intros [= <-]. cbn. split; [eapply dashboard_grows_trans; eassumption|exact Ht2].
Qed.

Lemma nested_group_step_keeps : step_keeps nested_group_step.
Proof.
  intros w e w' Ht. unfold nested_group_step.
  destruct (build_mx_object _ _ _ _) as [[[m|] fp]| |] eqn:Hb; cbn [mbind outcome_bind];
    try discriminate; [|intros [= <-]; now apply keeps_same].
  pose proof (build_group_ids _ _ _ _ _ _ Ht Hb) as (I1 & I2 & I3 & I4).
  destruct (mx_group_of_groups m) as [|g0 gs] eqn:Eg; [intros [= <-]; now apply keeps_same|].
  destruct (negb _); intros [= <-]; [|now apply keeps_same].
  cbn. split; [apply dashboard_grows_refl|].
  apply tables_issued_group_of_groups; assumption.
Qed.

Lemma service_steps_keep step :
  (forall w e w', step w e = Return w' ->
     dash w' = dash w /\ objects (tbl w') = objects (tbl w) /\
     fqdn_objects (tbl w') = fqdn_objects (tbl w) /\
     range_objects (tbl w') = range_objects (tbl w) /\
     object_groups (tbl w') = object_groups (tbl w) /\
     fqdn_object_groups (tbl w') = fqdn_object_groups (tbl w) /\
     range_object_groups (tbl w') = range_object_groups (tbl w) /\
     group_of_groups (tbl w') = group_of_groups (tbl w)) ->
  step_keeps step.
Proof.
  intros Hs w e w' Ht H. destruct (Hs _ _ _ H) as (-> & E1 & E2 & E3 & E4 & E5 & E6 & E7).
  split; [apply dashboard_grows_refl|]. unfold tables_issued.
  rewrite E1, E2, E3, E4, E5, E6, E7. exact Ht.
Qed.

Lemma service_object_step_keeps : step_keeps service_object_step.
Proof.
  apply service_steps_keep. intros w e w'. unfold service_object_step, getkey.
  destruct (build_mx_object _ _ _ _) as [[[m|] fp]| |]; cbn [mbind outcome_bind];
    try discriminate; [|intros [= <-]; repeat split].
  destruct (mx_protocol m); [|discriminate]. intros [= <-]. repeat split.
Qed.

Lemma service_group_step_keeps : step_keeps service_group_step.
Proof.
  apply service_steps_keep. intros w e w'. unfold service_group_step.
  destruct (build_mx_object _ _ _ _) as [[[m|] fp]| |]; cbn [mbind outcome_bind];
    try discriminate; intros [= <-]; repeat split.
Qed.

Lemma nested_service_group_step_keeps : step_keeps nested_service_group_step.
Proof.
  apply service_steps_keep. intros w e w'. unfold nested_service_group_step.
  destruct (build_mx_object _ _ _ _) as [[[m|] fp]| |]; cbn [mbind outcome_bind];
    try discriminate; [|intros [= <-]; repeat split].
  destruct (mx_nested_services m); [intros [= <-]; repeat split|].
  destruct (negb _); intros [= <-]; repeat split.
Qed.

Lemma pass_keeps d0 step l w w' :
  step_keeps step -> foldM step l w = Return w' ->
  dashboard_grows d0 (dash w) /\ tables_issued (dash w) (tbl w) ->
  dashboard_grows d0 (dash w') /\ tables_issued (dash w') (tbl w').
Proof.
  intros Hstep Hf H0.
  eapply (foldM_invariant step
            (fun w => dashboard_grows d0 (dash w) /\ tables_issued (dash w) (tbl w)));
    [|exact H0|exact Hf].
  intros s x s' [Hg Ht] Hx. destruct (Hstep _ _ _ Ht Hx) as [Hg' Ht'].
  split; [eapply dashboard_grows_trans; eassumption|exact Ht'].
Qed.

Lemma split_pass_keeps d0 ty step l w w' :
  step_keeps step -> split_pass ty step l w = Return w' ->
  dashboard_grows d0 (dash w) /\ tables_issued (dash w) (tbl w) ->
  dashboard_grows d0 (dash w') /\ tables_issued (dash w') (tbl w').
Proof.
  intros Hstep H. unfold split_pass in H.
  destruct (duplicate_splitter l ty) as [[sel new]| |]; cbn in H; try discriminate.
  eapply pass_keeps; eassumption.
Qed.

(** *** The bootstrap *)

Lemma bootstrap_issued d : tables_issued d (bootstrap empty_tables d).
Proof.
  unfold bootstrap.
  assert (A : forall l t0, (forall o, o ∈ l -> o ∈ policy_objects d) ->
                tables_issued d t0 -> tables_issued d (foldl adopt_policy_object t0 l)).
  { induction l as [|o l IH]; intros t0 Hl H0; cbn; [exact H0|]. apply IH.
    - intros o' Ho'. apply Hl. now right.
    - assert (Hid : object_id_of d (po_id o)).
      { unfold object_id_of. apply list_elem_of_fmap. exists o. split; [reflexivity|].
        apply Hl. left. }
      unfold adopt_policy_object.
      destruct (String.eqb _ _); [now apply tables_issued_objects|].
      destruct (String.eqb _ _); [now apply tables_issued_fqdn_objects|exact H0]. }
  assert (B : forall l t0, (forall g, g ∈ l -> g ∈ policy_object_groups d) ->
                tables_issued d t0 -> tables_issued d (foldl adopt_policy_object_group t0 l)).
  { induction l as [|g l IH]; intros t0 Hl H0; cbn; [exact H0|]. apply IH.
    - intros g' Hg'. apply Hl. now right.
    - assert (Hid : group_id_of d (pg_id g)).
      { unfold group_id_of. apply list_elem_of_fmap. exists g. split; [reflexivity|].
        apply Hl. left. }
      unfold adopt_policy_object_group.
      destruct (PyStr.contains _ _); [now apply tables_issued_range_objects|].
      destruct (forallb _ _);
        [now apply tables_issued_object_groups|now apply tables_issued_fqdn_object_groups]. }
  apply B; [auto|]. apply A; [auto|].
  unfold tables_issued. split_ands; cbn; apply map_Forall_empty.
Qed.

Lemma create_objects_keeps d config w :
  create_objects empty_tables d config = Return w ->
  dashboard_grows d (dash w) /\ tables_issued (dash w) (tbl w).
Proof.
  intros H. unfold create_objects in H.
  assert (H0 : dashboard_grows d (dash (mkWorld (bootstrap empty_tables d) d EmptyString)) /\
               tables_issued (dash (mkWorld (bootstrap empty_tables d) d EmptyString))
                             (tbl (mkWorld (bootstrap empty_tables d) d EmptyString))).
  { split; [apply dashboard_grows_refl|apply bootstrap_issued]. }
  destruct (split_pass ST_ipv4 _ _ _) as [w1| |] eqn:P1; cbn in H; try discriminate.
  destruct (split_pass ST_fqdn _ _ _) as [w2| |] eqn:P2; cbn in H; try discriminate.
  destruct (split_pass ST_ipv4_group _ _ _) as [w3| |] eqn:P3; cbn in H; try discriminate.
  destruct (split_pass ST_ipv6_group _ _ _) as [w4| |] eqn:P4; cbn in H; try discriminate.
  destruct (foldM nested_group_step _ _) as [w5| |] eqn:P5; cbn in H; try discriminate.
  destruct (foldM service_object_step _ _) as [w6| |] eqn:P6; cbn in H; try discriminate.
  destruct (foldM service_group_step _ _) as [w7| |] eqn:P7; cbn in H; try discriminate.
  eapply (pass_keeps d) in H; [exact H | apply nested_service_group_step_keeps |].
  eapply (pass_keeps d) in P7; [exact P7 | apply service_group_step_keeps |].
  eapply (pass_keeps d) in P6; [exact P6 | apply service_object_step_keeps |].
  eapply (pass_keeps d) in P5; [exact P5 | apply nested_group_step_keeps |].
  eapply (split_pass_keeps d) in P4; [exact P4 | apply ipv6_group_step_keeps |].
  eapply (split_pass_keeps d) in P3; [exact P3 | apply ipv4_group_step_keeps |].
  eapply (split_pass_keeps d) in P2; [exact P2 | apply fqdn_object_step_keeps |].
  eapply (split_pass_keeps d) in P1; [exact P1 | apply ipv4_object_step_keeps | exact H0].
Qed.

(** *** The references of the rules *)

Lemma cidr_issued_OBJ_GRP d l1 l2 :
  Forall (object_id_of d) l1 -> Forall (group_id_of d) l2 ->
  Forall (cidr_issued d) (map OBJ l1 ++ map GRP l2).
Proof.
  intros H1 H2. apply Forall_app. split; apply Forall_forall; intros x Hx;
    apply list_elem_of_In, in_map_iff in Hx as (id & <- & Hid); apply list_elem_of_In in Hid.
  - right. left. exists id. split; [|reflexivity]. rewrite Forall_forall in H1. auto.
  - right. right. exists id. split; [|reflexivity]. rewrite Forall_forall in H2. auto.
Qed.

Ltac lookup_cases H :=
  repeat match type of H with
         | mbind _ (match ?d !! ?k with _ => _ end) = _ =>
             let E := fresh "E" in
             destruct (d !! k) eqn:E; unfold mbind at 1, outcome_bind at 1 in H;
             [|discriminate H]
         end.

Lemma source_parser_issued d t v a a' :
  tables_issued d t -> acl_issued d a ->
  source_parser t v a = Return ("Success", a') -> acl_issued d a'.
Proof.
  intros (H1 & H2 & H3 & H4 & H5 & H6 & H7) (Hs & Hd).
  unfold source_parser, PyStr.getitem. intros H.
  assert (G : forall x, Forall (cidr_issued d) (combo x) -> acl_issued d (set_src x a)).
  { intros x Hx. split; cbn; [intros ? [= <-]; exact Hx|exact Hd]. }
  assert (Gobj : forall id, object_id_of d id -> Forall (cidr_issued d) [OBJ id]).
  { intros id Hid. constructor; [|constructor]. right. left. eauto. }
  assert (Ggrp : forall id, group_id_of d id -> Forall (cidr_issued d) [GRP id]).
  { intros id Hid. constructor; [|constructor]. right. right. eauto. }
  destruct (PyStr.contains "any" v).
  { injection H as <-. apply G. constructor; [now left|constructor]. }
  destruct (PyStr.contains "name" v).
  { destruct (PyStr.haskey (objects t) _).
    { lookup_cases H. injection H as <-. apply G, Gobj. eapply H1; eassumption. }
    destruct (PyStr.haskey (range_objects t) _).
    { lookup_cases H. injection H as <-. apply G, Ggrp. eapply H3; eassumption. }
    destruct (PyStr.haskey (fqdn_objects t) _); discriminate H. }
  destruct (PyStr.contains "group" v); [|injection H as <-; split; assumption].
  destruct (PyStr.haskey (object_groups t) _).
  { lookup_cases H. injection H as <-. apply G, Ggrp. eapply H4; eassumption. }
  destruct (PyStr.haskey (range_object_groups t) _).
  { lookup_cases H. injection H as <-. apply G. cbn [combo].
    destruct (H6 _ _ E). now apply cidr_issued_OBJ_GRP. }
  destruct (PyStr.haskey (fqdn_object_groups t) _).
  { lookup_cases H. injection H as <-. apply G. cbn [combo map].
    constructor; [right; right; eexists; split; [eapply H5; eassumption|reflexivity]|].
    apply Ggrp. eapply H4; eassumption. }
  destruct (PyStr.haskey (group_of_groups t) _).
  { lookup_cases H. injection H as <-. apply G. cbn [combo].
    destruct (H7 _ _ E). now apply cidr_issued_OBJ_GRP. }
  destruct (PyStr.haskey (fqdn_object_groups t) _); discriminate H.
Qed.

Lemma destination_parser_issued d t v a a' :
  tables_issued d t -> acl_issued d a ->
  destination_parser t v a = Return ("Success", a') -> acl_issued d a'.
Proof.
  intros (H1 & H2 & H3 & H4 & H5 & H6 & H7) (Hs & Hd).
  unfold destination_parser, PyStr.getitem. intros H.
  assert (G : forall x, Forall (cidr_issued d) (combo x) -> acl_issued d (set_dst x a)).
  { intros x Hx. split; cbn; [exact Hs|intros ? [= <-]; exact Hx]. }
  assert (Gobj : forall id, object_id_of d id -> Forall (cidr_issued d) [OBJ id]).
  { intros id Hid. constructor; [|constructor]. right. left. eauto. }
  assert (Ggrp : forall id, group_id_of d id -> Forall (cidr_issued d) [GRP id]).
  { intros id Hid. constructor; [|constructor]. right. right. eauto. }
  destruct (PyStr.contains "any" v).
  { injection H as <-. apply G. constructor; [now left|constructor]. }
  destruct (PyStr.contains "name" v).
  { destruct (PyStr.haskey (objects t) _).
    { lookup_cases H. injection H as <-. apply G, Gobj. eapply H1; eassumption. }
    destruct (PyStr.haskey (fqdn_objects t) _).
    { lookup_cases H. injection H as <-. apply G, Gobj. eapply H2; eassumption. }
    destruct (PyStr.haskey (range_objects t) _).
    { lookup_cases H. injection H as <-. apply G, Ggrp. eapply H3; eassumption. }
    discriminate H. }
  destruct (PyStr.contains "group" v); [|injection H as <-; split; assumption].
  destruct (PyStr.haskey (object_groups t) _).
  { lookup_cases H. injection H as <-. apply G, Ggrp. eapply H4; eassumption. }
  destruct (PyStr.haskey (fqdn_object_groups t) _).
  { lookup_cases H. injection H as <-. apply G, Ggrp. eapply H5; eassumption. }
  destruct (PyStr.haskey (range_objects t) _); [discriminate H|].
  destruct (PyStr.haskey (fqdn_object_groups t) _).
  { lookup_cases H. injection H as <-. apply G. cbn [combo map].
    constructor; [right; right; eexists; split; [eapply H5; eassumption|reflexivity]|].
    apply Ggrp. eapply H4; eassumption. }
  destruct (PyStr.haskey (group_of_groups t) _).
  { lookup_cases H. injection H as <-. apply G. cbn [combo].
    destruct (H7 _ _ E). now apply cidr_issued_OBJ_GRP. }
  discriminate H.
Qed.

Lemma service_parser_issued d t v a msg a' :
  acl_issued d a -> service_parser t v a = Return (msg, a') -> acl_issued d a'.
Proof.
  intros Ha. unfold service_parser, PyStr.getitem. intros H.
  head_cases H; injection H as <- <-; exact Ha.
Qed.

Lemma parse_rules_issued d t dzm config st :
  tables_issued d t -> parse_rules t dzm config = Return st ->
  Forall (acl_issued d) (acl_list st).
Proof.
  intros Ht Hp.
  eapply Forall_impl; [eapply (parse_rules_inv t (acl_issued d)); [..|exact Hp]|].
  - intros v a Ha. exact Ha.
  - intros v a Ha. exact Ha.
  - intros v a Ha. exact Ha.
  - intros v a Ha. exact Ha.
  - intros v a Ha. exact Ha.
  - intros v a a'. now apply source_parser_issued.
  - intros v a a'. now apply destination_parser_issued.
  - intros v a a'. apply service_parser_issued.
  - split; cbn; discriminate.
  - cbn. intros a [Ha _]. exact Ha.
Qed.

(** X7: [create_objects] only adds to the Dashboard: the objects and the
    groups it found are still there, before the new ones, and every group
    it creates has at least one member and lists ids of policy objects of
    the Dashboard only. *)
Theorem create_objects_grows_dashboard
    (d : dashboard) (config : list IOSCfgLine) (w : world) :
  create_objects empty_tables d config = Return w ->
  exists new_objects new_groups,
    policy_objects (dash w) = policy_objects d ++ new_objects /\
    policy_object_groups (dash w) = policy_object_groups d ++ new_groups /\
    Forall (fun g => pg_objectIds g <> [] /\
                     Forall (fun id => id ∈ po_id <$> policy_objects (dash w)) (pg_objectIds g))
           new_groups.
Proof. intros H. exact (proj1 (create_objects_keeps _ _ _ H)). Qed.

(** X8: after [create_objects], every id of the address tables is an id the
    Dashboard holds: an id of a policy object in [objects] and
    [fqdn_objects], an id of a group in [range_objects], [object_groups] and
    [fqdn_object_groups], and lists of the two kinds in
    [range_object_groups] and [group_of_groups]. *)
Theorem create_objects_tables_hold_dashboard_ids
    (d : dashboard) (config : list IOSCfgLine) (w : world) :
  create_objects empty_tables d config = Return w ->
  let is_object id := id ∈ po_id <$> policy_objects (dash w) in
  let is_group id := id ∈ pg_id <$> policy_object_groups (dash w) in
  (forall k id, objects (tbl w) !! k = Some id -> is_object id) /\
  (forall k id, fqdn_objects (tbl w) !! k = Some id -> is_object id) /\
  (forall k id, range_objects (tbl w) !! k = Some id -> is_group id) /\
  (forall k id, object_groups (tbl w) !! k = Some id -> is_group id) /\
  (forall k id, fqdn_object_groups (tbl w) !! k = Some id -> is_group id) /\
  (forall k p, range_object_groups (tbl w) !! k = Some p ->
     Forall is_object p.1 /\ Forall is_group p.2) /\
  (forall k p, group_of_groups (tbl w) !! k = Some p ->
     Forall is_object p.1 /\ Forall is_group p.2).
Proof. intros H. exact (proj2 (create_objects_keeps _ _ _ H)). Qed.

(** X9: the source and the destination of every record of [firewall_rules]
    is [any], or names a policy object of the Dashboard as [OBJ[id]], or a
    group of the Dashboard as [GRP[id]]. *)
Theorem flattened_rule_references_exist
    (d : dashboard) (config : list IOSCfgLine) (dzm : gmap string (gmap string string))
    (mapping_flag : bool) (w : world) (st : rules_state)
    (rules : list firewall_rule) (r : firewall_rule) :
  create_objects empty_tables d config = Return w ->
  parse_rules (tbl w) dzm config = Return st ->
  create_mx_rules mapping_flag (acl_list st) = Return rules ->
  r ∈ rules ->
  cidr_issued (dash w) (fr_srcCidr r) /\ cidr_issued (dash w) (fr_destCidr r).
Proof.
  intros Hc Hp Hm Hr.
  pose proof (proj2 (create_objects_keeps _ _ _ Hc)) as Ht.
  pose proof (parse_rules_issued _ _ _ _ _ Ht Hp) as Hacl.
  rewrite (create_mx_rules_complete _ _ (parse_rules_complete _ _ _ _ Hp)) in Hm.
  injection Hm as <-.
  apply list_elem_of_In, in_concat in Hr as (l & Hl & Hr).
  apply list_elem_of_In, list_elem_of_fmap in Hl as (a & -> & Ha).
  rewrite Forall_forall in Hacl. destruct (Hacl _ Ha) as (Hs & Hd).
  apply list_elem_of_In in Hr. unfold records_of in Hr.
  destruct (acl_action a) as [action|]; [|inversion Hr].
  destruct (acl_src a) as [src|] eqn:Es; [|inversion Hr].
  destruct (acl_dst a) as [dst|] eqn:Ed; [|inversion Hr].
  destruct (acl_services a) as [svcs|] eqn:Ev; [|inversion Hr].
  destruct (acl_src_zone a) as [sz|]; [|inversion Hr].
  destruct (acl_dst_zone a) as [dz|]; [|inversion Hr].
  apply list_elem_of_fmap in Hr as (x & -> & Hx). cbn.
  apply product3_elem in Hx as (H1 & H2 & _).
  specialize (Hs _ eq_refl). specialize (Hd _ eq_refl).
  rewrite Forall_forall in Hs, Hd. auto.
Qed.

Lemma create_objects_range_group :
  create_objects empty_tables empty_dashboard config_range_group = Return world_range_group.
Proof. vm_compute. reflexivity. Qed.

Lemma create_objects_grows_dashboard_witness :
  exists new_objects new_groups,
    policy_objects (dash world_range_group) = policy_objects empty_dashboard ++ new_objects /\
    policy_object_groups (dash world_range_group)
      = policy_object_groups empty_dashboard ++ new_groups /\
    Forall (fun g => pg_objectIds g <> [] /\
                     Forall (fun id => id ∈ po_id <$> policy_objects (dash world_range_group))
                            (pg_objectIds g))
           new_groups.
Proof.
  exact (create_objects_grows_dashboard empty_dashboard config_range_group world_range_group
           create_objects_range_group).
Defined.

Lemma create_objects_tables_hold_dashboard_ids_witness :
  let is_object id := id ∈ po_id <$> policy_objects (dash world_range_group) in
  let is_group id := id ∈ pg_id <$> policy_object_groups (dash world_range_group) in
  (forall k id, objects (tbl world_range_group) !! k = Some id -> is_object id) /\
  (forall k id, fqdn_objects (tbl world_range_group) !! k = Some id -> is_object id) /\
  (forall k id, range_objects (tbl world_range_group) !! k = Some id -> is_group id) /\
  (forall k id, object_groups (tbl world_range_group) !! k = Some id -> is_group id) /\
  (forall k id, fqdn_object_groups (tbl world_range_group) !! k = Some id -> is_group id) /\
  (forall k p, range_object_groups (tbl world_range_group) !! k = Some p ->
     Forall is_object p.1 /\ Forall is_group p.2) /\
  (forall k p, group_of_groups (tbl world_range_group) !! k = Some p ->
     Forall is_object p.1 /\ Forall is_group p.2).
Proof.
  exact (create_objects_tables_hold_dashboard_ids empty_dashboard config_range_group
           world_range_group create_objects_range_group).
Defined.

Lemma flattened_rule_references_exist_witness :
  cidr_issued (dash world_tcp_rule) (fr_srcCidr record_tcp_rule) /\
  cidr_issued (dash world_tcp_rule) (fr_destCidr record_tcp_rule).
Proof.
  apply (flattened_rule_references_exist empty_dashboard config_tcp_rule
           (initial_zone_map ZONES) false world_tcp_rule state_tcp_rule [record_tcp_rule]
           record_tcp_rule create_objects_tcp_rule parse_rules_tcp_rule
           create_mx_rules_tcp_rule).
  left.
Defined.


(** ** The services of a group *)








(** Two ranges, a port twice and another once. *)
Example combine_like_services_ports :
  combine_like_services
    [("TCP", "80"); ("TCP", "8000-8080"); ("UDP", "53"); ("TCP", "443"); ("TCP", "80");
     ("UDP", "5000-5010")]
  = [("TCP", "8000-8080"); ("UDP", "5000-5010"); ("TCP", "80,443"); ("UDP", "53")].
Proof. reflexivity. Qed.


(** ** The names of the dictionaries *)

Lemma mentions_cons c x s :
  mentions c (String x s) = Ascii.eqb c x || mentions c s.
Proof. unfold mentions. cbn. now destruct (Ascii.eqb c x). Qed.

Lemma mentions_app c s1 s2 : mentions c (s1 +:+ s2) = mentions c s1 || mentions c s2.
Proof.
  induction s1 as [|x s1 IH].
  - cbn. unfold mentions at 2. cbn. reflexivity.
  - change (String x s1 +:+ s2) with (String x (s1 +:+ s2)).
    rewrite !mentions_cons, IH. now rewrite orb_assoc.
Qed.

Lemma replace_char_cons c new x s :
  PyStr.replace (String c EmptyString) new (String x s)
  = if Ascii.eqb c x then new +:+ PyStr.replace (String c EmptyString) new s
    else String x (PyStr.replace (String c EmptyString) new s).
Proof. unfold PyStr.replace. cbn. now destruct (Ascii.eqb c x). Qed.

(** After [s.replace(c, new)] the character [c] is gone, when [new] does not
    bring it back. *)
Lemma replace_char_removes c new s :
  mentions c new = false -> mentions c (PyStr.replace (String c EmptyString) new s) = false.
Proof.
  intros Hn. induction s as [|x s IH]; [reflexivity|].
  rewrite replace_char_cons. destruct (Ascii.eqb c x) eqn:E.
  - now rewrite mentions_app, Hn, IH.
  - now rewrite mentions_cons, E, IH.
Qed.

(** A character that is not in [s] nor in [new] is not in
    [s.replace(c', new)]. *)
Lemma replace_char_keeps_out c c' new s :
  mentions c new = false -> mentions c s = false ->
  mentions c (PyStr.replace (String c' EmptyString) new s) = false.
Proof.
  intros Hn. induction s as [|x s IH]; [reflexivity|].
  rewrite mentions_cons. intros H. apply orb_false_iff in H as [Hx Hs].
  rewrite replace_char_cons. destruct (Ascii.eqb c' x).
  - now rewrite mentions_app, Hn, IH.
  - now rewrite mentions_cons, Hx, IH.
Qed.

Lemma sanitize_quote_dot_colon_clean s :
  mentions dquote_char (sanitize_quote_dot_colon s) = false /\
  mentions "." (sanitize_quote_dot_colon s) = false /\
  mentions ":" (sanitize_quote_dot_colon s) = false.
Proof.
  unfold sanitize_quote_dot_colon, dquote. split; [|split].
  - apply replace_char_keeps_out; [reflexivity|].
    apply replace_char_keeps_out; [reflexivity|]. now apply replace_char_removes.
  - apply replace_char_keeps_out; [reflexivity|]. now apply replace_char_removes.
  - now apply replace_char_removes.
Qed.

Lemma sanitize_quote_dot_colon_star_clean s :
  mentions dquote_char (sanitize_quote_dot_colon_star s) = false /\
  mentions "." (sanitize_quote_dot_colon_star s) = false /\
  mentions ":" (sanitize_quote_dot_colon_star s) = false /\
  mentions "*" (sanitize_quote_dot_colon_star s) = false.
Proof.
  unfold sanitize_quote_dot_colon_star.
  destruct (sanitize_quote_dot_colon_clean s) as (H1 & H2 & H3).
  split; [|split; [|split]]; try (apply replace_char_keeps_out; [reflexivity|assumption]).
  now apply replace_char_removes.
Qed.

(** X11: the name of the dictionary built for an IPv4 object, an FQDN object
    or an IPv4 group holds no double quote, no dot and no colon, whatever
    the header of the stanza is; the name of an FQDN object holds no
    asterisk either. *)
Theorem built_names_are_sanitized
    (t : tables) (ot : object_type) (element : IOSCfgLine) (broken_fp : string)
    (m : mx_object) (fp : string) :
  ot = OT_object \/ ot = OT_fqdn \/ ot = OT_group ->
  build_mx_object t ot element broken_fp = Return (Some m, fp) ->
  mentions dquote_char (mx_name m) = false /\ mentions "." (mx_name m) = false /\
  mentions ":" (mx_name m) = false /\ (ot = OT_fqdn -> mentions "*" (mx_name m) = false).
Proof.
  intros [-> | [-> | ->]] H.
  - rewrite (build_object_name _ _ _ _ _ H). cbn [defined_name ipv4_object_name].
    unfold ipv4_object_name.
    destruct (sanitize_quote_dot_colon_clean
                (PyStr.replace "address-object ipv4 " EmptyString (text element)))
      as (H1 & H2 & H3). split; [|split; [|split]]; try assumption. discriminate.
  - rewrite (build_fqdn_name _ _ _ _ _ H). cbn [defined_name].
    destruct (sanitize_quote_dot_colon_star_clean
                (PyStr.replace "address-object fqdn " EmptyString (text element)))
      as (H1 & H2 & H3 & H4). split; [|split; [|split]]; try assumption. intros _. exact H4.
  - rewrite (build_group_name _ _ _ _ _ H). cbn [defined_name].
    destruct (sanitize_quote_dot_colon_clean
                (PyStr.replace "address-group ipv4 " EmptyString (text element)))
      as (H1 & H2 & H3). split; [|split; [|split]]; try assumption. discriminate.
Qed.

Lemma built_names_are_sanitized_witness :
  mentions dquote_char (mx_name mx_dotted_host) = false /\
  mentions "." (mx_name mx_dotted_host) = false /\
  mentions ":" (mx_name mx_dotted_host) = false /\
  (OT_object = OT_fqdn -> mentions "*" (mx_name mx_dotted_host) = false).
Proof.
  apply (built_names_are_sanitized empty_tables OT_object stanza_dotted_host EmptyString
           mx_dotted_host EmptyString).
  - now left.
  - vm_compute. reflexivity.
Defined.


(** ** Addresses and their text *)

Section AddressText.
Import Ipaddress.

Lemma octets_text_ok : forallb octet_text_ok (Z.of_nat <$> seq 0 256) = true.
Proof. vm_compute. reflexivity. Qed.

Lemma digit_texts_ok : forallb digit_text_ok digit_texts = true.
Proof. vm_compute. reflexivity. Qed.

Lemma octet_text o :
  0 <= o <= 255 ->
  parse_octet (PyStr.of_int o) = Return o /\ mentions "." (PyStr.of_int o) = false /\
  mentions "/" (PyStr.of_int o) = false /\ PyStr.of_int o <> EmptyString.
Proof.
  intros Ho. pose proof octets_text_ok as H. rewrite forallb_forall in H.
  specialize (H o). unfold octet_text_ok in H.
  assert (Hin : In o (Z.of_nat <$> seq 0 256)).
  { apply list_elem_of_In, list_elem_of_fmap. exists (Z.to_nat o). split; [lia|].
    apply list_elem_of_In, in_seq. lia. }
  specialize (H Hin). cbv zeta in H.
  apply andb_true_iff in H as [H H4]. apply andb_true_iff in H as [H H3].
  apply andb_true_iff in H as [H1 H2].
  apply negb_true_iff in H2, H3, H4. apply String.eqb_neq in H4.
  repeat split; try assumption.
  destruct (parse_octet (PyStr.of_int o)) as [v| |]; try discriminate H1.
  apply Z.eqb_eq in H1. now subst.
Qed.

Lemma isdigit_chars c : isdigit c = true -> c ∈ digit_chars.
Proof.
  destruct c as [[] [] [] [] [] [] [] []]; cbn; intros H; try discriminate H;
    unfold digit_chars; repeat (first [left | right]).
Qed.

Lemma digit_text_in s :
  all_digits s = true -> (0 < String.length s <= 3)%nat -> s ∈ digit_texts.
Proof.
  intros Hd Hl. unfold digit_texts.
  destruct s as [|c1 [|c2 [|c3 [|c4 s]]]]; cbn in Hl; try lia.
  - cbn in Hd. apply andb_true_iff in Hd as [H1 _]. apply isdigit_chars in H1.
    apply elem_of_app. left. apply list_elem_of_bind. exists c1. split; [left|exact H1].
  - cbn in Hd. apply andb_true_iff in Hd as [H1 Hd]. apply andb_true_iff in Hd as [H2 _].
    apply isdigit_chars in H1, H2.
    apply elem_of_app. right. apply elem_of_app. left.
    apply list_elem_of_bind. exists c1. split; [|exact H1].
    apply list_elem_of_bind. exists c2. split; [left|exact H2].
  - cbn in Hd. apply andb_true_iff in Hd as [H1 Hd]. apply andb_true_iff in Hd as [H2 Hd].
    apply andb_true_iff in Hd as [H3 _]. apply isdigit_chars in H1, H2, H3.
    apply elem_of_app. right. apply elem_of_app. right.
    apply list_elem_of_bind. exists c1. split; [|exact H1].
    apply list_elem_of_bind. exists c2. split; [|exact H2].
    apply list_elem_of_bind. exists c3. split; [left|exact H3].
Qed.

Lemma parse_octet_text s v : parse_octet s = Return v -> PyStr.of_int v = s.
Proof.
  intros H. pose proof digit_texts_ok as G. rewrite forallb_forall in G.
  assert (Hin : s ∈ digit_texts).
  { unfold parse_octet in H. destruct s as [|c0 s']; [discriminate|].
    destruct (all_digits (String c0 s')) eqn:Hd; [|discriminate]. cbn [negb] in H.
    destruct (Nat.ltb_spec 3 (String.length (String c0 s'))); [discriminate|].
    apply digit_text_in; [exact Hd|]. cbn in *. lia. }
  specialize (G s (proj1 (list_elem_of_In _ _) Hin)). unfold digit_text_ok in G.
  rewrite H in G. now apply String.eqb_eq in G.
Qed.

Lemma append_nil_r s : s +:+ EmptyString = s.
Proof.
  induction s as [|c s IH]; [reflexivity|].
  change (String c (s +:+ EmptyString) = String c s). now rewrite IH.
Qed.

Lemma append_assoc s1 s2 s3 : (s1 +:+ s2) +:+ s3 = s1 +:+ (s2 +:+ s3).
Proof.
  induction s1 as [|c s1 IH]; [reflexivity|].
  change (String c ((s1 +:+ s2) +:+ s3) = String c (s1 +:+ (s2 +:+ s3))). now rewrite IH.
Qed.

(** [split] and [join] on a separator. *)
Lemma split_on_from_no_sep sep s : forall cur,
  mentions sep s = false -> PyStr.split_on_from sep cur s = [cur +:+ s].
Proof.
  induction s as [|c s IH]; intros cur H; cbn [PyStr.split_on_from].
  - now rewrite append_nil_r.
  - rewrite mentions_cons in H. apply orb_false_iff in H as [Hc Hs].
    rewrite Ascii.eqb_sym, Hc, IH by exact Hs. now rewrite append_assoc.
Qed.

Lemma split_on_from_sep sep s rest : forall cur,
  mentions sep s = false ->
  PyStr.split_on_from sep cur (s +:+ String sep rest)
  = (cur +:+ s) :: PyStr.split_on_from sep EmptyString rest.
Proof.
  induction s as [|c s IH]; intros cur H.
  - change (EmptyString +:+ String sep rest) with (String sep rest).
    cbn [PyStr.split_on_from]. now rewrite Ascii.eqb_refl, append_nil_r.
  - change (String c s +:+ String sep rest) with (String c (s +:+ String sep rest)).
    cbn [PyStr.split_on_from].
    rewrite mentions_cons in H. apply orb_false_iff in H as [Hc Hs].
    rewrite Ascii.eqb_sym, Hc, IH by exact Hs. now rewrite append_assoc.
Qed.

Lemma split_on_four sep s1 s2 s3 s4 :
  mentions sep s1 = false -> mentions sep s2 = false ->
  mentions sep s3 = false -> mentions sep s4 = false ->
  PyStr.split_on sep (PyStr.join (String sep EmptyString) [s1; s2; s3; s4]) = [s1; s2; s3; s4].
Proof.
  intros H1 H2 H3 H4. unfold PyStr.split_on. cbn [PyStr.join].
  change (String sep EmptyString +:+ ?x) with (String sep x).
  rewrite (split_on_from_sep sep s1 _ EmptyString H1).
  change (String sep EmptyString +:+ ?x) with (String sep x).
  rewrite (split_on_from_sep sep s2 _ EmptyString H2).
  change (String sep EmptyString +:+ ?x) with (String sep x).
  rewrite (split_on_from_sep sep s3 _ EmptyString H3).
  now rewrite (split_on_from_no_sep sep s4 EmptyString H4).
Qed.

(** What [split] takes apart, [join] puts together. *)
Lemma join_split_on_from sep s : forall cur,
  PyStr.join (String sep EmptyString) (PyStr.split_on_from sep cur s) = cur +:+ s.
Proof.
  induction s as [|c s IH]; intros cur; cbn [PyStr.split_on_from].
  - cbn. now rewrite append_nil_r.
  - destruct (Ascii.eqb_spec c sep) as [->|Hne].
    + specialize (IH EmptyString).
      destruct (PyStr.split_on_from sep EmptyString s) as [|x r] eqn:E.
      * exfalso. clear IH. revert E. generalize EmptyString. clear.
        induction s as [|c s IH]; intros cur; cbn; [discriminate|].
        destruct (Ascii.eqb c sep); [discriminate|apply IH].
      * change (PyStr.join (String sep EmptyString) (cur :: x :: r))
          with (cur +:+ String sep EmptyString +:+ PyStr.join (String sep EmptyString) (x :: r)).
        rewrite IH. reflexivity.
    + rewrite IH, append_assoc. reflexivity.
Qed.

Lemma octets_of_int a b c d :
  0 <= a <= 255 -> 0 <= b <= 255 -> 0 <= c <= 255 -> 0 <= d <= 255 ->
  let n := ((a * 256 + b) * 256 + c) * 256 + d in
  (n / 16777216) mod 256 = a /\ (n / 65536) mod 256 = b /\ (n / 256) mod 256 = c /\
  n mod 256 = d /\ 0 <= n <= ALL_ONES.
Proof.
  intros Ha Hb Hc Hd n.
  assert (E1 : n / 256 = (a * 256 + b) * 256 + c).
  { subst n. rewrite Z.div_add_l by lia. rewrite Z.div_small by lia. lia. }
  assert (E2 : n / 65536 = a * 256 + b).
  { change 65536 with (256 * 256). rewrite <- Z.div_div by lia. rewrite E1.
    rewrite Z.div_add_l by lia. rewrite Z.div_small by lia. lia. }
  assert (E3 : n / 16777216 = a).
  { change 16777216 with (65536 * 256). rewrite <- Z.div_div by lia. rewrite E2.
    rewrite Z.div_add_l by lia. rewrite Z.div_small by lia. lia. }
  rewrite E1, E2, E3. unfold ALL_ONES, IPV4LENGTH.
  repeat split.
  - apply Z.mod_small. lia.
  - rewrite Z.add_comm, Z.mod_add by lia. apply Z.mod_small. lia.
  - rewrite Z.add_comm, Z.mod_add by lia. apply Z.mod_small. lia.
  - subst n. rewrite Z.add_comm, Z.mod_add by lia. apply Z.mod_small. lia.
  - lia.
  - change (2 ^ 32 - 1) with 4294967295. lia.
Qed.

Lemma int_of_octets n :
  0 <= n <= ALL_ONES ->
  let a := (n / 16777216) mod 256 in let b := (n / 65536) mod 256 in
  let c := (n / 256) mod 256 in let d := n mod 256 in
  ((a * 256 + b) * 256 + c) * 256 + d = n.
Proof.
  unfold ALL_ONES, IPV4LENGTH. change (2 ^ 32 - 1) with 4294967295. intros Hn. cbv zeta.
  assert (E0 : n / 16777216 < 256) by (apply Z.div_lt_upper_bound; lia).
  assert (P0 : 0 <= n / 16777216) by (apply Z.div_pos; lia).
  rewrite (Z.mod_small (n / 16777216)) by lia.
  pose proof (Z.div_mod n 256 ltac:(lia)) as D1.
  pose proof (Z.div_mod (n / 256) 256 ltac:(lia)) as D2.
  pose proof (Z.div_mod (n / 256 / 256) 256 ltac:(lia)) as D3.
  rewrite !Z.div_div in D2, D3 by lia. rewrite Z.div_div in D3 by lia.
  change (256 * 256) with 65536 in *. change (65536 * 256) with 16777216 in *.
  pose proof (Z.mod_small (n / 16777216) 256 ltac:(lia)) as M. lia.
Qed.

(** X12: the text of an address and its number correspond exactly: a text is
    accepted as the address [n] if and only if [n] is a 32-bit number and
    the text is its dotted decimal form, as [str] writes it. *)
Theorem IPv4Address_text_round_trip (addr_str : string) (n : Z) :
  IPv4Address addr_str = Return n <->
  0 <= n <= ALL_ONES /\ addr_str = string_from_ip_int n.
Proof.
  split.
  - intros H. split; [exact (IPv4Address_range _ _ H)|].
    unfold IPv4Address in H. destruct (PyStr.contains "/" addr_str); [discriminate|].
    destruct addr_str as [|c0 s']; [discriminate|].
    pose proof (join_split_on_from "." (String c0 s') EmptyString) as J.
    fold (PyStr.split_on "." (String c0 s')) in J.
    destruct (PyStr.split_on "." (String c0 s')) as [|o1 [|o2 [|o3 [|o4 [|o5 l]]]]];
      try discriminate.
    destruct (parse_octet o1) as [a| |] eqn:H1; try discriminate.
    destruct (parse_octet o2) as [b| |] eqn:H2; try discriminate.
    destruct (parse_octet o3) as [c| |] eqn:H3; try discriminate.
    destruct (parse_octet o4) as [d| |] eqn:H4; try discriminate.
    injection H as <-.
    destruct (octets_of_int a b c d (parse_octet_range _ _ H1) (parse_octet_range _ _ H2)
                (parse_octet_range _ _ H3) (parse_octet_range _ _ H4))
      as (E1 & E2 & E3 & E4 & _).
    unfold string_from_ip_int. rewrite E1, E2, E3, E4. cbn [map].
    rewrite (parse_octet_text _ _ H1), (parse_octet_text _ _ H2),
      (parse_octet_text _ _ H3), (parse_octet_text _ _ H4).
    cbn [String.append] in J. now rewrite J.
  - intros [Hn ->]. unfold string_from_ip_int. cbn [map].
    set (a := (n / 16777216) mod 256). set (b := (n / 65536) mod 256).
    set (c := (n / 256) mod 256). set (d := n mod 256).
    assert (Ha : 0 <= a <= 255) by (subst a; pose proof (Z.mod_pos_bound (n / 16777216) 256); lia).
    assert (Hb : 0 <= b <= 255) by (subst b; pose proof (Z.mod_pos_bound (n / 65536) 256); lia).
    assert (Hc : 0 <= c <= 255) by (subst c; pose proof (Z.mod_pos_bound (n / 256) 256); lia).
    assert (Hd : 0 <= d <= 255) by (subst d; pose proof (Z.mod_pos_bound n 256); lia).
    destruct (octet_text a Ha) as (Pa & Da & Sa & Na).
    destruct (octet_text b Hb) as (Pb & Db & Sb & _).
    destruct (octet_text c Hc) as (Pc & Dc & Sc & _).
    destruct (octet_text d Hd) as (Pd & Dd & Sd & _).
    unfold IPv4Address.
    assert (Hslash : PyStr.contains "/"
              (PyStr.join "." [PyStr.of_int a; PyStr.of_int b; PyStr.of_int c; PyStr.of_int d])
            = false).
    { change (PyStr.contains "/" ?x) with (mentions "/" x). cbn [PyStr.join].
      rewrite !mentions_app, Sa, Sb, Sc, Sd. reflexivity. }
    rewrite Hslash.
    rewrite (split_on_four "." _ _ _ _ Da Db Dc Dd), Pa, Pb, Pc, Pd.
    destruct (PyStr.join "." _) eqn:E.
    + exfalso. cbn [PyStr.join] in E. destruct (PyStr.of_int a); [now apply Na|discriminate E].
    + f_equal. exact (int_of_octets n Hn).
Qed.
End AddressText.


(** ** Service objects defined more than once *)

(** The dictionary built for a service does not depend on the tables nor on
    the journal. *)
Lemma build_service_independent t e fp :
  build_mx_object t OT_service e fp
  = (x ← build_mx_object empty_tables OT_service e EmptyString;
     Return (x.1, fp +:+ x.2)).
Proof.
  unfold build_mx_object.
  destruct (PyStr.replace "service-object " EmptyString (text e)) as [|c0 s]; [reflexivity|].
  destruct (Ascii.eqb c0 dquote_char).
  - destruct (PyStr.index _ 1) as [name| |]; try reflexivity. cbn [mbind outcome_bind].
    destruct (PyStr.index _ 2) as [rest| |]; try reflexivity. cbn [mbind outcome_bind].
    destruct (service_fields _ _ _) as [[m|]| |]; try reflexivity; cbn [mbind outcome_bind fst snd].
    now rewrite append_nil_r.
  - destruct (PyStr.index _ 0) as [name| |]; try reflexivity. cbn [mbind outcome_bind].
    destruct (service_fields _ _ _) as [[m|]| |]; try reflexivity; cbn [mbind outcome_bind fst snd];
      now rewrite append_nil_r.
Qed.

Lemma service_object_step_table w e w' :
  service_object_step w e = Return w' ->
  service_objects (tbl w')
  = match service_entry e with
    | Some (name, s) => <[name := s]> (service_objects (tbl w))
    | None => service_objects (tbl w)
    end.
Proof.
  unfold service_object_step, service_entry. rewrite build_service_independent.
  destruct (build_mx_object empty_tables OT_service e EmptyString) as [[[m|] j]| |];
    cbn [mbind outcome_bind fst snd]; try discriminate.
  - unfold getkey. destruct (mx_protocol m); [|discriminate].
    cbn [mbind outcome_bind]. intros [= <-]. reflexivity.
  - intros [= <-]. reflexivity.
Qed.

(** X13: when a name is given to several [service-object] lines, the table
    holds the service of the last of them: a later line replaces what an
    earlier line, or the table, had under the name. *)
Theorem service_object_last_definition_wins
    (w w' : world) (before after : list IOSCfgLine) (element : IOSCfgLine)
    (name : string) (s : service) :
  foldM service_object_step (before ++ element :: after) w = Return w' ->
  service_entry element = Some (name, s) ->
  Forall (fun e => forall s', service_entry e <> Some (name, s')) after ->
  service_objects (tbl w') !! name = Some s.
Proof.
  intros H He Hafter. rewrite foldM_app in H.
  destruct (foldM service_object_step before w) as [w1| |]; cbn [mbind outcome_bind] in H;
    try discriminate H.
  cbn [foldM] in H.
  destruct (service_object_step w1 element) as [w2| |] eqn:E2; cbn [mbind outcome_bind] in H;
    try discriminate H.
  apply service_object_step_table in E2. rewrite He in E2.
  assert (H2 : service_objects (tbl w2) !! name = Some s) by (rewrite E2; apply lookup_insert_eq).
  clear E2 He. revert w2 H H2.
  induction Hafter as [|e after He _ IH]; intros w2 H H2; cbn [foldM] in H.
  - now injection H as <-.
  - destruct (service_object_step w2 e) as [w3| |] eqn:E3; cbn [mbind outcome_bind] in H;
      try discriminate H.
    apply (IH w3 H). apply service_object_step_table in E3. rewrite E3.
    destruct (service_entry e) as [[n s']|]; [|exact H2].
    rewrite lookup_insert_ne; [exact H2|]. intros ->. exact (He s' eq_refl).
Qed.

Lemma service_object_last_definition_wins_witness :
  service_objects (tbl world_http_twice) !! "HTTP" = Some ("TCP", "8080").
Proof.
  apply (service_object_last_definition_wins
           (mkWorld empty_tables empty_dashboard EmptyString) world_http_twice
           [leaf "service-object HTTP TCP 80 80"]
           [leaf "service-object DNS UDP 53 53"]
           (leaf "service-object HTTP TCP 8080 8080") "HTTP" ("TCP", "8080")).
  - vm_compute. reflexivity.
  - vm_compute. reflexivity.
  - constructor; [|constructor]. intros s'. vm_compute. discriminate.
Defined.

(** ** A range that ends before it starts *)

Section ReversedRange.
Import Ipaddress.

Lemma object_line_reversed_range m line slo shi lo hi :
  PyStr.split (text line) = ["range"; slo; shi] ->
  IPv4Address slo = Return lo -> IPv4Address shi = Return hi -> hi < lo ->
  object_line m line = Raise ValueError.
Proof.
  intros Hs Hlo Hhi Hlt. unfold object_line. rewrite Hs. cbn [PyStr.index lookup list_lookup].
  cbn [mbind outcome_bind String.eqb Ascii.eqb Bool.eqb].
  rewrite Hlo, Hhi. cbn [mbind outcome_bind]. unfold summarize_address_range.
  destruct (Z.ltb_spec hi lo); [reflexivity|lia].
Qed.

(** X14: an [address-object ipv4] stanza with a [range lo hi] child whose end
    is before its start is not skipped and not journaled: the error of the
    address library leaves [build_mx_object], the step and the whole pass
    as [ValueError]. *)
Theorem reversed_range_aborts_the_pass
    (w : world) (element line : IOSCfgLine) (pre post others : list IOSCfgLine)
    (slo shi : string) (lo hi : Z) :
  objects (tbl w) !! ipv4_object_name element = None ->
  range_objects (tbl w) !! (ipv4_object_name element +:+ "__range__") = None ->
  children element = pre ++ line :: post ->
  forallb inert_line pre = true ->
  PyStr.split (text line) = ["range"; slo; shi] ->
  IPv4Address slo = Return lo -> IPv4Address shi = Return hi -> hi < lo ->
  build_mx_object (tbl w) OT_object element (unprocessed_objects w) = Raise ValueError /\
  ipv4_object_step w element = Raise ValueError /\
  foldM ipv4_object_step (element :: others) w = Raise ValueError.
Proof.
  intros Ho Hr Hch Hpre Hs Hlo Hhi Hlt.
  assert (Hb : build_mx_object (tbl w) OT_object element (unprocessed_objects w)
               = Raise ValueError).
  { unfold build_mx_object. fold (ipv4_object_name element).
    rewrite (haskey_false _ _ Ho), (haskey_false _ _ Hr). cbn [negb andb].
    rewrite Hch. destruct pre as [|p pre'].
    - cbn [app foldM]. rewrite (object_line_reversed_range _ _ _ _ _ _ Hs Hlo Hhi Hlt).
      reflexivity.
    - rewrite <- app_comm_cons, app_comm_cons, foldM_app.
      destruct (foldM_object_line_inert (p :: pre')
                  (mx_new (ipv4_object_name element) (Some "network")) Hpre) as (m' & -> & _).
      cbn [mbind outcome_bind foldM].
      rewrite (object_line_reversed_range _ _ _ _ _ _ Hs Hlo Hhi Hlt). reflexivity. }
  assert (Hstep : ipv4_object_step w element = Raise ValueError).
  { unfold ipv4_object_step. rewrite Hb. reflexivity. }
  split; [exact Hb|]. split; [exact Hstep|]. cbn [foldM]. rewrite Hstep. reflexivity.
Qed.

End ReversedRange.

Lemma reversed_range_aborts_the_pass_witness :
  build_mx_object empty_tables OT_object stanza_reversed_range EmptyString = Raise ValueError /\
  ipv4_object_step (mkWorld empty_tables empty_dashboard EmptyString) stanza_reversed_range
    = Raise ValueError /\
  foldM ipv4_object_step [stanza_reversed_range; R1_stanza]
    (mkWorld empty_tables empty_dashboard EmptyString) = Raise ValueError.
Proof.
  apply (reversed_range_aborts_the_pass (mkWorld empty_tables empty_dashboard EmptyString)
           stanza_reversed_range (leaf "    range 10.0.0.9 10.0.0.1") [] [] [R1_stanza]
           "10.0.0.9" "10.0.0.1" 167772169 167772161); reflexivity.
Defined.


(** ** The VLAN rules *)

Lemma denied_vlans_cons ZONES x row :
  denied_vlans ZONES (x :: row) = denied_vlans ZONES [x] ++ denied_vlans ZONES row.
Proof. unfold denied_vlans. cbn. now destruct (denied_cell ZONES x). Qed.

Lemma vlan_rule_dest_eq ZONES acc cell :
  is_Some (ZONES !! cell.1) ->
  vlan_rule_dest ZONES acc cell = Return (acc ++ denied_vlans ZONES [cell]).
Proof.
  destruct cell as [d c]. intros [v Hv]. cbn [fst] in Hv.
  unfold vlan_rule_dest, PyStr.getitem, denied_vlans, denied_cell, vlan_of.
  cbn [List.filter fst snd]. rewrite Hv. cbn [mbind outcome_bind default from_option id].
  destruct (String.eqb v EmptyString); cbn [orb negb andb fmap list_fmap];
    [now rewrite app_nil_r|].
  destruct (String.eqb c "allow"); cbn [negb fmap list_fmap fst]; [now rewrite app_nil_r|].
  now rewrite Hv.
Qed.

Lemma vlan_rule_dest_fold ZONES row :
  Forall (fun cell : string * string => is_Some (ZONES !! cell.1)) row ->
  forall acc,
    foldM (vlan_rule_dest ZONES) row acc = Return (acc ++ denied_vlans ZONES row).
Proof.
  induction 1 as [|cell row Hv _ IH]; intros acc; cbn [foldM].
  - unfold denied_vlans. cbn. now rewrite app_nil_r.
  - rewrite (vlan_rule_dest_eq _ _ _ Hv). cbn [mbind outcome_bind].
    rewrite IH, (denied_vlans_cons ZONES cell row), <- app_assoc. reflexivity.
Qed.

Lemma vlan_rule_step_eq ZONES acc item :
  is_Some (ZONES !! item.1) ->
  Forall (fun cell : string * string => is_Some (ZONES !! cell.1)) item.2 ->
  vlan_rule_step ZONES acc item
  = Return (acc ++ (vlan_rule_of ZONES <$> List.filter (denying_row ZONES) [item])).
Proof.
  destruct item as [s row]. intros [v Hv] Hrow. cbn [fst snd] in Hv, Hrow.
  unfold vlan_rule_step, PyStr.getitem. rewrite Hv. cbn [mbind outcome_bind List.filter].
  unfold denying_row, vlan_rule_of, vlan_of. cbn [fst snd]. rewrite Hv.
  cbn [default from_option id].
  destruct (String.eqb v EmptyString); cbn [negb andb fmap list_fmap];
    [now rewrite app_nil_r|].
  rewrite (vlan_rule_dest_fold ZONES row Hrow []). cbn [app mbind outcome_bind].
  destruct (denied_vlans ZONES row) as [|x l] eqn:E.
  - rewrite bool_decide_eq_true_2 by reflexivity. cbn. now rewrite app_nil_r.
  - rewrite bool_decide_eq_false_2 by discriminate.
    cbn [negb fmap list_fmap fst snd]. now rewrite Hv, E.
Qed.

Lemma vlan_rules_fold ZONES dzm :
  zones_known ZONES dzm ->
  forall acc,
    foldM (vlan_rule_step ZONES) dzm acc
    = Return (acc ++ (vlan_rule_of ZONES <$> List.filter (denying_row ZONES) dzm)).
Proof.
  induction 1 as [|item dzm [Hv Hrow] _ IH]; intros acc; cbn [foldM].
  - cbn. now rewrite app_nil_r.
  - rewrite (vlan_rule_step_eq _ _ _ Hv Hrow). cbn [mbind outcome_bind].
    rewrite IH, (filter_cons_app (denying_row ZONES) item dzm), fmap_app, <- app_assoc.
    reflexivity.
Qed.

(** X15: when every zone of the table is a key of [ZONES], [create_vlan_rules]
    returns, and the L3 rules are the rules the network had, in their order,
    followed by one rule for each row of a zone with a VLAN that has a cell
    other than [allow] in the column of a zone with a VLAN: the rule denies
    any protocol from the VLAN of the row to the VLANs of these columns,
    joined by commas.  The other rule lists are left alone. *)
Theorem create_vlan_rules_denies_per_row
    (ZONES : gmap string string) (default_zone_map : list (string * list (string * string)))
    (ap : appliance) :
  zones_known ZONES default_zone_map ->
  create_vlan_rules ZONES default_zone_map ap
  = Return (mkAppliance
              (l3_firewall_rules ap
                 ++ (vlan_rule_of ZONES <$> List.filter (denying_row ZONES) default_zone_map))
              (inbound_firewall_rules ap) (vpn_firewall_rules ap)).
Proof.
  intros H. unfold create_vlan_rules, vlan_default_rules.
  rewrite (vlan_rules_fold ZONES _ H []). reflexivity.
Qed.

Lemma create_vlan_rules_denies_per_row_witness :
  create_vlan_rules zones_three zone_rows_three empty_appliance
  = Return (mkAppliance
              (l3_firewall_rules empty_appliance
                 ++ (vlan_rule_of zones_three
                       <$> List.filter (denying_row zones_three) zone_rows_three))
              (inbound_firewall_rules empty_appliance) (vpn_firewall_rules empty_appliance)).
Proof.
  apply (create_vlan_rules_denies_per_row zones_three zone_rows_three empty_appliance).
  repeat constructor; cbn; eauto.
Defined.

Example create_vlan_rules_scenario :
  create_vlan_rules zones_three zone_rows_three empty_appliance
  = Return (mkAppliance
      [ mkRule "Any Any Inter-zone rule" "deny" "any" "any" "VLAN(10).*" "VLAN(20).*" "any" None;
        mkRule "Any Any Inter-zone rule" "deny" "any" "any" "VLAN(20).*" "VLAN(10).*" "any" None ]
      [] []).
Proof. vm_compute. reflexivity. Qed.

(** ** The zone table as a CSV file *)

Ltac decide_closed :=
  match goal with
  | |- ?P => apply (@bool_decide_unpack P _); vm_compute; exact I
  end.

Lemma pydict_get_app_notin {V} (d1 d2 : list (string * V)) k :
  k ∉ PyDict.keys d1 -> PyDict.get (d1 ++ d2) k = PyDict.get d2 k.
Proof.
  induction d1 as [|[k' v'] d1 IH]; intros H; [reflexivity|]. cbn.
  destruct (String.eqb_spec k' k) as [->|Hne].
  - exfalso. apply H. left.
  - apply IH. intros Hin. apply H. now right.
Qed.

Lemma pydict_set_app_notin {V} (d1 d2 : list (string * V)) k v :
  k ∉ PyDict.keys d1 -> PyDict.set (d1 ++ d2) k v = d1 ++ PyDict.set d2 k v.
Proof.
  induction d1 as [|[k' v'] d1 IH]; intros H; [reflexivity|]. cbn.
  destruct (String.eqb_spec k' k) as [->|Hne].
  - exfalso. apply H. left.
  - f_equal. apply IH. intros Hin. apply H. now right.
Qed.

Lemma pydict_keys_set {V} (d : list (string * V)) k v x :
  x ∈ PyDict.keys (PyDict.set d k v) -> x = k \/ x ∈ PyDict.keys d.
Proof.
  induction d as [|[k' v'] d IH]; cbn.
  - intros H. apply list_elem_of_singleton in H. now left.
  - destruct (String.eqb_spec k' k) as [->|Hne]; cbn; intros H.
    + now right.
    + apply elem_of_cons in H as [->|H]; [right; left|].
      destruct (IH H) as [->|Hin]; [now left|right; now right].
Qed.

Lemma dict_to_list_known fieldnames rowdict :
  Forall (fun cell : string * string => cell.1 ∈ fieldnames) rowdict ->
  dict_to_list fieldnames rowdict
  = Return ((fun key => default EmptyString (PyDict.get rowdict key)) <$> fieldnames).
Proof.
  intros H. unfold dict_to_list.
  replace (forallb _ _) with true; [reflexivity|]. symmetry. apply forallb_forall.
  intros k Hk. apply bool_decide_eq_true. unfold PyDict.keys in Hk.
  apply list_elem_of_In, list_elem_of_fmap in Hk as (cell & -> & Hc).
  rewrite Forall_forall in H. now apply H.
Qed.

Lemma csv_row_step_eq headers rows (d1 d2 : list (string * list (string * string))) z row :
  z ∉ PyDict.keys d1 ->
  Forall (fun cell : string * string => cell.1 ∈ headers) row ->
  corner ∈ headers ->
  csv_row_step headers (rows, d1 ++ (z, row) :: d2) z
  = Return (rows ++ [csv_row_of headers (z, row)], d1 ++ row_with_corner (z, row) :: d2).
Proof.
  intros Hz Hrow Hcorner. unfold csv_row_step, PyDict.getitem.
  rewrite (pydict_get_app_notin _ _ _ Hz). cbn [PyDict.get]. rewrite String.eqb_refl.
  cbn [mbind outcome_bind].
  rewrite (pydict_set_app_notin _ _ _ _ Hz). cbn [PyDict.set]. rewrite String.eqb_refl.
  rewrite dict_to_list_known; [reflexivity|].
  apply Forall_forall. intros cell Hc.
  assert (Hk : cell.1 ∈ PyDict.keys (PyDict.set row corner z)).
  { unfold PyDict.keys. apply list_elem_of_fmap. eauto. }
  apply pydict_keys_set in Hk as [->|Hk]; [exact Hcorner|].
  unfold PyDict.keys in Hk. apply list_elem_of_fmap in Hk as (c' & -> & Hc').
  rewrite Forall_forall in Hrow. now apply Hrow.
Qed.

Lemma csv_rows_fold headers todo : forall done rows,
  NoDup (PyDict.keys (done ++ todo)) ->
  Forall (fun item : string * list (string * string) =>
            Forall (fun cell : string * string => cell.1 ∈ headers) item.2) todo ->
  corner ∈ headers ->
  foldM (csv_row_step headers) (PyDict.keys todo) (rows, (row_with_corner <$> done) ++ todo)
  = Return (rows ++ (csv_row_of headers <$> todo), row_with_corner <$> (done ++ todo)).
Proof.
  induction todo as [|[z row] todo IH]; intros done rows Hnd Hcols Hcorner.
  - cbn. now rewrite !app_nil_r.
  - cbn [PyDict.keys fmap list_fmap fst foldM].
    assert (Hz : z ∉ PyDict.keys (row_with_corner <$> done)).
    { unfold PyDict.keys in *. rewrite <- list_fmap_compose.
      rewrite fmap_app in Hnd. apply NoDup_app in Hnd as (_ & Hd & _).
      intros Hin. apply (Hd z); [exact Hin|left]. }
    apply Forall_cons in Hcols as [Hrow Hcols]. cbn [snd] in Hrow.
    rewrite (csv_row_step_eq _ _ _ _ _ _ Hz Hrow Hcorner). cbn [mbind outcome_bind].
    change ((row_with_corner <$> done) ++ row_with_corner (z, row) :: todo)
      with ((row_with_corner <$> done) ++ (row_with_corner <$> [(z, row)]) ++ todo).
    rewrite app_assoc, <- (fmap_app row_with_corner done [(z, row)]).
    fold (PyDict.keys todo).
    rewrite IH; [| now rewrite <- app_assoc | exact Hcols | exact Hcorner].
    rewrite <- !app_assoc. reflexivity.
Qed.

(** X16: for a table whose keys are distinct and whose columns are zones of
    the table, [default_map_to_csv] raises nothing; the file has the header
    row, [corner] followed by the zones, and one row for each zone in the
    same order, with the zone under [corner] and, under each zone, the cell
    of the table or nothing.  The call leaves the name of its zone in every
    row of [default_zone_map], under the key [corner]. *)
Theorem default_map_to_csv_writes_the_table
    (default_zone_map : list (string * list (string * string))) :
  NoDup (PyDict.keys default_zone_map) ->
  columns_known default_zone_map ->
  let headers := corner :: PyDict.keys default_zone_map in
  default_map_to_csv default_zone_map
  = Return (headers :: (csv_row_of headers <$> default_zone_map),
            row_with_corner <$> default_zone_map).
Proof.
  intros Hnd Hcols headers. unfold default_map_to_csv. fold headers.
  apply (csv_rows_fold headers default_zone_map [] [headers]); [exact Hnd| |left].
  eapply Forall_impl; [exact Hcols|]. intros item Hi.
  eapply Forall_impl; [exact Hi|]. intros cell Hc. now right.
Qed.

Lemma default_map_to_csv_writes_the_table_witness :
  let headers := corner :: PyDict.keys zone_rows_three in
  default_map_to_csv zone_rows_three
  = Return (headers :: (csv_row_of headers <$> zone_rows_three),
            row_with_corner <$> zone_rows_three).
Proof.
  apply (default_map_to_csv_writes_the_table zone_rows_three).
  - decide_closed.
  - unfold columns_known. decide_closed.
Defined.

Example default_map_to_csv_scenario :
  fst <$> default_map_to_csv zone_rows_three
  = Return [ ["Source Zone \ Destination Zone"; "LAN"; "DMZ"; "WAN"];
             ["LAN"; EmptyString; "deny"; "allow"];
             ["DMZ"; "deny"; EmptyString; "deny"];
             ["WAN"; "deny"; EmptyString; EmptyString] ].
Proof. vm_compute. reflexivity. Qed.

(** ** VLANs and static routes *)

Section ProvisioningFacts.
Context {V : Type} `{EqDecision V}.

Lemma getitem_Return {A} (d : gmap string A) k v :
  PyStr.getitem d k = Return v <-> d !! k = Some v.
Proof.
  unfold PyStr.getitem. destruct (d !! k); split; intros H; try discriminate H;
    now injection H as ->.
Qed.

Lemma entry_names_fold (network : list (gmap string V)) : forall acc names,
  foldM (fun acc d => n ← PyStr.getitem d "name"; Return (acc ++ [n])) network acc
    = Return names ->
  exists ns, names = acc ++ ns /\ Forall2 (fun d n => d !! "name" = Some n) network ns.
Proof.
  induction network as [|d network IH]; intros acc names H; cbn [foldM] in H.
  - injection H as <-. exists []. rewrite app_nil_r. split; [reflexivity|constructor].
  - destruct (PyStr.getitem d "name") as [n| |] eqn:E; cbn [mbind outcome_bind] in H;
      try discriminate H.
    apply getitem_Return in E. apply IH in H as (ns & -> & HF).
    exists (n :: ns). rewrite <- app_assoc. split; [reflexivity|now constructor].
Qed.

Lemma entry_names_total (network : list (gmap string V)) ns :
  Forall2 (fun d n => d !! "name" = Some n) network ns ->
  forall acc,
    foldM (fun acc d => n ← PyStr.getitem d "name"; Return (acc ++ [n])) network acc
    = Return (acc ++ ns).
Proof.
  induction 1 as [|d n network ns Hd _ IH]; intros acc; cbn [foldM].
  - now rewrite app_nil_r.
  - apply getitem_Return in Hd. rewrite Hd. cbn [mbind outcome_bind].
    rewrite IH, <- app_assoc. reflexivity.
Qed.

Lemma body_fold (entry : gmap string V) fields : forall acc body,
  foldM (fun (acc : gmap string V) k => v ← PyStr.getitem entry k; Return (<[k := v]> acc))
        fields acc = Return body ->
  forall k, k ∈ fields -> body !! k = entry !! k.
Proof.
  induction fields as [|f fields IH]; intros acc body H k Hk; [inversion Hk|].
  cbn [foldM] in H.
  destruct (PyStr.getitem entry f) as [v| |] eqn:E; cbn [mbind outcome_bind] in H;
    try discriminate H.
  apply getitem_Return in E.
  destruct (decide (k ∈ fields)) as [Hin|Hnin]; [exact (IH _ _ H k Hin)|].
  apply elem_of_cons in Hk as [->|Hk]; [|contradiction].
  rewrite E. clear IH E. revert acc H.
  assert (G : forall acc body,
    foldM (fun (acc : gmap string V) k => v ← PyStr.getitem entry k; Return (<[k := v]> acc))
          fields acc = Return body -> body !! f = acc !! f).
  { clear -Hnin. induction fields as [|g fields IH]; intros acc body H; cbn [foldM] in H.
    - now injection H as <-.
    - destruct (PyStr.getitem entry g) as [v| |]; cbn [mbind outcome_bind] in H;
        try discriminate H.
      rewrite (IH ltac:(set_solver) _ _ H).
      apply lookup_insert_ne. set_solver. }
  intros acc H. rewrite (G _ _ H). apply lookup_insert_eq.
Qed.

(** What a turn of the loop does with an entry of the file. *)
Lemma provision_step_cases first_read fields (existing : list V)
    (created : list (gmap string V)) (entry : gmap string V) created' :
  "name" ∈ fields ->
  provision_step first_read fields existing created entry = Return created' ->
  exists name,
    entry !! "name" = Some name /\ is_Some (entry !! first_read) /\
    ((name ∈ existing /\ created' = created) \/
     ((name ∉ existing) /\
      exists body, created' = created ++ [body] /\ (body !! "name" = Some name))).
Proof.
  intros Hf. unfold provision_step.
  destruct (PyStr.getitem entry first_read) as [x| |] eqn:E1; cbn [mbind outcome_bind];
    try discriminate.
  destruct (PyStr.getitem entry "name") as [name| |] eqn:E2; cbn [mbind outcome_bind];
    try discriminate.
  apply getitem_Return in E1, E2.
  intros H. exists name. split; [exact E2|]. split; [eauto|].
  destruct (bool_decide (name ∈ existing)) eqn:Eb.
  - apply bool_decide_eq_true in Eb. injection H as <-. now left.
  - apply bool_decide_eq_false in Eb. right. split; [exact Eb|].
    destruct (foldM _ fields ∅) as [body| |] eqn:Ebody; try discriminate H.
    cbn [mbind outcome_bind] in H. injection H as <-. exists body. split; [reflexivity|].
    rewrite (body_fold _ _ _ _ Ebody "name" Hf). exact E2.
Qed.

(** The names of the entries created cover the names of the file that were
    not there. *)
Lemma provision_fold first_read fields (existing : list V) (file : list (gmap string V)) :
  forall created created',
  "name" ∈ fields ->
  foldM (provision_step first_read fields existing) file created = Return created' ->
  exists more names,
    created' = created ++ more /\
    Forall2 (fun d n => d !! "name" = Some n) more names /\
    Forall (fun entry => exists name,
              entry !! "name" = Some name /\ is_Some (entry !! first_read) /\
              (name ∈ existing \/ name ∈ names)) file.
Proof.
  induction file as [|entry file IH]; intros created created' Hf H; cbn [foldM] in H.
  - injection H as <-. exists [], []. rewrite app_nil_r. repeat constructor.
  - destruct (provision_step _ _ _ _ entry) as [c1| |] eqn:E; try discriminate H.
    cbn [mbind outcome_bind] in H.
    apply (provision_step_cases _ _ _ _ _ _ Hf) in E as (name & Hn & Hfr & Hcase).
    apply (IH _ _ Hf) in H as (more & names & -> & HF & Hall).
    destruct Hcase as [[Hin ->]|(Hnin & body & -> & Hb)].
    + exists more, names. split; [reflexivity|]. split; [exact HF|].
      constructor; [|exact Hall]. exists name. auto.
    + exists (body :: more), (name :: names). rewrite <- app_assoc.
      split; [reflexivity|]. split; [now constructor|].
      constructor; [exists name; split; [exact Hn|split; [exact Hfr|right; left]]|].
      eapply Forall_impl; [exact Hall|]. intros e (n & ? & ? & [?|?]); exists n;
        (split; [assumption|split; [assumption|]]); [now left|right; now right].
Qed.

Lemma provision_step_seen first_read fields (existing : list V)
    (created : list (gmap string V)) (entry : gmap string V) name :
  is_Some (entry !! first_read) -> entry !! "name" = Some name -> name ∈ existing ->
  provision_step first_read fields existing created entry = Return created.
Proof.
  intros [x Hx] Hn Hin. unfold provision_step. apply getitem_Return in Hx, Hn.
  rewrite Hx, Hn. cbn [mbind outcome_bind]. now rewrite bool_decide_eq_true_2 by exact Hin.
Qed.

Lemma provision_fold_nothing first_read fields (existing : list V)
    (file : list (gmap string V)) :
  Forall (fun entry => exists name,
            entry !! "name" = Some name /\ is_Some (entry !! first_read) /\
            name ∈ existing) file ->
  foldM (provision_step first_read fields existing) file [] = Return [].
Proof.
  induction 1 as [|entry file (name & Hn & Hx & Hin) _ IH]; cbn [foldM]; [reflexivity|].
  rewrite (provision_step_seen _ _ _ _ _ _ Hx Hn Hin). cbn [mbind outcome_bind]. exact IH.
Qed.

Lemma provision_idempotent first_read fields (file network network' : list (gmap string V)) :
  "name" ∈ fields ->
  provision first_read fields file network = Return network' ->
  (exists created, network' = network ++ created) /\
  Forall (fun entry => exists name d,
            entry !! "name" = Some name /\ d ∈ network' /\ d !! "name" = Some name) file /\
  provision first_read fields file network' = Return network'.
Proof.
  intros Hf H. unfold provision in H.
  destruct (foldM _ network []) as [existing| |] eqn:En; try discriminate H.
  cbn [mbind outcome_bind] in H.
  destruct (foldM (provision_step _ _ _) file []) as [created| |] eqn:Ec; try discriminate H.
  cbn [mbind outcome_bind] in H. injection H as <-.
  apply entry_names_fold in En as (ns & -> & Hns). cbn [app] in *.
  apply (provision_fold _ _ _ _ _ _ Hf) in Ec as (more & names & -> & Hmore & Hall).
  cbn [app] in *.
  assert (Hnames : Forall2 (fun d n => d !! "name" = Some n) (network ++ more) (ns ++ names)).
  { now apply Forall2_app. }
  split; [eauto|]. split.
  - eapply Forall_impl; [exact Hall|]. intros entry (name & Hn & _ & Hin).
    assert (Hin' : name ∈ ns ++ names) by (apply elem_of_app; tauto).
    apply list_elem_of_lookup in Hin' as [i Hi].
    destruct (Forall2_lookup_r _ _ _ _ _ Hnames Hi) as (d & Hd & Hdn).
    exists name, d. split; [exact Hn|]. split; [|exact Hdn].
    eapply list_elem_of_lookup_2, Hd.
  - unfold provision. rewrite (entry_names_total _ _ Hnames []). cbn [app mbind outcome_bind].
    rewrite provision_fold_nothing; [cbn; now rewrite app_nil_r|].
    eapply Forall_impl; [exact Hall|]. intros entry (name & Hn & Hfr & Hin).
    exists name. split; [exact Hn|]. split; [exact Hfr|]. apply elem_of_app. tauto.
Qed.

(** X17: [create_vlans] keeps the VLANs of the network as they are and adds
    VLANs after them; when it returns, every VLAN of the file has its name
    on the network; and a second run with the same file on the network it
    left creates nothing. *)
Theorem create_vlans_is_idempotent (vlans network network' : list (gmap string V)) :
  create_vlans vlans network = Return network' ->
  (exists created, network' = network ++ created) /\
  Forall (fun vlan => exists name d,
            vlan !! "name" = Some name /\ d ∈ network' /\ d !! "name" = Some name) vlans /\
  create_vlans vlans network' = Return network'.
Proof.
  apply provision_idempotent. right. left.
Qed.

(** X18: [create_static_rules] keeps the static routes of the network as they
    are and adds routes after them; when it returns, every route of the
    file has its name on the network; and a second run with the same file
    creates nothing. *)
Theorem create_static_rules_is_idempotent (routes network network' : list (gmap string V)) :
  create_static_rules routes network = Return network' ->
  (exists created, network' = network ++ created) /\
  Forall (fun route => exists name d,
            route !! "name" = Some name /\ d ∈ network' /\ d !! "name" = Some name) routes /\
  create_static_rules routes network' = Return network'.
Proof.
  apply provision_idempotent. left.
Qed.

End ProvisioningFacts.

Lemma create_vlans_is_idempotent_witness :
  (exists created, [vlan_lan] = [] ++ created) /\
  Forall (fun vlan => exists name d,
            vlan !! "name" = Some name /\ d ∈ [vlan_lan] /\ d !! "name" = Some name) [vlan_lan] /\
  create_vlans [vlan_lan] [vlan_lan] = Return [vlan_lan].
Proof.
  apply (create_vlans_is_idempotent [vlan_lan] [] [vlan_lan]). vm_compute. reflexivity.
Defined.

Lemma create_static_rules_is_idempotent_witness :
  (exists created, [route_branch] = [] ++ created) /\
  Forall (fun route => exists name d,
            route !! "name" = Some name /\ d ∈ [route_branch] /\ d !! "name" = Some name)
         [route_branch] /\
  create_static_rules [route_branch] [route_branch] = Return [route_branch].
Proof.
  apply (create_static_rules_is_idempotent [route_branch] [] [route_branch]).
  vm_compute. reflexivity.
Defined.


(** ** The first setting of a key wins *)

Lemma key_kept_refl {A} (o : option A) : key_kept o o.
Proof. intros v H. exact H. Qed.

Lemma key_kept_unset {A} (o' : option A) : key_kept None o'.
Proof. intros v H. discriminate H. Qed.

Lemma acl_kept_refl a : acl_kept a a.
Proof. repeat split; apply key_kept_refl. Qed.

Lemma acl_kept_trans a1 a2 a3 : acl_kept a1 a2 -> acl_kept a2 a3 -> acl_kept a1 a3.
Proof.
  intros (A1 & A2 & A3 & A4 & A5 & A6) (B1 & B2 & B3 & B4 & B5 & B6).
  repeat split; intros v H; auto.
Qed.

Lemma isset_false {A} (o : option A) : negb (isset o) = true -> o = None.
Proof. destruct o; [discriminate|reflexivity]. Qed.

Lemma source_parser_kept t v a msg a' :
  acl_src a = None -> source_parser t v a = Return (msg, a') -> acl_kept a a'.
Proof.
  intros Hs. unfold source_parser, PyStr.getitem. intros H.
  head_cases H; injection H as <- <-; try apply acl_kept_refl;
    (repeat split; cbn; try apply key_kept_refl; rewrite Hs; apply key_kept_unset).
Qed.

Lemma destination_parser_kept t v a msg a' :
  acl_dst a = None -> destination_parser t v a = Return (msg, a') -> acl_kept a a'.
Proof.
  intros Hs. unfold destination_parser, PyStr.getitem. intros H.
  head_cases H; injection H as <- <-; try apply acl_kept_refl;
    (repeat split; cbn; try apply key_kept_refl; rewrite Hs; apply key_kept_unset).
Qed.

Lemma service_parser_kept t v a msg a' :
  acl_services a = None -> service_parser t v a = Return (msg, a') -> acl_kept a a'.
Proof.
  intros Hs. unfold service_parser, PyStr.getitem. intros H.
  head_cases H; injection H as <- <-;
    (repeat split; cbn; try apply key_kept_refl; rewrite Hs; apply key_kept_unset).
Qed.

Lemma call_parser_kept (r : outcome (string * acl)) a a' :
  (forall msg a0, r = Return (msg, a0) -> acl_kept a a0) ->
  call_parser r = Return (Continue a') -> acl_kept a a'.
Proof.
  intros Hr. unfold call_parser. destruct r as [[msg a0]| |]; cbn; try discriminate.
  destruct (String.eqb msg "Success"); intros [= <-]. eapply Hr. reflexivity.
Qed.

Lemma and_then_kept (r : outcome step_result) (k : acl -> outcome step_result) a a' :
  (forall x, r = Return (Continue x) -> acl_kept a x) ->
  (forall x, acl_kept a x -> k x = Return (Continue a') -> acl_kept a a') ->
  and_then r k = Return (Continue a') -> acl_kept a a'.
Proof.
  intros Hr Hk. unfold and_then. destruct r as [[x|msg]| |]; cbn; try discriminate.
  apply Hk. now apply Hr.
Qed.

Lemma parse_child_kept t a child a' :
  parse_child t a child = Return (Continue a') -> acl_kept a a'.
Proof.
  unfold parse_child.
  destruct (PyStr.startswith "no enable" _); [discriminate|].
  set (a1 := if negb (isset (acl_src_zone a)) && _ then _ else a).
  assert (H1 : acl_kept a a1).
  { subst a1. destruct (negb (isset (acl_src_zone a))) eqn:E; cbn [andb];
      [|apply acl_kept_refl]. apply isset_false in E.
    destruct (PyStr.startswith _ _); [|apply acl_kept_refl].
    repeat split; cbn; try apply key_kept_refl. rewrite E. apply key_kept_unset. }
  clearbody a1.
  set (a2 := if negb (isset (acl_dst_zone a1)) && _ then _ else a1).
  assert (H2 : acl_kept a a2).
  { apply (acl_kept_trans _ _ _ H1). subst a2.
    destruct (negb (isset (acl_dst_zone a1))) eqn:E; cbn [andb]; [|apply acl_kept_refl].
    apply isset_false in E. destruct (PyStr.startswith _ _); [|apply acl_kept_refl].
    repeat split; cbn; try apply key_kept_refl. rewrite E. apply key_kept_unset. }
  clearbody a2. clear H1.
  set (a3 := if negb (isset (acl_action a2)) && _ then _ else a2).
  assert (H3 : acl_kept a a3).
  { apply (acl_kept_trans _ _ _ H2). subst a3.
    destruct (negb (isset (acl_action a2))) eqn:E; cbn [andb]; [|apply acl_kept_refl].
    apply isset_false in E. destruct (PyStr.startswith _ _); [|apply acl_kept_refl].
    repeat split; cbn; try apply key_kept_refl. rewrite E. apply key_kept_unset. }
  clearbody a3. clear H2.
  set (a4 := if PyStr.startswith "comment" _ then _ else a3).
  assert (H4 : acl_kept a a4).
  { apply (acl_kept_trans _ _ _ H3). subst a4.
    destruct (PyStr.startswith _ _); [|apply acl_kept_refl].
    repeat split; cbn; apply key_kept_refl. }
  clearbody a4. clear H3.
  apply and_then_kept.
  - intros x. destruct (negb (isset (acl_src a4))) eqn:E; cbn [andb].
    + apply isset_false in E. destruct (PyStr.startswith _ _).
      * intros Hc. apply (acl_kept_trans _ _ _ H4). revert Hc. apply call_parser_kept.
        intros msg a0. now apply source_parser_kept.
      * intros [= <-]. exact H4.
    + intros [= <-]. exact H4.
  - intros a5 H5.
    set (a6 := if PyStr.startswith "source port" _ then _ else a5).
    assert (H6 : acl_kept a a6).
    { apply (acl_kept_trans _ _ _ H5). subst a6.
      destruct (PyStr.startswith _ _); [|apply acl_kept_refl].
      destruct (String.eqb _ _); [|apply acl_kept_refl].
      repeat split; cbn; apply key_kept_refl. }
    clearbody a6. apply and_then_kept.
    + intros x. destruct (negb (isset (acl_dst a6))) eqn:E; cbn [andb].
      * apply isset_false in E. destruct (PyStr.startswith _ _).
        -- intros Hc. apply (acl_kept_trans _ _ _ H6). revert Hc. apply call_parser_kept.
           intros msg a0. now apply destination_parser_kept.
        -- intros [= <-]. exact H6.
      * intros [= <-]. exact H6.
    + intros a7 H7. destruct (negb (isset (acl_services a7))) eqn:E; cbn [andb].
      * apply isset_false in E. destruct (PyStr.startswith _ _).
        -- intros Hc. apply (acl_kept_trans _ _ _ H7). revert Hc. apply call_parser_kept.
           intros msg a0. now apply service_parser_kept.
        -- intros [= <-]. exact H7.
      * intros [= <-]. exact H7.
Qed.

Lemma parse_children_kept t l : forall a a',
  parse_children t a l = Return (Continue a') -> acl_kept a a'.
Proof.
  induction l as [|child l IH]; intros a a'; cbn.
  - intros [= <-]. apply acl_kept_refl.
  - apply and_then_kept.
    + intros x. apply parse_child_kept.
    + intros x Hx Hr. apply (acl_kept_trans _ _ _ Hx). now apply IH.
Qed.

(** X19: what the header of a rule sets is final: the zones, the action, the
    source, the destination and the services that [regex_match] reads in
    the header are the ones of the dictionary, whatever the child lines
    say; and among the child lines the first that sets one of these keys
    decides. *)
Theorem header_fields_are_final
    (t : tables) (line : IOSCfgLine) (a0 a : acl) (before after : list IOSCfgLine) (a1 : acl) :
  regex_match t (text line) empty_acl = Return (Continue a0) ->
  children line = before ++ after ->
  parse_children t a0 before = Return (Continue a1) ->
  parse_fields t line = Return (Continue a) ->
  acl_kept a0 a1 /\ acl_kept a1 a.
Proof.
  intros Hh Hch Hb Hf. split; [exact (parse_children_kept _ _ _ _ Hb)|].
  unfold parse_fields in Hf. rewrite Hh in Hf. cbn [and_then mbind outcome_bind] in Hf.
  assert (Hall : parse_children t a0 (children line) = Return (Continue a)).
  { destruct (children line); [discriminate Hf|exact Hf]. }
  rewrite Hch in Hall. clear Hf Hch Hh.
  revert a0 Hb Hall. induction before as [|c before IH]; intros a0 Hb Hall.
  - cbn in Hb. injection Hb as <-. exact (parse_children_kept _ _ _ _ Hall).
  - cbn [app parse_children] in Hb, Hall. unfold and_then in Hb, Hall.
    destruct (parse_child t a0 c) as [[x|msg]| |]; cbn [mbind outcome_bind] in Hb, Hall;
      try discriminate Hb.
    exact (IH x Hb Hall).
Qed.

Lemma header_fields_are_final_witness :
  acl_kept acl_header acl_header /\ acl_kept acl_header acl_header_and_children.
Proof.
  apply (header_fields_are_final empty_tables rule_header_and_children acl_header
           acl_header_and_children
           [leaf "    from DMZ"; leaf "    to VPN"; leaf "    action deny"]
           [leaf "    source address any"; leaf "    destination address any";
            leaf "    service any"]
           acl_header); vm_compute; reflexivity.
Defined.


(** ** The keys the passes read *)

Lemma object_line_keys m line m' :
  object_keys_set m -> object_line m line = Return m' -> object_keys_set m'.
Proof.
  intros [Hc Ht]. unfold object_line, PyStr.getitem. intros H.
  head_cases H; injection H as <-; split; cbn; eauto.
Qed.

Lemma fqdn_line_keys m line m' :
  fqdn_keys_set m -> fqdn_line m line = Return m' -> fqdn_keys_set m'.
Proof.
  intros [Hc Ht]. unfold fqdn_line. intros H.
  head_cases H; injection H as <-; split; cbn; eauto.
Qed.

Lemma build_object_keys t e fp m fp' :
  build_mx_object t OT_object e fp = Return (Some m, fp') ->
  is_Some (mx_category m) /\ is_Some (mx_type m) /\
  (is_Some (mx_cidr m) \/ is_Some (mx_range m)).
Proof.
  unfold build_mx_object. intros H.
  destruct (_ && _); [|discriminate H].
  destruct (children e) as [|l ls]; [discriminate H|].
  destruct (foldM object_line _ _) as [m1| |] eqn:Hf; try discriminate H.
  cbn [mbind outcome_bind] in H.
  destruct (mx_type m1) as [ty|] eqn:Et; [|discriminate H]. injection H as <- <-.
  eapply (foldM_invariant _ object_keys_set) in Hf as [Hc Ht].
  - rewrite Et in *. split; [exact Hc|]. split; eauto.
  - intros s x s'. apply object_line_keys.
  - split; cbn; [eauto|]. intros [x Hx]. discriminate Hx.
Qed.

Lemma build_fqdn_keys t e fp m fp' :
  build_mx_object t OT_fqdn e fp = Return (Some m, fp') ->
  is_Some (mx_category m) /\ is_Some (mx_type m) /\ is_Some (mx_fqdn m).
Proof.
  unfold build_mx_object. intros H.
  destruct (negb _); [|discriminate H].
  destruct (children e) as [|l ls]; [discriminate H|].
  destruct (foldM fqdn_line _ _) as [m1| |] eqn:Hf; try discriminate H.
  cbn [mbind outcome_bind] in H.
  destruct (mx_type m1) as [ty|] eqn:Et; [|discriminate H]. injection H as <- <-.
  eapply (foldM_invariant _ fqdn_keys_set) in Hf as [Hc Ht].
  - rewrite Et in *. split; [exact Hc|]. split; eauto.
  - intros s x s'. apply fqdn_line_keys.
  - split; cbn; [eauto|]. intros [x Hx]. discriminate Hx.
Qed.

(** X20: the passes of [create_objects] read the keys of the dictionary they
    get without a check, and never miss one: whenever [build_mx_object]
    returns, with a dictionary or with nothing, the step of the pass
    returns too.  So an error of a pass is an error of [build_mx_object]. *)
Theorem steps_return_when_build_returns (w : world) (element : IOSCfgLine) :
  let build ot := build_mx_object (tbl w) ot element (unprocessed_objects w) in
  (returns (build OT_object) -> returns (ipv4_object_step w element)) /\
  (returns (build OT_fqdn) -> returns (fqdn_object_step w element)) /\
  (returns (build OT_group) ->
     returns (ipv4_group_step w element) /\ returns (nested_group_step w element)) /\
  (returns (build OT_group_ipv6) -> returns (ipv6_group_step w element)) /\
  (returns (build OT_service) -> returns (service_object_step w element)) /\
  (returns (build OT_service_group) ->
     returns (service_group_step w element) /\ returns (nested_service_group_step w element)).
Proof.
  cbv zeta. unfold returns.
  split; [|split; [|split; [|split; [|split]]]].
  - intros [[[m|] fp] Hb]; unfold ipv4_object_step; rewrite Hb; cbn [mbind outcome_bind];
      [|eauto].
    destruct (build_object_keys _ _ _ _ _ Hb) as ([c Hc] & [ty Hty] & Hv).
    rewrite Hc, Hty. cbn [getkey mbind outcome_bind].
    destruct (mx_range m) as [ranges|].
    + destruct (create_range_objects _ _ _ _ _ _) as [[|id ids] d]; [eauto|].
      destruct (createOrganizationPolicyObjectsGroup _ _ _) as [[i n] d']. eauto.
    + destruct Hv as [[cidr Hcidr]|[r Hr]]; [|discriminate Hr].
      rewrite Hcidr. cbn [getkey mbind outcome_bind].
      destruct (createOrganizationPolicyObject _ _ _ _ _) as [[i n] d']. eauto.
  - intros [[[m|] fp] Hb]; unfold fqdn_object_step; rewrite Hb; cbn [mbind outcome_bind];
      [|eauto].
    destruct (build_fqdn_keys _ _ _ _ _ Hb) as ([c Hc] & [ty Hty] & [f Hf]).
    rewrite Hc, Hty, Hf. cbn [getkey mbind outcome_bind].
    destruct (createOrganizationPolicyObject _ _ _ _ _) as [[i n] d']. eauto.
  - intros [[[m|] fp] Hb]; unfold ipv4_group_step, nested_group_step; rewrite Hb;
      cbn [mbind outcome_bind]; [|eauto]. split.
    + destruct (mx_rangeIds m); [|eauto]. destruct (mx_objectIds m); [eauto|].
      destruct (createOrganizationPolicyObjectsGroup _ _ _) as [[i n] d']. eauto.
    + destruct (mx_group_of_groups m); [eauto|]. destruct (negb _); eauto.
  - intros [[[m|] fp] Hb]; unfold ipv6_group_step; rewrite Hb; cbn [mbind outcome_bind];
      [|eauto].
    destruct (mx_objectFQDNs m); [eauto|]. destruct (mx_objectIds m).
    + cbn [app]. destruct (createOrganizationPolicyObjectsGroup _ _ _) as [[i n] d']. eauto.
    + destruct (if negb (PyStr.haskey (fqdn_object_groups (tbl w)) _) then _ else _) as [t1 d1].
      destruct (if negb (PyStr.haskey (object_groups t1) _) then _ else _) as [t2 d2]. eauto.
  - intros [[[m|] fp] Hb]; unfold service_object_step; rewrite Hb; cbn [mbind outcome_bind];
      [|eauto].
    destruct (build_service_protocol _ _ _ _ _ Hb) as (p & Hp & _). rewrite Hp.
    cbn [getkey mbind outcome_bind]. eauto.
  - intros [[[m|] fp] Hb]; unfold service_group_step, nested_service_group_step; rewrite Hb;
      cbn [mbind outcome_bind]; [|eauto]. split; [eauto|].
    destruct (mx_nested_services m); [eauto|]. destruct (negb _); eauto.
Qed.


(** ** The order of the blocks of a range *)

Section RangeOrder.
Import Ipaddress.

Lemma greedy_tiles_head first nets last B :
  greedy_tiles first nets last -> head nets = Some B -> network_address B = first.
Proof.
  destruct nets as [|net rest]; [discriminate|]. cbn.
  intros (n & _ & -> & _) [= <-]. reflexivity.
Qed.

Lemma greedy_tiles_adjacent nets : forall first last i B C,
  greedy_tiles first nets last ->
  nets !! i = Some B -> nets !! S i = Some C ->
  network_address C = network_address B + block_size B.
Proof.
  induction nets as [|net rest IH]; intros first last i B C Ht HB HC; [discriminate|].
  cbn in Ht. destruct Ht as (n & Hn & -> & _ & _ & _ & Hrest).
  destruct i as [|i].
  - cbn in HB, HC. injection HB as <-. rewrite block_size_mk. cbn.
    apply (greedy_tiles_head _ _ _ _ Hrest). now destruct rest.
  - cbn in HB, HC. exact (IH _ _ _ _ _ Hrest HB HC).
Qed.

Lemma greedy_tiles_last nets : forall first final L,
  greedy_tiles first nets final -> last nets = Some L ->
  network_address L + block_size L = final + 1.
Proof.
  induction nets as [|net rest IH]; intros first final L Ht HL; [discriminate|].
  cbn in Ht. destruct Ht as (n & Hn & -> & _ & _ & _ & Hrest).
  destruct rest as [|net' rest'].
  - cbn in HL, Hrest. injection HL as <-. rewrite block_size_mk. cbn. lia.
  - apply (IH _ _ _ Hrest). exact HL.
Qed.

(** X21: the CIDR blocks of a range come in the order of their addresses and
    leave no gap: the first block starts at the start of the range, each
    block starts where the block before it ends, and the last block ends
    with the range.  So the object numbered [k] of a range stanza holds
    lower addresses than the object numbered [k + 1]. *)
Theorem range_blocks_are_consecutive (lo hi : Z) (nets : list IPv4Network) :
  0 <= lo <= hi -> hi <= ALL_ONES ->
  summarize_address_range lo hi = Return nets ->
  (exists B, head nets = Some B /\ network_address B = lo) /\
  (forall i B C, nets !! i = Some B -> nets !! S i = Some C ->
     network_address C = network_address B + block_size B) /\
  (exists L, last nets = Some L /\ network_address L + block_size L = hi + 1).
Proof.
  intros Hlo Hhi H.
  destruct (summarize_address_range_greedy lo hi Hlo Hhi) as (nets' & H' & Ht).
  rewrite H in H'. injection H' as <-.
  destruct nets as [|B rest] eqn:E.
  { cbn in Ht. lia. }
  rewrite <- E in *. split; [|split].
  - exists B. split; [now rewrite E|]. apply (greedy_tiles_head _ _ _ _ Ht). now rewrite E.
  - intros i B0 C. now apply greedy_tiles_adjacent with (first := lo) (last := hi).
  - destruct (last nets) as [L|] eqn:EL.
    + exists L. split; [reflexivity|]. exact (greedy_tiles_last _ _ _ _ Ht EL).
    + exfalso. rewrite E in EL. clear -EL. revert B EL.
      induction rest as [|y r IH]; intros B EL; [discriminate|]. exact (IH y EL).
Qed.

End RangeOrder.

Lemma range_blocks_are_consecutive_witness :
  (exists B, head [Ipaddress.mkNet 167772161 32; Ipaddress.mkNet 167772162 31;
                   Ipaddress.mkNet 167772164 32] = Some B /\
             Ipaddress.network_address B = 167772161) /\
  (forall i B C,
     [Ipaddress.mkNet 167772161 32; Ipaddress.mkNet 167772162 31;
      Ipaddress.mkNet 167772164 32] !! i = Some B ->
     [Ipaddress.mkNet 167772161 32; Ipaddress.mkNet 167772162 31;
      Ipaddress.mkNet 167772164 32] !! S i = Some C ->
     Ipaddress.network_address C = Ipaddress.network_address B + Ipaddress.block_size B) /\
  (exists L, last [Ipaddress.mkNet 167772161 32; Ipaddress.mkNet 167772162 31;
                   Ipaddress.mkNet 167772164 32] = Some L /\
             Ipaddress.network_address L + Ipaddress.block_size L = 167772164 + 1).
Proof.
  apply (range_blocks_are_consecutive 167772161 167772164); try (vm_compute; reflexivity).
  - lia.
  - unfold Ipaddress.ALL_ONES, Ipaddress.IPV4LENGTH. lia.
Defined.


(** ** Rules that are dropped, and a rule the parser stops on *)

Section RuleEdges.

Lemma parse_children_app t pre : forall a post,
  parse_children t a (pre ++ post)
  = and_then (parse_children t a pre) (fun a' => parse_children t a' post).
Proof.
  induction pre as [|c pre IH]; intros a post; [reflexivity|].
  cbn [app parse_children].
  destruct (parse_child t a c) as [[a1|msg]| |]; try reflexivity.
  exact (IH a1 post).
Qed.

Lemma product3_nil {A B C} (la : list A) (lb : list B) : product3 la lb (@nil C) = [].
Proof.
  unfold product3.
  induction la as [|x la IH]; [reflexivity|]. cbn in *. rewrite IH, app_nil_r.
  clear IH. induction lb as [|b lb IH]; [reflexivity|]. cbn in *. exact IH.
Qed.

(** A service line that names neither [any], [name] nor [group] sets an
    empty list of services, with success. *)
Lemma service_parser_no_keyword t v a :
  PyStr.contains "any" v = false -> PyStr.contains "name" v = false ->
  PyStr.contains "group" v = false ->
  service_parser t v a = Return ("Success", set_services [] a).
Proof. unfold service_parser. now intros -> -> ->. Qed.

(** X22: a rule with a child line [no enable] after children that parse is
    not translated: it leaves [acl_list] and the zone table as they are and
    is written to [unprocessed_rules.txt] with the reason. *)
Theorem inactive_rule_is_journaled
    (t : tables) (st : rules_state) (rule c : IOSCfgLine) (pre post : list IOSCfgLine)
    (a0 a1 : acl) :
  regex_match t (text rule) empty_acl = Return (Continue a0) ->
  children rule = pre ++ c :: post ->
  parse_children t a0 pre = Return (Continue a1) ->
  PyStr.startswith "no enable" (PyStr.strip (text c)) = true ->
  parse_rule_step t st rule
  = Return (mkRules (acl_list st) (zone_map st)
              (unprocessed_rules st +:+ rule_journal_record rule "Inactive rules not allowed in Meraki")).
Proof.
  intros Hre Hch Hpre Hc.
  assert (Hf : parse_fields t rule = Return (Leave "Inactive rules not allowed in Meraki")).
  { unfold parse_fields. rewrite Hre, Hch. unfold and_then at 1. cbn [mbind outcome_bind].
    destruct (pre ++ c :: post) as [|x l] eqn:E; [now destruct pre|]. rewrite <- E.
    rewrite parse_children_app, Hpre. unfold and_then at 1. cbn [mbind outcome_bind].
    cbn [parse_children]. unfold parse_child. rewrite Hc. reflexivity. }
  unfold parse_rule_step, parse_line. rewrite Hf. reflexivity.
Qed.

Lemma inactive_rule_is_journaled_witness :
  parse_rule_step empty_tables (mkRules [] ∅ EmptyString) rule_inactive
  = Return (mkRules [] ∅
              (EmptyString +:+ rule_journal_record rule_inactive "Inactive rules not allowed in Meraki")).
Proof.
  apply (inactive_rule_is_journaled empty_tables (mkRules [] ∅ EmptyString) rule_inactive
           (leaf "    no enable") [leaf "    source address any"]
           [leaf "    destination address any"; leaf "    service any"]
           (mkAcl (Some "LAN") (Some "WAN") (Some "allow") None None None None None)
           (mkAcl (Some "LAN") (Some "WAN") (Some "allow") None (Some (Str "any")) None None None));
    vm_compute; reflexivity.
Defined.

(** X23: a rule with its six keys whose list of services is empty, and that
    is not from any to any, is kept by the parser without a record in
    [unprocessed_rules.txt], and gives no firewall rule at all. *)
Theorem rule_without_services_vanishes
    (t : tables) (st : rules_state) (rule : IOSCfgLine) (a : acl) (mapping_flag : bool) :
  parse_fields t rule = Return (Continue a) ->
  acl_complete a -> acl_services a = Some [] ->
  acl_src a <> Some (Str "any") \/ acl_dst a <> Some (Str "any") ->
  parse_rule_step t st rule
    = Return (mkRules (acl_list st ++ [a]) (zone_map st) (unprocessed_rules st)) /\
  flatten_acl mapping_flag a = Return [].
Proof.
  intros Hf (Ha & Hs & Hd & Hv & Hsz & Hdz) Hnil Hany.
  destruct Ha as [action Ha], Hs as [src Hs], Hd as [dst Hd], Hsz as [sz Hsz], Hdz as [dz Hdz].
  split.
  - unfold parse_rule_step, parse_line. rewrite Hf. cbn [mbind outcome_bind].
    unfold finish_line. rewrite Ha, Hs, Hd, Hnil, Hsz, Hdz.
    assert (E : (match src with Str s => String.eqb s "any" | StrList _ => false end
                 && match dst with Str s => String.eqb s "any" | StrList _ => false end) = false).
    { apply andb_false_iff. destruct Hany as [H|H]; [left|right].
      - destruct src as [s|l]; [|reflexivity]. apply String.eqb_neq. congruence.
      - destruct dst as [s|l]; [|reflexivity]. apply String.eqb_neq. congruence. }
    rewrite E. reflexivity.
  - unfold flatten_acl. rewrite Hs, Hd, Hnil. cbn [getkey mbind outcome_bind].
    rewrite product3_nil. reflexivity.
Qed.

Lemma rule_without_services_vanishes_witness :
  parse_rule_step tables_tcp_rule (mkRules [] ∅ EmptyString) rule_service_tcp
    = Return (mkRules ([] ++ [acl_service_tcp]) ∅ EmptyString) /\
  flatten_acl false acl_service_tcp = Return [].
Proof.
  apply (rule_without_services_vanishes tables_tcp_rule (mkRules [] ∅ EmptyString)
           rule_service_tcp acl_service_tcp false).
  - vm_compute. reflexivity.
  - unfold acl_complete. cbn. eauto 10.
  - reflexivity.
  - left. discriminate.
Defined.

(** X24: a rule from any to any with its six keys and an empty list of
    services stops the parser with an [IndexError]: the rules after it are
    not read and no list of rules is returned. *)
Theorem any_to_any_rule_without_services_raises
    (t : tables) (dzm : gmap string (gmap string string)) (config : list IOSCfgLine)
    (kept clones pre post : list IOSCfgLine) (rule : IOSCfgLine) (st : rules_state) (a : acl) :
  duplicate_splitter (CiscoConfParse.find_objects config "access-rule ipv4") ST_rule
    = Return (kept, clones) ->
  kept ++ clones = pre ++ rule :: post ->
  foldM (parse_rule_step t) pre (mkRules [] dzm EmptyString) = Return st ->
  parse_fields t rule = Return (Continue a) ->
  acl_complete a -> acl_services a = Some [] ->
  acl_src a = Some (Str "any") -> acl_dst a = Some (Str "any") ->
  parse_rules t dzm config = Raise IndexError.
Proof.
  intros Hsplit Hl Hpre Hf (Ha & _ & _ & _ & Hsz & Hdz) Hnil Hs Hd.
  destruct Ha as [action Ha], Hsz as [sz Hsz], Hdz as [dz Hdz].
  unfold parse_rules. rewrite Hsplit. cbn [mbind outcome_bind]. rewrite Hl.
  rewrite foldM_app, Hpre. cbn [mbind outcome_bind foldM].
  unfold parse_rule_step, parse_line. rewrite Hf. cbn [mbind outcome_bind].
  unfold finish_line. rewrite Ha, Hs, Hd, Hnil, Hsz, Hdz. reflexivity.
Qed.

Lemma any_to_any_rule_without_services_raises_witness :
  parse_rules empty_tables ∅ [rule_any_any_discard; rule_any_any_tcp; rule_any_any_discard]
  = Raise IndexError.
Proof.
  apply (any_to_any_rule_without_services_raises empty_tables ∅
           [rule_any_any_discard; rule_any_any_tcp; rule_any_any_discard]
           [rule_any_any_discard; rule_any_any_tcp; rule_any_any_discard] []
           [rule_any_any_discard] [rule_any_any_discard] rule_any_any_tcp
           (mkRules [] ∅ EmptyString) acl_any_any_tcp).
  - vm_compute. reflexivity.
  - reflexivity.
  - vm_compute. reflexivity.
  - vm_compute. reflexivity.
  - unfold acl_complete. cbn. eauto 10.
  - reflexivity.
  - reflexivity.
  - reflexivity.
Defined.

End RuleEdges.

